(** * DNA: a coarse-grained molecular-dynamics kernel (system.c)

    Shallow embedding of the physics kernel of [system.c]: the force field
    (bond, angle, dihedral, stack), the velocity-Verlet integrator, the
    thermostat and the momentum check, followed by the properties proved
    about them.

    The C type [double] is an interface ([Double]) with two instances:
    - [RealDouble]: exact arithmetic on the reals, for the algebraic
      identities of the force field and of the integrator;
    - [FloatDouble]: IEEE-754 binary64 (Rocq's primitive floats), for
      everything that depends on rounding, infinities or NaN.
    The program is written once, over the interface.  [acos] and [cos] of
    the C library and [angle] and [dihedral] of vmath.h are parameters
    ([Libm], [Vmath]). *)

From stdpp Require Import list.
From Stdlib Require Import Reals Lra ZArith Floats.

Set Warnings "-inexact-float".

(** ** The arithmetic of [double] *)

(** The decimal literals and [M_PI] that occur in [system.c]. *)
Inductive Literal : Type :=
  | D_S5P_lit          (* 3.899e-10 *)
  | D_S3P_lit          (* 3.559e-10 *)
  | D_SA_lit           (* 6.430e-10 *)
  | STACK_SIGMA_lit    (* 3.414e-10 *)
  | EPSILON_lit        (* 1.81e-21 *)
  | ANGLE_S5_P_3S_lit  (* 94.49 *)
  | ANGLE_P_5S3_P_lit  (* 120.15 *)
  | ANGLE_P_5S_A_lit   (* 113.13 *)
  | ANGLE_P_3S_A_lit   (* 108.38 *)
  | DIHEDRAL_P_5S3_P_5S_lit  (* 154.80 *)
  | DIHEDRAL_S3_P_5S3_P_lit  (* 179.17 *)
  | DIHEDRAL_A_S3_P_5S_lit   (* 22.60 *)
  | DIHEDRAL_S3_P_5S_A_lit   (* 50.69 *)
  | BOLTZMANN_lit      (* 1.38065e-23 *)
  | ANGSTROM2_lit      (* 1e20 *)
  | M_PI_lit           (* M_PI of math.h *)
  | HFACTOR_lit        (* 1e-8 *)
  | SIN_CUTOFF_lit     (* 1e-30 *)
  | ORTHO_TOL_lit      (* 1e-5 *)
  | PPM_MAX_lit        (* 1e-20 *).

Class Double : Type := {
  D : Type;
  dadd : D -> D -> D;
  dsub : D -> D -> D;
  dmul : D -> D -> D;
  ddiv : D -> D -> D;
  dneg : D -> D;
  dsqrt : D -> D;
  dfabs : D -> D;
  dlt : D -> D -> bool;       (* a < b *)
  dle : D -> D -> bool;       (* a <= b *)
  deq : D -> D -> bool;       (* a == b *)
  disnan : D -> bool;         (* isnan(a) *)
  of_int : Z -> D;            (* conversion of an int operand *)
  lit : Literal -> D
}.

Declare Scope dbl_scope.
Delimit Scope dbl_scope with dbl.
Bind Scope dbl_scope with D.
Infix "+" := dadd : dbl_scope.
Infix "-" := dsub : dbl_scope.
Infix "*" := dmul : dbl_scope.
Infix "/" := ddiv : dbl_scope.
Notation "- a" := (dneg a) : dbl_scope.
Infix "<?" := dlt : dbl_scope.
Infix "<=?" := dle : dbl_scope.
Infix "=?" := deq : dbl_scope.
Notation "a >? b" := (dlt b a) (only parsing) : dbl_scope.
Notation "a !=? b" := (negb (deq a b)) (at level 70) : dbl_scope.
Notation "# n" := (of_int n%Z) (at level 5, n at level 0, format "# n") : dbl_scope.

(** *** Exact real arithmetic *)

Definition Rltb (a b : R) : bool := if Rlt_dec a b then true else false.
Definition Rleb (a b : R) : bool := if Rle_dec a b then true else false.
Definition Reqb (a b : R) : bool := if Req_dec_T a b then true else false.

Definition lit_R (l : Literal) : R :=
  match l with
  | D_S5P_lit => 3.899e-10
  | D_S3P_lit => 3.559e-10
  | D_SA_lit => 6.430e-10
  | STACK_SIGMA_lit => 3.414e-10
  | EPSILON_lit => 1.81e-21
  | ANGLE_S5_P_3S_lit => 94.49
  | ANGLE_P_5S3_P_lit => 120.15
  | ANGLE_P_5S_A_lit => 113.13
  | ANGLE_P_3S_A_lit => 108.38
  | DIHEDRAL_P_5S3_P_5S_lit => 154.80
  | DIHEDRAL_S3_P_5S3_P_lit => 179.17
  | DIHEDRAL_A_S3_P_5S_lit => 22.60
  | DIHEDRAL_S3_P_5S_A_lit => 50.69
  | BOLTZMANN_lit => 1.38065e-23
  | ANGSTROM2_lit => 1e20
  | M_PI_lit => PI
  | HFACTOR_lit => 1e-8
  | SIN_CUTOFF_lit => 1e-30
  | ORTHO_TOL_lit => 1e-5
  | PPM_MAX_lit => 1e-20
  end%R.

#[export] Instance RealDouble : Double := {|
  D := R;
  dadd := Rplus;
  dsub := Rminus;
  dmul := Rmult;
  ddiv := Rdiv;
  dneg := Ropp;
  dsqrt := R_sqrt.sqrt;
  dfabs := Rabs;
  dlt := Rltb;
  dle := Rleb;
  deq := Reqb;
  disnan := fun _ => false;
  of_int := IZR;
  lit := lit_R
|}.

(** *** IEEE-754 binary64 *)

Definition float_of_int (n : Z) : float :=
  match n with
  | Z0 => 0%float
  | Zpos _ => PrimFloat.of_uint63 (Uint63.of_Z n)
  | Zneg _ => PrimFloat.opp (PrimFloat.of_uint63 (Uint63.of_Z (Z.opp n)))
  end.

Definition float_isnan (a : float) : bool := negb (PrimFloat.eqb a a).

Definition lit_float (l : Literal) : float :=
  match l with
  | D_S5P_lit => 3.899e-10
  | D_S3P_lit => 3.559e-10
  | D_SA_lit => 6.430e-10
  | STACK_SIGMA_lit => 3.414e-10
  | EPSILON_lit => 1.81e-21
  | ANGLE_S5_P_3S_lit => 94.49
  | ANGLE_P_5S3_P_lit => 120.15
  | ANGLE_P_5S_A_lit => 113.13
  | ANGLE_P_3S_A_lit => 108.38
  | DIHEDRAL_P_5S3_P_5S_lit => 154.80
  | DIHEDRAL_S3_P_5S3_P_lit => 179.17
  | DIHEDRAL_A_S3_P_5S_lit => 22.60
  | DIHEDRAL_S3_P_5S_A_lit => 50.69
  | BOLTZMANN_lit => 1.38065e-23
  | ANGSTROM2_lit => 1e20
  | M_PI_lit => 3.14159265358979323846
  | HFACTOR_lit => 1e-8
  | SIN_CUTOFF_lit => 1e-30
  | ORTHO_TOL_lit => 1e-5
  | PPM_MAX_lit => 1e-20
  end%float.

Definition FloatDouble : Double := {|
  D := float;
  dadd := PrimFloat.add;
  dsub := PrimFloat.sub;
  dmul := PrimFloat.mul;
  ddiv := PrimFloat.div;
  dneg := PrimFloat.opp;
  dsqrt := PrimFloat.sqrt;
  dfabs := PrimFloat.abs;
  dlt := PrimFloat.ltb;
  dle := PrimFloat.leb;
  deq := PrimFloat.eqb;
  disnan := float_isnan;
  of_int := float_of_int;
  lit := lit_float
|}.

(** ** vmath.h *)

Section Vmath.
Context {Dbl : Double}.
Local Open Scope dbl_scope.

(** Modelled from the spec: the type [Vec3] of vmath.h, a 3-component
    vector of doubles with fields [x], [y], [z] (the fields are used by
    system.c). *)
Record Vec3 : Type := mkVec3 { x : D; y : D; z : D }.

(** Modelled from the spec: [add], [sub], [scale], [dot], [length2],
    [length], [distance2] and [distance] of vmath.h, the "3-component
    vector add/sub/scale/dot/length" primitives, as pure functions of the
    vectors read (system.c passes the result location as a last pointer
    argument). *)
Definition add (a b : Vec3) : Vec3 :=
  mkVec3 (x a + x b) (y a + y b) (z a + z b).
Definition sub (a b : Vec3) : Vec3 :=
  mkVec3 (x a - x b) (y a - y b) (z a - z b).
Definition scale (v : Vec3) (lambda : D) : Vec3 :=
  mkVec3 (x v * lambda) (y v * lambda) (z v * lambda).
Definition dot (v w : Vec3) : D :=
  x v * x w + y v * y w + z v * z w.
Definition length2 (v : Vec3) : D := dot v v.
Definition length (v : Vec3) : D := dsqrt (length2 v).
Definition distance2 (a b : Vec3) : D := length2 (sub a b).
Definition distance (a b : Vec3) : D := dsqrt (distance2 a b).

(** [angle] and [dihedral] of vmath.h are not specified beyond their names:
    they are parameters of the development. *)
Class Vmath : Type := {
  angle : Vec3 -> Vec3 -> D;
  dihedral : Vec3 -> Vec3 -> Vec3 -> D
}.

(** [acos] and [cos] of math.h.  IEEE-754 does not fix their results, so
    they are parameters too. *)
Class Libm : Type := {
  dacos : D -> D;
  dcos : D -> D
}.

End Vmath.

Arguments Vmath Dbl : clear implicits.
Arguments Libm Dbl : clear implicits.

#[export] Instance RealLibm : Libm RealDouble := {|
  dacos := Ratan.acos;
  dcos := Rtrigo_def.cos
|}.

(** ** system.h: particles, world, configuration *)

Section System.
Context {Dbl : Double} {LM : Libm Dbl} {VM : Vmath Dbl}.
Local Open Scope dbl_scope.

(** Modelled from the spec: the types [Particle], [Config] and [World] of
    system.h.  A particle has a position, a velocity, a force accumulator
    and a mass; the configuration holds the number of monomers, the time
    step and the thermostat's relaxation time and target temperature. *)
Record Particle : Type := mkParticle {
  pos : Vec3;
  vel : Vec3;
  F : Vec3;
  m : D
}.

Record Config : Type := mkConfig {
  numMonomers : nat;
  timeStep : D;
  thermostatTau : D;
  thermostatTemp : D
}.

(** [world.all] is one block of [3 * numMonomers] particles; [world.Ss],
    [world.As] and [world.Ps] point into it at offsets [0], [numMonomers]
    and [2 * numMonomers] (allocWorld).  A [Particle *] is an index into
    the block. *)
Abbreviation ptr := nat.
Abbreviation World := (list Particle).

Definition Ss (n i : nat) : ptr := i.
Definition As (n i : nat) : ptr := (n + i)%nat.
Definition Ps (n i : nat) : ptr := (2 * n + i)%nat.

(** What physicsCheck prints on stderr. *)
Inductive Diag : Type :=
  | MomentumViolated (PPM : D).

(** The globals of system.c, and the error channel. *)
Record State : Type := mkState {
  config : Config;
  world : World;
  sim_time : D;
  stderr : list Diag
}.

(** The [assert]s of system.c; a failed one aborts the process. *)
Inductive Assertion : Type :=
  | VelNotNan          (* verlet: !isnan(p->vel.x) && ... *)
  | StackDistNonzero   (* Fstack: dr != 0 *)
  | AngleF1Orthogonal  (* Fangle: ktheta == 0 || fabs(dot(a,F1)...) < 1e-5 *)
  | AngleF3Orthogonal  (* Fangle: ktheta == 0 || fabs(dot(b,F3)...) < 1e-5 *)
  | PhysicsCheck       (* stepWorld: assert(physicsCheck()) *).

(** A run either returns a value and the new globals, or is aborted by a
    failed assertion, with the globals as they are at that point. *)
Inductive Result (A : Type) : Type :=
  | Ok (a : A) (s : State)
  | Abort (e : Assertion) (s : State).
Arguments Ok {A} a s.
Arguments Abort {A} e s.

Definition M (A : Type) : Type := State -> Result A.

#[export] Instance M_ret : MRet M := fun A a s => Ok a s.
#[export] Instance M_bind : MBind M := fun A B f c s =>
  match c s with
  | Ok a s' => f a s'
  | Abort e s' => Abort e s'
  end.

Definition get_config : M Config := fun s => Ok (config s) s.
Definition get_world : M World := fun s => Ok (world s) s.

Definition set_world (w : World) (s : State) : State :=
  mkState (config s) w (sim_time s) (stderr s).

Definition zero_vec : Vec3 := mkVec3 #0 #0 #0.
Definition zero_particle : Particle := mkParticle zero_vec zero_vec zero_vec #0.

(** Reading and writing through a [Particle *].  An access outside the
    allocated block is undefined in C; the model reads a zero particle
    there and drops the write. *)
Definition particle (w : World) (p : ptr) : Particle :=
  default zero_particle (w !! p).

Definition load (p : ptr) : M Particle := fun s => Ok (particle (world s) p) s.

Definition modify (p : ptr) (f : Particle -> Particle) : M unit :=
  fun s => Ok tt (set_world (alter f p (world s)) s).

Definition assert (e : Assertion) (b : bool) : M unit :=
  fun s => if b then Ok tt s else Abort e s.

Definition fprintf_stderr (d : Diag) : M unit :=
  fun s => Ok tt (mkState (config s) (world s) (sim_time s) (stderr s ++ [d])).

(** [for (int i = lo; i < hi; i++) body] *)
Fixpoint for_count (i count : nat) (body : nat -> M unit) : M unit :=
  match count with
  | O => mret tt
  | S count' => body i ;; for_count (S i) count' body
  end.
Definition for_loop (lo hi : nat) (body : nat -> M unit) : M unit :=
  for_count lo (hi - lo)%nat body.

(** Field assignments. *)
Definition set_pos (v : Vec3) (p : Particle) : Particle := mkParticle v (vel p) (F p) (m p).
Definition set_vel (v : Vec3) (p : Particle) : Particle := mkParticle (pos p) v (F p) (m p).
Definition set_F (v : Vec3) (p : Particle) : Particle := mkParticle (pos p) (vel p) v (m p).
Definition set_x (a : D) (v : Vec3) : Vec3 := mkVec3 a (y v) (z v).
Definition set_y (a : D) (v : Vec3) : Vec3 := mkVec3 (x v) a (z v).
Definition set_z (a : D) (v : Vec3) : Vec3 := mkVec3 (x v) (y v) a.

(** ** Constants of system.c *)

Definition D_S5P : D := lit D_S5P_lit.
Definition D_S3P : D := lit D_S3P_lit.
Definition D_SA : D := lit D_SA_lit.
Definition STACK_SIGMA : D := lit STACK_SIGMA_lit.
Definition EPSILON : D := lit EPSILON_lit.
Definition FROM_ANGSTROM_SQUARED : D := lit ANGSTROM2_lit.
Definition BOLTZMANN_CONSTANT : D := lit BOLTZMANN_lit.
Definition TO_RADIANS : D := lit M_PI_lit / #180.

Definition BOND_K1 : D := EPSILON * FROM_ANGSTROM_SQUARED.
Definition BOND_K2 : D := #100 * EPSILON * FROM_ANGSTROM_SQUARED.
Definition BOND_Ktheta : D := #400 * EPSILON.
Definition BOND_Kphi : D := #4 * EPSILON.
Definition BOND_STACK : D := EPSILON.

Definition ANGLE_S5_P_3S : D := lit ANGLE_S5_P_3S_lit * TO_RADIANS.
Definition ANGLE_P_5S3_P : D := lit ANGLE_P_5S3_P_lit * TO_RADIANS.
Definition ANGLE_P_5S_A : D := lit ANGLE_P_5S_A_lit * TO_RADIANS.
Definition ANGLE_P_3S_A : D := lit ANGLE_P_3S_A_lit * TO_RADIANS.

Definition DIHEDRAL_P_5S3_P_5S : D := (- lit DIHEDRAL_P_5S3_P_5S_lit) * TO_RADIANS.
Definition DIHEDRAL_S3_P_5S3_P : D := (- lit DIHEDRAL_S3_P_5S3_P_lit) * TO_RADIANS.
Definition DIHEDRAL_A_S3_P_5S : D := (- lit DIHEDRAL_A_S3_P_5S_lit) * TO_RADIANS.
Definition DIHEDRAL_S3_P_5S_A : D := lit DIHEDRAL_S3_P_5S_A_lit * TO_RADIANS.

(** ** The force field *)

(** [add(&p->F, &v, &p->F)] and [sub(&p->F, &v, &p->F)] *)
Definition add_F (p : ptr) (v : Vec3) : M unit :=
  modify p (fun P => set_F (add (F P) v) P).
Definition sub_F (p : ptr) (v : Vec3) : M unit :=
  modify p (fun P => set_F (sub (F P) v) P).

Definition Vbond (p1 p2 : ptr) (d0 : D) : M D :=
  P1 ← load p1; P2 ← load p2;
  let k1 := BOND_K1 in
  let k2 := BOND_K2 in
  let d := distance (pos P1) (pos P2) - d0 in
  let d2 := d * d in
  let d4 := d2 * d2 in
  mret (k1 * d2 + k2 * d4).

Definition Fbond (p1 p2 : ptr) (d0 : D) : M unit :=
  P1 ← load p1; P2 ← load p2;
  let k1 := BOND_K1 in
  let k2 := BOND_K2 in
  let drVec := sub (pos P2) (pos P1) in
  let dr := length drVec in
  let d := dr - d0 in
  let d3 := d * d * d in
  let drVecNormalized := scale drVec (#1 / dr) in
  let Fv := scale drVecNormalized (#2 * k1 * d + #4 * k2 * d3) in
  add_F p1 Fv;;
  sub_F p2 Fv.

Definition Vangle (p1 p2 p3 : ptr) (theta0 : D) : M D :=
  P1 ← load p1; P2 ← load p2; P3 ← load p3;
  let ktheta := BOND_Ktheta in
  let a := sub (pos P1) (pos P2) in
  let b := sub (pos P3) (pos P2) in
  let dtheta := angle a b - theta0 in
  mret (ktheta / #2 * dtheta * dtheta).

Definition Fangle (p1 p2 p3 : ptr) (theta0 : D) : M unit :=
  P1 ← load p1; P2 ← load p2; P3 ← load p3;
  let ktheta := BOND_Ktheta in
  let a := sub (pos P1) (pos P2) in
  let b := sub (pos P3) (pos P2) in
  let lal := length a in
  let lbl := length b in
  let adotb := dot a b in
  let costheta := adotb / (lal * lbl) in
  let theta := dacos costheta in
  let sintheta := dsqrt (#1 - costheta * costheta) in
  if dfabs sintheta <? lit SIN_CUTOFF_lit then mret tt else
  let tmp1 := scale b (#1 / (lal * lbl)) in
  let tmp2 := scale a (adotb / (lal * lal * lal * lbl)) in
  let F1 := sub tmp1 tmp2 in
  let F1 := scale F1 (ktheta * (theta - theta0) / sintheta) in
  add_F p1 F1;;
  let tmp1 := scale a (#1 / (lal * lbl)) in
  let tmp2 := scale b (adotb / (lbl * lbl * lbl * lal)) in
  let F3 := sub tmp1 tmp2 in
  let F3 := scale F3 (ktheta * (theta - theta0) / sintheta) in
  add_F p3 F3;;
  let F2 := add F1 F3 in
  sub_F p2 F2;;
  assert AngleF1Orthogonal
    ((ktheta =? #0) || (dfabs (dot a F1 / length a / length F1) <? lit ORTHO_TOL_lit));;
  assert AngleF3Orthogonal
    ((ktheta =? #0) || (dfabs (dot b F3 / length b / length F3) <? lit ORTHO_TOL_lit)).

Definition Vdihedral (p1 p2 p3 p4 : ptr) (phi0 : D) : M D :=
  P1 ← load p1; P2 ← load p2; P3 ← load p3; P4 ← load p4;
  let kphi := BOND_Kphi in
  let r1 := sub (pos P2) (pos P1) in
  let r2 := sub (pos P3) (pos P2) in
  let r3 := sub (pos P4) (pos P3) in
  let phi := dihedral r1 r2 r3 in
  mret (kphi * (#1 - dcos (phi - phi0))).

(** [target->pos.x += h] and the like: the coordinate is read again at the
    time of the assignment. *)
Definition pos_x_add (h : D) (P : Particle) : Particle := set_pos (set_x (x (pos P) + h) (pos P)) P.
Definition pos_x_sub (h : D) (P : Particle) : Particle := set_pos (set_x (x (pos P) - h) (pos P)) P.
Definition pos_y_add (h : D) (P : Particle) : Particle := set_pos (set_y (y (pos P) + h) (pos P)) P.
Definition pos_y_sub (h : D) (P : Particle) : Particle := set_pos (set_y (y (pos P) - h) (pos P)) P.
Definition pos_z_add (h : D) (P : Particle) : Particle := set_pos (set_z (z (pos P) + h) (pos P)) P.
Definition pos_z_sub (h : D) (P : Particle) : Particle := set_pos (set_z (z (pos P) - h) (pos P)) P.

Definition FdihedralParticle (target p1 p2 p3 p4 : ptr) (Vorig phi0 : D) : M unit :=
  let hfactor := lit HFACTOR_lit in
  T ← load target;
  let h := x (pos T) * hfactor in
  modify target (pos_x_add h);;
  V ← Vdihedral p1 p2 p3 p4 phi0;
  let Fx := (Vorig - V) / h in
  modify target (pos_x_sub h);;
  T ← load target;
  let h := y (pos T) * hfactor in
  modify target (pos_y_add h);;
  V ← Vdihedral p1 p2 p3 p4 phi0;
  let Fy := (Vorig - V) / h in
  modify target (pos_y_sub h);;
  T ← load target;
  let h := z (pos T) * hfactor in
  modify target (pos_z_add h);;
  V ← Vdihedral p1 p2 p3 p4 phi0;
  let Fz := (Vorig - V) / h in
  modify target (pos_z_sub h);;
  add_F target (mkVec3 Fx Fy Fz).

Definition Fdihedral (p1 p2 p3 p4 : ptr) (phi0 : D) : M unit :=
  Vorig ← Vdihedral p1 p2 p3 p4 phi0;
  FdihedralParticle p1 p1 p2 p3 p4 Vorig phi0;;
  FdihedralParticle p2 p1 p2 p3 p4 Vorig phi0;;
  FdihedralParticle p3 p1 p2 p3 p4 Vorig phi0;;
  FdihedralParticle p4 p1 p2 p3 p4 Vorig phi0.

Definition stack_sigma6 : D :=
  let sigma := STACK_SIGMA in
  let sigma2 := sigma * sigma in
  sigma2 * sigma2 * sigma2.

Definition Vstack (p1 p2 : ptr) : M D :=
  P1 ← load p1; P2 ← load p2;
  let kStack := BOND_STACK in
  let sigma6 := stack_sigma6 in
  let sigma12 := sigma6 * sigma6 in
  let r2 := distance2 (pos P1) (pos P2) in
  let r6 := r2 * r2 * r2 in
  let r12 := r6 * r6 in
  mret (kStack * (sigma12 / r12 - #2 * sigma6 / r6 + #1)).

Definition Fstack (p1 p2 : ptr) : M unit :=
  P1 ← load p1; P2 ← load p2;
  let kStack := BOND_STACK in
  let sigma6 := stack_sigma6 in
  let sigma12 := sigma6 * sigma6 in
  let drVec := sub (pos P2) (pos P1) in
  let dr := length drVec in
  assert StackDistNonzero (dr !=? #0);;
  let dr2 := dr * dr in
  let dr3 := dr * dr * dr in
  let dr6 := dr3 * dr3 in
  let dr8 := dr6 * dr2 in
  let dr12 := dr6 * dr6 in
  let dr14 := dr12 * dr2 in
  let Fi := scale drVec (#(-12) * kStack * (sigma12 / dr14 - sigma6 / dr8)) in
  add_F p1 Fi;;
  sub_F p2 Fi.

Definition calculateForces : M unit :=
  cfg ← get_config;
  let n := numMonomers cfg in
  (* Reset forces *)
  for_loop 0 (3 * n)%nat (fun i =>
    modify i (fun P => set_F (set_x #0 (F P)) P);;
    modify i (fun P => set_F (set_y #0 (F P)) P);;
    modify i (fun P => set_F (set_z #0 (F P)) P));;
  (* Bottom monomer *)
  Fbond (Ss n 0) (As n 0) D_SA;;
  Fbond (Ss n 0) (Ps n 0) D_S5P;;
  Fangle (Ps n 0) (Ss n 0) (As n 0) ANGLE_P_5S_A;;
  (* Rest of the monomers *)
  for_loop 1 n (fun i =>
    Fbond (Ss n i) (As n i) D_SA;;
    Fbond (Ss n i) (Ps n i) D_S5P;;
    Fbond (Ss n i) (Ps n (i - 1)%nat) D_S3P;;
    Fstack (As n i) (As n (i - 1)%nat);;
    Fangle (Ps n i) (Ss n i) (As n i) ANGLE_P_5S_A;;
    Fangle (Ps n i) (Ss n i) (Ps n (i - 1)%nat) ANGLE_P_5S3_P;;
    Fangle (Ps n (i - 1)%nat) (Ss n i) (As n i) ANGLE_P_3S_A;;
    Fangle (Ss n (i - 1)%nat) (Ps n (i - 1)%nat) (Ss n i) ANGLE_S5_P_3S;;
    Fdihedral (Ps n i) (Ss n i) (Ps n (i - 1)%nat) (Ss n (i - 1)%nat) DIHEDRAL_P_5S3_P_5S;;
    Fdihedral (As n i) (Ss n i) (Ps n (i - 1)%nat) (Ss n (i - 1)%nat) DIHEDRAL_A_S3_P_5S;;
    Fdihedral (Ss n i) (Ps n (i - 1)%nat) (Ss n (i - 1)%nat) (As n (i - 1)%nat) DIHEDRAL_S3_P_5S_A;;
    if bool_decide (2 <= i)%nat
    then Fdihedral (Ss n i) (Ps n (i - 1)%nat) (Ss n (i - 1)%nat) (Ps n (i - 2)%nat) DIHEDRAL_S3_P_5S3_P
    else mret tt).

(** ** Integrator, thermostat, diagnostics *)

(** The two loops of [verlet]. *)
Definition verlet_kick_drift (dt : D) (i : nat) : M unit :=
  p ← load i;
  (* vel(t + dt/2) = vel(t) + acc(t)*dt/2 *)
  let tmp := scale (F p) (dt / (#2 * m p)) in
  modify i (fun P => set_vel (add (vel P) tmp) P);;
  p ← load i;
  assert VelNotNan
    (negb (disnan (x (vel p))) && negb (disnan (y (vel p))) && negb (disnan (z (vel p))));;
  (* pos(t + dt) = pos(t) + vel(t + dt/2)*dt *)
  let tmp := scale (vel p) dt in
  modify i (fun P => set_pos (add (pos P) tmp) P).

Definition verlet_kick (dt : D) (i : nat) : M unit :=
  p ← load i;
  (* vel(t + dt) = vel(t + dt/2) + acc(t + dt)*dt/2 *)
  let tmp := scale (F p) (dt / (#2 * m p)) in
  modify i (fun P => set_vel (add (vel P) tmp) P).

Definition verlet : M unit :=
  cfg ← get_config;
  let dt := timeStep cfg in
  for_loop 0 (3 * numMonomers cfg)%nat (verlet_kick_drift dt);;
  calculateForces;; (* acc(t + dt) *)
  for_loop 0 (3 * numMonomers cfg)%nat (verlet_kick dt).

(** The accumulation loop of [kineticEnergy], from index [i]. *)
Fixpoint kineticEnergy_loop (w : World) (i count : nat) (twiceK : D) : D :=
  match count with
  | O => twiceK
  | S count' =>
      kineticEnergy_loop w (S i) count'
        (twiceK + m (particle w i) * length2 (vel (particle w i)))
  end.

Definition kineticEnergy : M D :=
  cfg ← get_config; w ← get_world;
  let twiceK := kineticEnergy_loop w 0 (3 * numMonomers cfg)%nat #0 in
  mret (twiceK / #2).

Definition temperature : M D :=
  cfg ← get_config;
  K ← kineticEnergy;
  mret (#2 / (#3 * BOLTZMANN_CONSTANT) * K / (#(Z.of_nat (numMonomers cfg)) * #3)).

Definition thermostat : M unit :=
  cfg ← get_config;
  if thermostatTau cfg <=? #0 then mret tt else
  Tk ← temperature;
  let T0 := thermostatTemp cfg in
  let dt := timeStep cfg in
  let tau := thermostatTau cfg in
  let lambda := dsqrt (#1 + dt / tau * (T0 / Tk - #1)) in
  for_loop 0 (numMonomers cfg * 3)%nat (fun i =>
    modify i (fun P => set_vel (scale (vel P) lambda) P)).

(** The accumulation loop of [momentum], from index [i]. *)
Fixpoint momentum_loop (w : World) (i count : nat) (Ptot : Vec3) : Vec3 :=
  match count with
  | O => Ptot
  | S count' =>
      let P := scale (vel (particle w i)) (m (particle w i)) in
      momentum_loop w (S i) count' (add P Ptot)
  end.

Definition momentum : M Vec3 :=
  cfg ← get_config; w ← get_world;
  mret (momentum_loop w 0 (3 * numMonomers cfg)%nat zero_vec).

Definition physicsCheck : M bool :=
  cfg ← get_config;
  P ← momentum;
  let PPM := length P / #(Z.of_nat (numMonomers cfg)) in
  if PPM >? lit PPM_MAX_lit
  then fprintf_stderr (MomentumViolated PPM);; mret false
  else mret true.

(** [assert(physicsCheck())] and [sim_time += config.timeStep] *)
Definition assert_physicsCheck : M unit :=
  ok ← physicsCheck; assert PhysicsCheck ok.
Definition advance_sim_time : M unit :=
  fun s => Ok tt (mkState (config s) (world s) (sim_time s + timeStep (config s)) (stderr s)).

Definition stepWorld : M unit :=
  verlet;;
  assert_physicsCheck;;
  thermostat;;
  assert_physicsCheck;;
  advance_sim_time.

End System.

Arguments Ok {Dbl A} a s.
Arguments Abort {Dbl A} e s.
Abbreviation World := (list Particle).
Abbreviation ptr := nat.

(** * Allocation, initial placement and reporting *)

(** The other decimal literals of [system.c]: the masses and the energy
    unit. *)
Class MoreLiterals (Dbl : Double) : Type := {
  AU_lit : @D Dbl;            (* 1.660539e-27 *)
  MASS_A_lit : @D Dbl;        (* 134.1 *)
  MASS_P_lit : @D Dbl;        (* 94.97 *)
  MASS_S_lit : @D Dbl;        (* 83.11 *)
  ELECTRONVOLT_lit : @D Dbl   (* 1.602177e-19 *)
}.

#[export] Instance RealMoreLiterals : MoreLiterals RealDouble := {|
  AU_lit := 1.660539e-27%R;
  MASS_A_lit := 134.1%R;
  MASS_P_lit := 94.97%R;
  MASS_S_lit := 83.11%R;
  ELECTRONVOLT_lit := 1.602177e-19%R
|}.

Definition FloatMoreLiterals : MoreLiterals FloatDouble :=
  Build_MoreLiterals FloatDouble
    1.660539e-27%float 134.1%float 94.97%float 83.11%float 1.602177e-19%float.

(** [log] of math.h, a parameter like [acos] and [cos]. *)
Class LibmLog (Dbl : Double) : Type := {
  dlog : @D Dbl -> @D Dbl
}.

(** ** allocWorld and freeWorld *)

(** What these two functions see of the memory: the pointer [world.all]
    ([None] is [NULL]), the three pointers derived from it (as offsets into
    the block) and the blocks that are allocated. *)
Record Memory : Type := mkMemory {
  world_all : option nat;
  world_Ss : nat;
  world_As : nat;
  world_Ps : nat;
  allocated : list nat
}.

Inductive AllocResult : Type :=
  | AllocAssertFailed                       (* assert(world.all == NULL) *)
  | AllocReturned (ok : bool) (mem : Memory).

(** [calloc_result] is what [calloc] returns: [None] for [NULL], or the
    address of a fresh block of [3 * numMonomers] zeroed particles. *)
Definition allocWorld (numMonomers : nat) (calloc_result : option nat) (mem : Memory)
    : AllocResult :=
  match world_all mem with
  | Some _ => AllocAssertFailed
  | None =>
      match calloc_result with
      | None =>
          AllocReturned false
            (mkMemory None (world_Ss mem) (world_As mem) (world_Ps mem) (allocated mem))
      | Some a =>
          AllocReturned true
            (mkMemory (Some a) 0 (1 * numMonomers) (2 * numMonomers) (a :: allocated mem))
      end
  end.

(** [free(world.all)]: the block is released, the pointer is not reset. *)
Definition freeWorld (mem : Memory) : Memory :=
  match world_all mem with
  | None => mem
  | Some a =>
      mkMemory (world_all mem) (world_Ss mem) (world_As mem) (world_Ps mem)
        (filter (fun b => b <> a) (allocated mem))
  end.

Section Placement.
Context {Dbl : Double} {LM : Libm Dbl} {LL : LibmLog Dbl} {VM : Vmath Dbl}
        {ML : MoreLiterals Dbl}.
Local Open Scope dbl_scope.

Definition AU : D := AU_lit.
Definition MASS_A : D := MASS_A_lit * AU.
Definition MASS_P : D := MASS_P_lit * AU.
Definition MASS_S : D := MASS_S_lit * AU.
Definition ENERGY_FACTOR : D := #1 / ELECTRONVOLT_lit.

(** The block [calloc] returns: every field of every particle is zero. *)
Definition calloc_block (numMonomers : nat) : World :=
  replicate (3 * numMonomers) zero_particle.

(** ** randNorm and fillWorld *)

(** [rand()] is modelled by the sequence [rand_values] of the values it
    returns, and the number of calls made so far; [RAND_MAX] is a
    parameter. *)
Definition randNorm (RAND_MAX : Z) (rand_values : nat -> Z) (calls : nat) : D * nat :=
  (* Box-Muller transform *)
  let u1 := #(rand_values calls) / #RAND_MAX in
  let u2 := #(rand_values (S calls)) / #RAND_MAX in
  (dsqrt (#(-2) * dlog u1) * dcos (#2 * lit M_PI_lit * u2), S (S calls)).

(** [p->pos.c += posStdev * randNorm()] *)
Definition jitter (RAND_MAX : Z) (rand_values : nat -> Z) (posStdev : D)
    (bump : D -> Particle -> Particle) (p : ptr) (st : World * nat) : World * nat :=
  let '(r, calls) := randNorm RAND_MAX rand_values (snd st) in
  (alter (bump (posStdev * r)) p (fst st), calls).

(** One turn of the loop of [fillWorld]. *)
Definition fillWorld_monomer (RAND_MAX : Z) (rand_values : nat -> Z) (n i : nat)
    (st : World * nat) : World * nat :=
  let spacing := D_S5P + D_S3P in
  let yoffset := #(- Z.of_nat n) * spacing / #2 in
  let xoffset := - D_SA / #2 in
  let posStdev := spacing / #100 in
  let jit := jitter RAND_MAX rand_values posStdev in
  let w := fst st in
  (* Positions *)
  let w := alter (fun P => set_pos (set_z #0 (pos P)) P) (As n i) w in
  let w := alter (fun P => set_pos (set_z #0 (pos P)) P) (Ps n i) w in
  let w := alter (fun P => set_pos (set_z #0 (pos P)) P) (Ss n i) w in
  let w := alter (fun P => set_pos (set_x xoffset (pos P)) P) (Ss n i) w in
  let w := alter (fun P => set_pos (set_x (xoffset + D_SA) (pos P)) P) (As n i) w in
  let w := alter (fun P => set_pos (set_x xoffset (pos P)) P) (Ps n i) w in
  let w := alter (fun P => set_pos (set_y (yoffset + #(Z.of_nat i) * spacing) (pos P)) P)
             (Ss n i) w in
  let w := alter (fun P => set_pos (set_y (yoffset + #(Z.of_nat i) * spacing) (pos P)) P)
             (As n i) w in
  let w := alter (fun P => set_pos (set_y (yoffset + #(Z.of_nat i) * spacing + D_S5P) (pos P)) P)
             (Ps n i) w in
  let st := (w, snd st) in
  let st := jit pos_x_add (Ss n i) st in
  let st := jit pos_y_add (Ss n i) st in
  let st := jit pos_z_add (Ss n i) st in
  let st := jit pos_x_add (As n i) st in
  let st := jit pos_y_add (As n i) st in
  let st := jit pos_z_add (As n i) st in
  let st := jit pos_x_add (Ps n i) st in
  let st := jit pos_y_add (Ps n i) st in
  let st := jit pos_z_add (Ps n i) st in
  let w := fst st in
  (* Velocity *)
  let w := alter (set_vel (mkVec3 #0 #0 #0)) (Ss n i) w in
  let w := alter (set_vel (mkVec3 #0 #0 #0)) (As n i) w in
  let w := alter (set_vel (mkVec3 #0 #0 #0)) (Ps n i) w in
  (* Mass *)
  let w := alter (fun P => mkParticle (pos P) (vel P) (F P) MASS_S) (Ss n i) w in
  let w := alter (fun P => mkParticle (pos P) (vel P) (F P) MASS_A) (As n i) w in
  let w := alter (fun P => mkParticle (pos P) (vel P) (F P) MASS_P) (Ps n i) w in
  (w, snd st).

Fixpoint fillWorld_loop (RAND_MAX : Z) (rand_values : nat -> Z) (n i count : nat)
    (st : World * nat) : World * nat :=
  match count with
  | O => st
  | S count' =>
      fillWorld_loop RAND_MAX rand_values n (S i) count'
        (fillWorld_monomer RAND_MAX rand_values n i st)
  end.

(** [fillWorld]: the world it leaves and the number of calls of [rand()]
    made, from the world and the number of calls before. *)
Definition fillWorld (RAND_MAX : Z) (rand_values : nat -> Z) (cfg : Config)
    (st : World * nat) : World * nat :=
  fillWorld_loop RAND_MAX rand_values (numMonomers cfg) 0 (numMonomers cfg) st.

(** ** calcPotentialEnergies, dumpStats and dumpEnergies *)

Record PotentialEnergies : Type := mkPotentialEnergies {
  pe_bond : D;
  pe_angle : D;
  pe_dihedral : D;
  pe_stack : D
}.

(** [for (int i = lo; i < hi; i++)] around local variables [acc]. *)
Fixpoint for_count_acc {A : Type} (i count : nat) (body : nat -> A -> M A) (acc : A) : M A :=
  match count with
  | O => mret acc
  | S count' => acc' ← body i acc; for_count_acc (S i) count' body acc'
  end.
Definition for_loop_acc {A : Type} (lo hi : nat) (body : nat -> A -> M A) (acc : A) : M A :=
  for_count_acc lo (hi - lo)%nat body acc.

(** The locals [Vb], [Va], [Vd], [Vs] are the four fields of the
    accumulator, in the order bond, angle, dihedral, stack. *)
Definition calcPotentialEnergies : M PotentialEnergies :=
  cfg ← get_config;
  let n := numMonomers cfg in
  v1 ← Vbond (Ss n 0) (As n 0) D_SA;
  v2 ← Vbond (Ss n 0) (Ps n 0) D_S5P;
  a1 ← Vangle (As n 0) (Ss n 0) (Ps n 0) ANGLE_P_5S_A;
  let acc0 := mkPotentialEnergies (#0 + v1 + v2) (#0 + a1) #0 #0 in
  acc ← for_loop_acc 1 n (fun i acc =>
    b1 ← Vbond (Ss n i) (As n i) D_SA;
    b2 ← Vbond (Ss n i) (Ps n i) D_S5P;
    b3 ← Vbond (Ss n i) (Ps n (i - 1)%nat) D_S3P;
    s1 ← Vstack (As n i) (As n (i - 1)%nat);
    t1 ← Vangle (Ps n i) (Ss n i) (As n i) ANGLE_P_5S_A;
    t2 ← Vangle (Ps n i) (Ss n i) (Ps n (i - 1)%nat) ANGLE_P_5S3_P;
    t3 ← Vangle (Ps n (i - 1)%nat) (Ss n i) (As n i) ANGLE_P_3S_A;
    t4 ← Vangle (Ss n (i - 1)%nat) (Ps n (i - 1)%nat) (Ss n i) ANGLE_S5_P_3S;
    d1 ← Vdihedral (Ps n i) (Ss n i) (Ps n (i - 1)%nat) (Ss n (i - 1)%nat) DIHEDRAL_P_5S3_P_5S;
    d2 ← Vdihedral (As n i) (Ss n i) (Ps n (i - 1)%nat) (Ss n (i - 1)%nat) DIHEDRAL_A_S3_P_5S;
    d3 ← Vdihedral (Ss n i) (Ps n (i - 1)%nat) (Ss n (i - 1)%nat) (As n (i - 1)%nat)
           DIHEDRAL_S3_P_5S_A;
    let Vd := pe_dihedral acc + d1 + d2 + d3 in
    Vd ← (if bool_decide (2 <= i)%nat
          then d4 ← Vdihedral (Ss n i) (Ps n (i - 1)%nat) (Ss n (i - 1)%nat) (Ps n (i - 2)%nat)
                      DIHEDRAL_S3_P_5S3_P;
               mret (Vd + d4)
          else mret Vd);
    mret (mkPotentialEnergies (pe_bond acc + b1 + b2 + b3)
            (pe_angle acc + t1 + t2 + t3 + t4) Vd (pe_stack acc + s1))) acc0;
  mret (mkPotentialEnergies (pe_bond acc * ENERGY_FACTOR) (pe_angle acc * ENERGY_FACTOR)
          (pe_dihedral acc * ENERGY_FACTOR) (pe_stack acc * ENERGY_FACTOR)).

(** The seven numbers [dumpEnergies] prints on a stream that is not
    [NULL]: [sim_time E K bond angle dihedral stack]. *)
Record EnergyLine : Type := mkEnergyLine {
  line_time : D;
  line_E : D;
  line_K : D;
  line_bond : D;
  line_angle : D;
  line_dihedral : D;
  line_stack : D
}.

Definition get_sim_time : M D := fun s => Ok (sim_time s) s.

Definition dumpEnergies : M EnergyLine :=
  pe ← calcPotentialEnergies;
  K0 ← kineticEnergy;
  t ← get_sim_time;
  let K := K0 * ENERGY_FACTOR in
  let E := K + pe_bond pe + pe_angle pe + pe_dihedral pe + pe_stack pe in
  mret (mkEnergyLine t E K (pe_bond pe) (pe_angle pe) (pe_dihedral pe) (pe_stack pe)).

(** The seven numbers [dumpStats] prints:
    [E K Vb Va Vd Vs T]. *)
Record StatsLine : Type := mkStatsLine {
  stats_E : D;
  stats_K : D;
  stats_Vb : D;
  stats_Va : D;
  stats_Vd : D;
  stats_Vs : D;
  stats_T : D
}.

Definition dumpStats : M StatsLine :=
  pe ← calcPotentialEnergies;
  K0 ← kineticEnergy;
  T ← temperature;
  let K := K0 * ENERGY_FACTOR in
  let E := K + pe_bond pe + pe_angle pe + pe_dihedral pe + pe_stack pe in
  mret (mkStatsLine E K (pe_bond pe) (pe_angle pe) (pe_dihedral pe) (pe_stack pe) T).

End Placement.

(** * Vocabulary of the statements *)

(** ** For any arithmetic *)

Section Vocabulary.
Context {Dbl : Double}.
Local Open Scope dbl_scope.

(** The world after [for (i = lo; i < lo + count; i++) all[i] = f(all[i])]. *)
Fixpoint alter_range (f : Particle -> Particle) (i count : nat) (w : World) : World :=
  match count with
  | O => w
  | S count' => alter_range f (S i) count' (alter f i w)
  end.

(** A loop body that checks particle [i] and rewrites it: [g] when the check
    passes, [h] (what was written before the check) when it aborts. *)
Definition local_body (body : nat -> M unit) (ok : Particle -> bool)
    (g h : Particle -> Particle) (e : Assertion) : Prop :=
  forall i s, (i < List.length (world s))%nat ->
    body i s =
    if ok (particle (world s) i)
    then Ok tt (set_world (alter g i (world s)) s)
    else Abort e (set_world (alter h i (world s)) s).

(** [preserving R c]: whether [c] returns or aborts, the globals it leaves
    are related by [R] to the ones it started from. *)
Definition preserving (R : State -> State -> Prop) {A} (c : M A) : Prop :=
  forall s,
    match c s with
    | Ok _ s' => R s s'
    | Abort _ s' => R s s'
    end.

(** Everything but the contents of the particles. *)
Definition same_shape (s s' : State) : Prop :=
  config s' = config s /\ List.length (world s') = List.length (world s) /\
  sim_time s' = sim_time s /\ stderr s' = stderr s.

Definition kick (dt : D) (P : Particle) : Particle :=
  set_vel (add (vel P) (scale (F P) (dt / (#2 * m P)))) P.

Definition drift (dt : D) (P : Particle) : Particle :=
  set_pos (add (pos P) (scale (vel P) dt)) P.

Definition vel_not_nan (P : Particle) : bool :=
  negb (disnan (x (vel P))) && negb (disnan (y (vel P))) && negb (disnan (z (vel P))).

(** The value [kineticEnergy] returns, and the value [temperature] returns. *)
Definition kineticEnergy_value (s : State) : D :=
  kineticEnergy_loop (world s) 0 (3 * numMonomers (config s)) #0 / #2.

Definition temperature_value (s : State) : D :=
  #2 / (#3 * BOLTZMANN_CONSTANT) * kineticEnergy_value s
  / (#(Z.of_nat (numMonomers (config s))) * #3).

(** The thermostat's scale factor, as computed from [T_k]. *)
Definition thermostat_lambda (cfg : Config) (Tk : D) : D :=
  dsqrt (#1 + timeStep cfg / thermostatTau cfg * (thermostatTemp cfg / Tk - #1)).

Definition scale_velocity (lambda : D) (P : Particle) : Particle :=
  mkParticle (pos P) (scale (vel P) lambda) (F P) (m P).

(** Velocity and mass of every particle, and everything but the particles. *)
Definition same_vel_mass (s s' : State) : Prop :=
  config s' = config s /\ sim_time s' = sim_time s /\ stderr s' = stderr s /\
  (fun P => (vel P, m P)) <$> world s' = (fun P => (vel P, m P)) <$> world s.

(** The sine that [Fangle] computes from the two bond vectors. *)
Definition Fangle_sintheta (a b : Vec3) : D :=
  let costheta := dot a b / (length a * length b) in
  dsqrt (#1 - costheta * costheta).

(** The value [Vstack] computes from the squared distance [r2], and the
    factor by which [Fstack] multiplies the separation vector, computed
    from the distance [dr]; the powers are formed as in the code. *)
Definition Vstack_value (r2 : D) : D :=
  let sigma6 := stack_sigma6 in
  let sigma12 := sigma6 * sigma6 in
  let r6 := r2 * r2 * r2 in
  let r12 := r6 * r6 in
  BOND_STACK * (sigma12 / r12 - #2 * sigma6 / r6 + #1).

Definition Fstack_factor (dr : D) : D :=
  let sigma6 := stack_sigma6 in
  let sigma12 := sigma6 * sigma6 in
  let dr2 := dr * dr in
  let dr3 := dr * dr * dr in
  let dr6 := dr3 * dr3 in
  let dr8 := dr6 * dr2 in
  let dr12 := dr6 * dr6 in
  let dr14 := dr12 * dr2 in
  #(-12) * BOND_STACK * (sigma12 / dr14 - sigma6 / dr8).

(** What the loop of [kineticEnergy] accumulates, in the order of the loop:
    [twiceK += m * length2(vel)], from [twiceK = 0]. *)
Definition twiceK_accumulated (w : World) : D :=
  foldl (fun twiceK P => twiceK + m P * length2 (vel P)) #0 w.

(** What the loop of [momentum] accumulates, in the order of the loop:
    [Ptot = vel * m + Ptot], from [Ptot = (0, 0, 0)]. *)
Definition Ptot_accumulated (w : World) : Vec3 :=
  foldl (fun Ptot P => add (scale (vel P) (m P)) Ptot) zero_vec w.

(** The first two steps of the integrator in the order of operations of the
    specification, [v(t+dt/2) = v(t) + F(t)/m * dt/2] and then
    [x(t+dt) = x(t) + v(t+dt/2) * dt], to be compared with [kick] and
    [drift]. *)
Definition specified_half_velocity (dt : D) (P : Particle) : Vec3 :=
  mkVec3 (x (vel P) + x (F P) / m P * dt / #2)
         (y (vel P) + y (F P) / m P * dt / #2)
         (z (vel P) + z (F P) / m P * dt / #2).

Definition specified_position (dt : D) (P : Particle) : Vec3 :=
  let v := specified_half_velocity dt P in
  mkVec3 (x (pos P) + x v * dt) (y (pos P) + y v * dt) (z (pos P) + z v * dt).

End Vocabulary.

(** ** Exact arithmetic *)

Section RealVocabulary.
Context {VM : Vmath RealDouble}.
Local Open Scope R_scope.

(** The sum of [f] over all particles of the block. *)
Definition sum_over (f : @Particle RealDouble -> R) (w : World) : R :=
  foldr (fun P acc => f P + acc) 0 w.

(** Total kinetic energy [K = Sum (1/2) m |v|^2]. *)
Definition kinetic_energy (w : World) : R :=
  sum_over (fun P => 1 / 2 * m P *
                     (x (vel P) * x (vel P) + y (vel P) * y (vel P) + z (vel P) * z (vel P))) w.

(** Total momentum [P = Sum m v]. *)
Definition total_momentum (w : World) : Vec3 :=
  mkVec3 (sum_over (fun P => m P * x (vel P)) w)
         (sum_over (fun P => m P * y (vel P)) w)
         (sum_over (fun P => m P * z (vel P)) w).

(** A one-monomer world at rest, in exact arithmetic, used to instantiate
    the statements that assume an allocated world. *)
Definition unit_particle_R (a b c : R) : @Particle RealDouble :=
  mkParticle (mkVec3 a b c) (mkVec3 1%R 0%R 0%R) (mkVec3 0%R 0%R 0%R) 1%R.

Definition demo_config_R : @Config RealDouble := mkConfig 1 1%R 1%R 300%R.

Definition demo_state_R : @State RealDouble :=
  mkState demo_config_R
    [unit_particle_R 0 0 0; unit_particle_R 1 0 0; unit_particle_R 0 1 0]%R 0%R [].

Definition eps_R : R := 1.81e-21.

Definition sigma_R : R := 3.414e-10.

(** The stacking potential as a function of the distance. *)
Definition stack_potential (r : R) : R :=
  eps_R * (sigma_R ^ 12 / r ^ 12 - 2 * sigma_R ^ 6 / r ^ 6 + 1).

(** The factor that multiplies the separation vector in [Fstack]. *)
Definition stack_force_factor (r : R) : R :=
  -12 * eps_R * (sigma_R ^ 12 / r ^ 14 - sigma_R ^ 6 / r ^ 8).

(** The globals a run ends with, returned or aborted. *)
Definition final_state {A} (r : @Result RealDouble A) : State :=
  match r with
  | Ok _ s => s
  | Abort _ s => s
  end.

(** Adding a vector to, or subtracting it from, a force accumulator. *)
Definition addF (v : Vec3) (P : @Particle RealDouble) : Particle := set_F (add (F P) v) P.

Definition subF (v : Vec3) (P : @Particle RealDouble) : Particle := set_F (sub (F P) v) P.

(** The sum of the force accumulators. *)
Definition total_force (w : World) : Vec3 :=
  mkVec3 (sum_over (fun P => x (F P)) w)
         (sum_over (fun P => y (F P)) w)
         (sum_over (fun P => z (F P)) w).

(** [Vdihedral] only reads the positions. *)
Definition Vdihedral_value (w : World) (p1 p2 p3 p4 : ptr) (phi0 : R) : R :=
  let r1 := sub (pos (particle w p2)) (pos (particle w p1)) in
  let r2 := sub (pos (particle w p3)) (pos (particle w p2)) in
  let r3 := sub (pos (particle w p4)) (pos (particle w p3)) in
  BOND_Kphi * (1 - dcos (dihedral r1 r2 r3 - phi0)).

(** The vector [FdihedralParticle] adds to the force on [target]: per axis,
    the one-sided difference quotient [(Vorig - V(pos + h e)) / h] with
    [h = coordinate * 1e-8]. *)
Definition finite_difference_force (w : World) (target p1 p2 p3 p4 : ptr)
    (Vorig phi0 : R) : Vec3 :=
  let T := particle w target in
  let hx := x (pos T) * 1e-8 in
  let hy := y (pos T) * 1e-8 in
  let hz := z (pos T) * 1e-8 in
  mkVec3
    ((Vorig - Vdihedral_value (alter (pos_x_add hx) target w) p1 p2 p3 p4 phi0) / hx)
    ((Vorig - Vdihedral_value (alter (pos_y_add hy) target w) p1 p2 p3 p4 phi0) / hy)
    ((Vorig - Vdihedral_value (alter (pos_z_add hz) target w) p1 p2 p3 p4 phi0) / hz).

(** Position, velocity and mass of a particle. *)
Definition kinematics (P : @Particle RealDouble) : Vec3 * Vec3 * R := (pos P, vel P, m P).

Definition same_kinematics (s s' : @State RealDouble) : Prop :=
  config s' = config s /\ sim_time s' = sim_time s /\ stderr s' = stderr s /\
  kinematics <$> world s' = kinematics <$> world s.

(** A torsion coordinate that depends on the bond vectors only (here the x
    component of the first one), so that the potential is invariant under
    translation, as with the dihedral angle. *)
Definition separation_vmath : Vmath RealDouble :=
  {| angle := fun _ _ => 0; dihedral := fun r1 _ _ => x r1 |}.

Definition rest_R (a b c : R) : @Particle RealDouble :=
  mkParticle (mkVec3 a b c) (mkVec3 0 0 0) (mkVec3 0 0 0) 1.

(** Four particles at rest at [x = 1, 2, 3, 4], [y = z = 1], no force. *)
Definition quad_state_R : @State RealDouble :=
  mkState (mkConfig 2 1 0 300)
    [rest_R 1 1 1; rest_R 2 1 1; rest_R 3 1 1; rest_R 4 1 1] 0 [].

(** One monomer whose sugar and base have the same mass and opposite
    velocities: the total momentum is zero, the temperature is not. *)
Definition balanced_state_R : @State RealDouble :=
  mkState demo_config_R
    [mkParticle (mkVec3 0 0 0) (mkVec3 1 0 0) (mkVec3 0 0 0) 1;
     mkParticle (mkVec3 1 0 0) (mkVec3 (-1) 0 0) (mkVec3 0 0 0) 1;
     mkParticle (mkVec3 0 1 0) (mkVec3 0 0 0) (mkVec3 0 0 0) 1] 0 [].

End RealVocabulary.

(** ** IEEE-754 binary64 *)

Section FloatVocabulary.
#[local] Existing Instance FloatDouble.
Local Open Scope float_scope.

Definition fvec (a b c : float) : @Vec3 FloatDouble := mkVec3 a b c.

(** A particle at rest with no force on it. *)
Definition at_rest (a b c mass : float) : @Particle FloatDouble :=
  mkParticle (fvec a b c) (fvec 0 0 0) (fvec 0 0 0) mass.

(** One monomer at rest (sugar, base, phosphate), thermostat enabled. *)
Definition frozen_state : @State FloatDouble :=
  mkState (mkConfig 1 1e-15 1e-12 300)
    [at_rest 0 0 0 1.38e-25; at_rest 6.43e-10 0 0 2.2e-25; at_rest 0 3.9e-10 0 1.58e-25]
    0 [].

(** The same monomer with every velocity component NaN. *)
Definition nan_velocity (P : @Particle FloatDouble) : @Particle FloatDouble :=
  mkParticle (pos P) (fvec nan nan nan) (F P) (m P).

Definition frozen_state_after : @State FloatDouble :=
  set_world (nan_velocity <$> world frozen_state) frozen_state.

(** One monomer whose sugar has a large velocity and a large force on it:
    all fields are finite. *)
Definition overflow_state : @State FloatDouble :=
  mkState (mkConfig 1 1 0 300)
    [mkParticle (fvec 0 0 0) (fvec 1.7e308 0 0) (fvec 1.7e308 0 0) 0.5;
     at_rest 1 0 0 1; at_rest 0 1 0 1]
    0 [].

Definition overflow_state_after : @State FloatDouble :=
  mkState (mkConfig 1 1 0 300)
    [mkParticle (fvec infinity 0 0) (fvec infinity 0 0) (fvec 1.7e308 0 0) 0.5;
     at_rest 1 0 0 1; at_rest 0 1 0 1]
    0 [].

(** Three particles on one line through the origin: the bond vectors from
    particle 1 to particles 0 and 2 are [(1,1,1)] and [(2,2,2)]. *)
Definition colinear_state : @State FloatDouble :=
  mkState (mkConfig 1 1e-15 0 300)
    [at_rest 1 1 1 1; at_rest 0 0 0 1; at_rest 2 2 2 1] 0 [].

Definition nan_force (P : @Particle FloatDouble) : @Particle FloatDouble :=
  mkParticle (pos P) (vel P) (fvec nan nan nan) (m P).

(** Two monomers on the x axis; [world.all] is
    [Ss[0]; Ss[1]; As[0]; As[1]; Ps[0]; Ps[1]]. *)
Definition line_state : @State FloatDouble :=
  mkState (mkConfig 2 1e-15 0 300)
    [at_rest 1 0 0 1; at_rest 4 0 0 1; at_rest 2 0 0 1;
     at_rest 5 0 0 1; at_rest 3 0 0 1; at_rest 6 0 0 1] 0 [].


(** The same colinear triplet at the scale of the simulation: bond vectors
    [(d,d,d)] and [(2d,2d,2d)] with [d = 2^-31] metres (4.66 angstrom). *)
Definition angstrom_colinear_state : @State FloatDouble :=
  mkState (mkConfig 1 1e-15 0 300)
    [at_rest 4.656612873077392578125e-10 4.656612873077392578125e-10
             4.656612873077392578125e-10 1.58e-25;
     at_rest 0 0 0 1.38e-25;
     at_rest 9.31322574615478515625e-10 9.31322574615478515625e-10
             9.31322574615478515625e-10 2.2e-25] 0 [].

(** Four particles in general position at the scale of the simulation; the
    second has [pos.x = 2^-31] metres. *)
Definition angstrom_quad_state : @State FloatDouble :=
  mkState (mkConfig 2 1e-15 0 300)
    [at_rest (-3.2e-10) 1.12e-9 1e-12 1.58e-25;
     at_rest 4.656612873077392578125e-10 7.4e-10 (-2e-12) 1.38e-25;
     at_rest (-3.1e-10) 3.9e-10 3e-12 1.58e-25;
     at_rest (-3.3e-10) 1e-12 1e-12 1.38e-25] 0 [].

(** One monomer on the x axis, at rest, with a force on the sugar (mass 3);
    [config.timeStep = 1]. *)
Definition kicked_state : @State FloatDouble :=
  mkState (mkConfig 1 1 0 300)
    [mkParticle (fvec 0 0 0) (fvec 0 0 0) (fvec 7 0 0) 3; at_rest 2 0 0 1; at_rest 4 0 0 1]
    0 [].

(** The same world after the first loop of [verlet]. *)
Definition kicked_state_drifted : @State FloatDouble :=
  mkState (mkConfig 1 1 0 300)
    [mkParticle (fvec 1.1666666666666665 0 0) (fvec 1.1666666666666665 0 0) (fvec 7 0 0) 3;
     at_rest 2 0 0 1; at_rest 4 0 0 1]
    0 [].

(** Two particles at a distance just below [STACK_SIGMA = 3.414e-10]. *)
Definition near_sigma_state : @State FloatDouble :=
  mkState (mkConfig 1 1e-15 0 300)
    [at_rest 0 0 0 1; at_rest 3.4139999999989663e-10 0 0 1] 0 [].

(** Two particles [1e-24] apart. *)
Definition close_state : @State FloatDouble :=
  mkState (mkConfig 1 1e-15 0 300)
    [at_rest 0 0 0 1; at_rest 1e-24 0 0 1] 0 [].

(** One monomer of three unit masses with velocities [1e16], [1] and
    [-1e16] along x. *)
Definition cancelling_state : @State FloatDouble :=
  mkState (mkConfig 1 1e-15 0 300)
    [mkParticle (fvec 0 0 0) (fvec 1e16 0 0) (fvec 0 0 0) 1;
     mkParticle (fvec 1 0 0) (fvec 1 0 0) (fvec 0 0 0) 1;
     mkParticle (fvec 0 1 0) (fvec (-1e16) 0 0) (fvec 0 0 0) 1] 0 [].

(** A world of no monomers. *)
Definition empty_state : @State FloatDouble :=
  mkState (mkConfig 0 1e-15 0 300) [] 0 [].

End FloatVocabulary.

(** ** Frames of a step, for any arithmetic *)

Section StepVocabulary.
Context {Dbl : Double}.
Local Open Scope dbl_scope.

(** Configuration, clock, error channel and the mass of every particle. *)
Definition same_masses (s s' : State) : Prop :=
  config s' = config s /\ sim_time s' = sim_time s /\ stderr s' = stderr s /\
  m <$> world s' = m <$> world s.

(** What the first loop of [calculateForces] leaves of a particle: the
    three components of the force are zeroed one after the other. *)
Definition reset_force (P : Particle) : Particle :=
  let P1 := set_F (set_x #0 (F P)) P in
  let P2 := set_F (set_y #0 (F P1)) P1 in
  set_F (set_z #0 (F P2)) P2.

Definition position_velocity_mass (P : Particle) : Vec3 * Vec3 * D := (pos P, vel P, m P).

End StepVocabulary.

(** The one-monomer world of [demo_state_R] with a force already stored in
    every accumulator. *)
Definition pushed_particle_R (a b c : R) : @Particle RealDouble :=
  mkParticle (mkVec3 a b c) (mkVec3 1%R 0%R 0%R) (mkVec3 5%R 6%R 7%R) 1%R.

Definition pushed_state_R : @State RealDouble :=
  mkState demo_config_R
    [pushed_particle_R 0 0 0; pushed_particle_R 1 0 0; pushed_particle_R 0 1 0]%R 0%R [].

(** ** The bond term, exact arithmetic *)

Section BondVocabulary.
Local Open Scope R_scope.

(** The bond potential as a function of the distance [r] of the two
    particles, for the equilibrium distance [d0]. *)
Definition bond_potential (d0 r : R) : R :=
  BOND_K1 * (r - d0) ^ 2 + BOND_K2 * (r - d0) ^ 4.

(** Its derivative with respect to [r]. *)
Definition bond_potential' (d0 r : R) : R :=
  2 * BOND_K1 * (r - d0) + 4 * BOND_K2 * (r - d0) ^ 3.

End BondVocabulary.

(** ** IEEE-754 binary64: zeros, infinities and NaN *)

Section SpecialValues.
#[local] Existing Instance FloatDouble.
Local Open Scope float_scope.

(** A float that is a zero of either sign, or NaN. *)
Definition zero_or_nan (u : float) : Prop :=
  match Prim2SF u with
  | S754_zero _ | S754_nan => True
  | _ => False
  end.

(** A float that is an infinity of either sign, or NaN. *)
Definition infinite_or_nan (u : float) : Prop :=
  match Prim2SF u with
  | S754_infinity _ | S754_nan => True
  | _ => False
  end.

Definition has_nan (v : @Vec3 FloatDouble) : Prop := x v = nan \/ y v = nan \/ z v = nan.

(** Three particles at rest at a right angle: [Ss[0]] at the corner. *)
Definition right_angle_state : @State FloatDouble :=
  mkState (mkConfig 1 1e-15 0 300)
    [at_rest 1 0 0 1; at_rest 0 0 0 1; at_rest 0 1 0 1] 0 [].

(** A libm whose [acos] and [cos] return [c]. *)
Definition constant_libm (c : float) : Libm FloatDouble :=
  {| dacos := fun _ => c; dcos := fun _ => c |}.

(** One monomer whose sugar has a NaN in its velocity. *)
Definition nan_velocity_state : @State FloatDouble :=
  mkState (mkConfig 1 1e-15 0 300)
    [mkParticle (fvec 0 0 0) (fvec 0 nan 0) (fvec 0 0 0) 1; at_rest 1 0 0 1; at_rest 0 1 0 1]
    0 [].

(** Three particles, the first two at the same place. *)
Definition coincident_state : @State FloatDouble :=
  mkState (mkConfig 1 1e-15 0 300)
    [at_rest 1 2 3 1; at_rest 1 2 3 1; at_rest 0 1 0 1] 0 [].
(** A [log] that returns minus infinity at [0], as C's does, and [c]
    elsewhere. *)
Definition pole_log (c : float) : LibmLog FloatDouble :=
  Build_LibmLog FloatDouble (fun u : float => if PrimFloat.eqb u 0 then neg_infinity else c).

(** A block of three zeroed particles, in binary64. *)
Definition calloc_block_float : list (@Particle FloatDouble) :=
  @calloc_block FloatDouble 1.

End SpecialValues.

(** ** The lattice of fillWorld *)

Section LatticeVocabulary.
Context {Dbl : Double} {LM : Libm Dbl} {LL : LibmLog Dbl} {ML : MoreLiterals Dbl}.
Local Open Scope dbl_scope.

(** The lattice of [fillWorld]: the sites of the sugar, the base and the
    phosphate of monomer [i], out of [n]. *)
Definition site_S (n i : nat) : Vec3 :=
  mkVec3 (- D_SA / #2)
         (#(- Z.of_nat n) * (D_S5P + D_S3P) / #2 + #(Z.of_nat i) * (D_S5P + D_S3P))
         #0.
Definition site_A (n i : nat) : Vec3 :=
  mkVec3 (- D_SA / #2 + D_SA)
         (#(- Z.of_nat n) * (D_S5P + D_S3P) / #2 + #(Z.of_nat i) * (D_S5P + D_S3P))
         #0.
Definition site_P (n i : nat) : Vec3 :=
  mkVec3 (- D_SA / #2)
         (#(- Z.of_nat n) * (D_S5P + D_S3P) / #2 + #(Z.of_nat i) * (D_S5P + D_S3P) + D_S5P)
         #0.

(** A site moved by [posStdev] times three successive results of
    [randNorm], the first of which starts at call [k] of [rand()]. *)
Definition jittered (RAND_MAX : Z) (rand_values : nat -> Z) (site : Vec3) (k : nat) : Vec3 :=
  let posStdev := (D_S5P + D_S3P) / #100 in
  mkVec3 (x site + posStdev * fst (randNorm RAND_MAX rand_values k))
         (y site + posStdev * fst (randNorm RAND_MAX rand_values (2 + k)))
         (z site + posStdev * fst (randNorm RAND_MAX rand_values (4 + k))).
End LatticeVocabulary.

(** [log] in exact arithmetic. *)
#[export] Instance RealLibmLog : LibmLog RealDouble := {| dlog := ln |}.

(** The state of a program that has set [config.numMonomers = 1] and called
    [allocWorld]. *)
Definition allocated_state_R : @State RealDouble :=
  mkState demo_config_R (calloc_block 1) 0%R [].

(** ** Allocation and reporting *)

(** The memory of a program that has not called [allocWorld] yet. *)
Definition fresh_memory : Memory := mkMemory None 0 0 0 [].

Section ReadsOnly.
Context {Dbl : Double}.

(** [reads_only c]: [c] returns, and leaves the globals as they were. *)
Definition reads_only {A} (c : M A) : Prop := forall s, exists a, c s = Ok a s.

End ReadsOnly.

(** ** Reading the energies, exact arithmetic *)

(** [yields s I c]: from the globals [s], [c] returns a value that
    satisfies [I] and leaves the globals as they were. *)
Definition yields (s : @State RealDouble) {A} (I : A -> Prop) (c : M A) : Prop :=
  exists a, c s = Ok a s /\ I a.

Definition nonnegative_energies (pe : @PotentialEnergies RealDouble) : Prop :=
  (0 <= pe_bond pe /\ 0 <= pe_angle pe /\ 0 <= pe_dihedral pe /\ 0 <= pe_stack pe)%R.

(** Three particles at rest on a line, the middle one at the origin, in
    exact arithmetic. *)
Definition colinear_state_R : @State RealDouble :=
  mkState demo_config_R [rest_R 1 1 1; rest_R 0 0 0; rest_R 2 2 2]%R 0%R [].

(** ** IEEE-754 binary64: a world at rest *)

Section RestVocabulary.
#[local] Existing Instance FloatDouble.
Local Open Scope float_scope.

(** A float that is a zero of either sign. *)
Definition float_zero (u : float) : Prop :=
  match Prim2SF u with
  | S754_zero _ => True
  | _ => False
  end.

(** A particle whose velocity components are zeros. *)
Definition velocity_zero (P : @Particle FloatDouble) : Prop :=
  float_zero (x (vel P)) /\ float_zero (y (vel P)) /\ float_zero (z (vel P)).

End RestVocabulary.

(** * Properties *)

(** ** Loops over the particle block *)

Section Loops.
Context {Dbl : Double}.

Lemma lookup_alter_range f count : forall i w j,
  alter_range f i count w !! j =
  if bool_decide (i <= j < i + count)%nat then f <$> w !! j else w !! j.
Proof.
  induction count as [|c IH]; intros i w j; simpl.
  - rewrite bool_decide_eq_false_2; [done | lia].
  - rewrite IH. rewrite list_lookup_alter.
    destruct (decide (i = j)) as [->|Hne].
    + rewrite bool_decide_eq_false_2 by lia.
      rewrite bool_decide_eq_true_2 by lia. done.
    + destruct (decide (S i <= j < S i + c)%nat).
      * rewrite !bool_decide_eq_true_2 by lia. done.
      * rewrite !bool_decide_eq_false_2 by lia. done.
Qed.

Lemma alter_range_all f (w : World) :
  alter_range f 0 (List.length w) w = f <$> w.
Proof.
  apply list_eq; intros j.
  rewrite lookup_alter_range, list_lookup_fmap.
  destruct (decide (j < List.length w)%nat).
  - rewrite bool_decide_eq_true_2 by lia. done.
  - rewrite bool_decide_eq_false_2 by lia.
    rewrite lookup_ge_None_2 by lia. done.
Qed.

Lemma length_alter_range f count : forall i w,
  List.length (alter_range f i count w) = List.length w.
Proof.
  induction count as [|c IH]; intros i w; simpl; [done|].
  rewrite IH. apply length_alter.
Qed.

Lemma particle_alter_eq f (w : World) i :
  (i < List.length w)%nat -> particle (alter f i w) i = f (particle w i).
Proof.
  intros Hi. unfold particle. rewrite list_lookup_alter_eq.
  destruct (lookup_lt_is_Some_2 w i Hi) as [P ->]. done.
Qed.

Lemma particle_alter_ne f (w : World) i j :
  i <> j -> particle (alter f i w) j = particle w j.
Proof. intros Hne. unfold particle. by rewrite list_lookup_alter_ne. Qed.

Lemma set_world_set_world (w1 w2 : World) s :
  set_world w2 (set_world w1 s) = set_world w2 s.
Proof. done. Qed.

Lemma set_world_same s : set_world (world s) s = s.
Proof. by destruct s. Qed.

Lemma for_count_local_ok body ok g h e :
  local_body body ok g h e ->
  forall count i s,
    (i + count <= List.length (world s))%nat ->
    (forall j, (i <= j < i + count)%nat -> ok (particle (world s) j) = true) ->
    for_count i count body s = Ok tt (set_world (alter_range g i count (world s)) s).
Proof.
  intros Hb. induction count as [|c IH]; intros i s Hlen Hok; simpl.
  - by rewrite set_world_same.
  - unfold mbind, M_bind. rewrite Hb by lia. rewrite Hok by lia.
    rewrite IH; simpl.
    + done.
    + rewrite length_alter. lia.
    + intros j Hj. rewrite particle_alter_ne by lia. apply Hok. lia.
Qed.

Lemma for_count_local_abort body ok g h e :
  local_body body ok g h e ->
  forall count i s j,
    (i + count <= List.length (world s))%nat ->
    (i <= j < i + count)%nat ->
    ok (particle (world s) j) = false ->
    exists s', for_count i count body s = Abort e s'.
Proof.
  intros Hb. induction count as [|c IH]; intros i s j Hlen Hj Hbad; simpl.
  - lia.
  - unfold mbind, M_bind. rewrite Hb by lia.
    destruct (ok (particle (world s) i)) eqn:Hi; [|eauto].
    destruct (decide (i = j)) as [->|Hne]; [congruence|].
    apply (IH (S i) _ j); simpl.
    + rewrite length_alter. lia.
    + lia.
    + rewrite particle_alter_ne by lia. done.
Qed.

End Loops.

(** ** Thermostat and diagnostics, for any arithmetic *)

Section Generic.
Context {Dbl : Double}.
Local Open Scope dbl_scope.

Lemma modify_local (f : Particle -> Particle) e :
  local_body (fun i => modify i f) (fun _ => true) f f e.
Proof. intros i s Hi. done. Qed.

Lemma for_loop_modify_all (f : Particle -> Particle) (n : nat) s :
  List.length (world s) = n ->
  for_loop 0 n (fun i => modify i f) s = Ok tt (set_world (f <$> world s) s).
Proof.
  intros Hn. unfold for_loop. rewrite Nat.sub_0_r.
  rewrite (for_count_local_ok _ _ _ _ VelNotNan (modify_local f VelNotNan)).
  - subst n. by rewrite alter_range_all.
  - lia.
  - done.
Qed.

Lemma kineticEnergy_run s : kineticEnergy s = Ok (kineticEnergy_value s) s.
Proof. done. Qed.

Lemma temperature_run s : temperature s = Ok (temperature_value s) s.
Proof. done. Qed.

Lemma kineticEnergy_loop_foldl (w : World) : forall count i acc,
  (i + count = List.length w)%nat ->
  kineticEnergy_loop w i count acc =
  foldl (fun twiceK P => twiceK + m P * length2 (vel P)) acc (drop i w).
Proof.
  induction count as [|c IH]; intros i acc Hlen; simpl.
  - by rewrite drop_ge by lia.
  - rewrite IH by lia.
    destruct (lookup_lt_is_Some_2 w i ltac:(lia)) as [P HP].
    rewrite (drop_S _ _ _ HP). simpl. unfold particle. by rewrite HP.
Qed.

Lemma momentum_loop_foldl (w : World) : forall count i acc,
  (i + count = List.length w)%nat ->
  momentum_loop w i count acc =
  foldl (fun Ptot P => add (scale (vel P) (m P)) Ptot) acc (drop i w).
Proof.
  induction count as [|c IH]; intros i acc Hlen; simpl.
  - by rewrite drop_ge by lia.
  - rewrite IH by lia.
    destruct (lookup_lt_is_Some_2 w i ltac:(lia)) as [P HP].
    rewrite (drop_S _ _ _ HP). simpl. unfold particle. by rewrite HP.
Qed.

(** On an allocated world the two accumulation loops run over the whole
    block, first particle first. *)
Lemma kineticEnergy_accumulated s :
  List.length (world s) = (3 * numMonomers (config s))%nat ->
  kineticEnergy s = Ok (twiceK_accumulated (world s) / #2) s.
Proof.
  intros Hlen. rewrite kineticEnergy_run. f_equal. unfold kineticEnergy_value.
  rewrite kineticEnergy_loop_foldl by lia. by rewrite drop_0.
Qed.

Lemma momentum_accumulated s :
  List.length (world s) = (3 * numMonomers (config s))%nat ->
  momentum s = Ok (Ptot_accumulated (world s)) s.
Proof.
  intros Hlen. unfold momentum, mbind, M_bind, get_config, get_world, mret, M_ret.
  rewrite momentum_loop_foldl by lia. by rewrite drop_0.
Qed.

Lemma thermostat_run s :
  List.length (world s) = (3 * numMonomers (config s))%nat ->
  thermostat s =
  Ok tt (if thermostatTau (config s) <=? #0 then s
         else set_world
                (scale_velocity (thermostat_lambda (config s) (temperature_value s))
                 <$> world s) s).
Proof.
  intros Hlen. unfold thermostat, mbind, M_bind, get_config.
  destruct (thermostatTau (config s) <=? #0); [done|].
  rewrite temperature_run.
  rewrite for_loop_modify_all by lia. done.
Qed.

End Generic.

(** C5. The thermostat does nothing when [config.thermostatTau <= 0];
    otherwise it reads the temperature [T_k] and multiplies the velocity of
    every particle by the one factor
    [lambda = sqrt(1 + (dt/tau) * (T0/T_k - 1))], leaving positions, forces,
    masses, the configuration, the clock and the error channel as they
    were.  This holds for both arithmetics. *)
Theorem thermostat_rescales_velocities {Dbl : Double} (s : State) :
  List.length (world s) = (3 * numMonomers (config s))%nat ->
  exists Tk : D,
    temperature s = Ok Tk s /\
    let T0 := thermostatTemp (config s) in
    let dt := timeStep (config s) in
    let tau := thermostatTau (config s) in
    let lambda := dsqrt (#1 + dt / tau * (T0 / Tk - #1))%dbl in
    thermostat s =
    Ok tt (if (tau <=? #0)%dbl then s
           else set_world
                  ((fun P => mkParticle (pos P) (scale (vel P) lambda) (F P) (m P))
                   <$> world s) s).
Proof.
  intros Hlen. exists (temperature_value s). split.
  - apply temperature_run.
  - apply (thermostat_run s Hlen).
Qed.

Lemma thermostat_rescales_velocities_witness :
  exists Tk : R,
    temperature demo_state_R = Ok Tk demo_state_R /\
    thermostat demo_state_R =
    Ok tt (if Rleb 1 0 then demo_state_R
           else set_world
                  ((fun P => mkParticle (pos P)
                      (scale (vel P) (R_sqrt.sqrt (1 + 1 / 1 * (300 / Tk - 1))))
                      (F P) (m P))
                   <$> world demo_state_R) demo_state_R)%R.
Proof.
  apply (thermostat_rescales_velocities demo_state_R). reflexivity.
Defined.

(** ** Frame conditions *)

Section Frames.
Context {Dbl : Double} {LM : Libm Dbl} {VM : Vmath Dbl}.
Local Open Scope dbl_scope.

Section Preserving.
Variable R : State -> State -> Prop.
Hypothesis R_refl : forall s, R s s.
Hypothesis R_trans : forall s1 s2 s3, R s1 s2 -> R s2 s3 -> R s1 s3.

Lemma preserving_ret {A} (a : A) : preserving R (mret a).
Proof. intros s. apply R_refl. Qed.

Lemma preserving_bind {A B} (c : M A) (f : A -> M B) :
  preserving R c -> (forall a, preserving R (f a)) -> preserving R (c ≫= f).
Proof.
  intros Hc Hf s. unfold mbind, M_bind. specialize (Hc s).
  destruct (c s) as [a s1|e s1]; [|done].
  specialize (Hf a s1). destruct (f a s1); eauto.
Qed.

Lemma preserving_load p : preserving R (load p).
Proof. intros s. apply R_refl. Qed.

Lemma preserving_get_config : preserving R get_config.
Proof. intros s. apply R_refl. Qed.

Lemma preserving_assert e b : preserving R (assert e b).
Proof. intros s. unfold assert. destruct b; apply R_refl. Qed.

Lemma preserving_for_count body :
  (forall i, preserving R (body i)) ->
  forall count i, preserving R (for_count i count body).
Proof.
  intros Hb. induction count as [|c IH]; intros i; simpl.
  - apply preserving_ret.
  - apply preserving_bind; [apply Hb | intros _; apply IH].
Qed.

Lemma preserving_for_loop body lo hi :
  (forall i, preserving R (body i)) -> preserving R (for_loop lo hi body).
Proof. intros Hb. by apply preserving_for_count. Qed.

End Preserving.

Lemma same_shape_refl s : same_shape s s.
Proof. done. Qed.

Lemma same_shape_trans s1 s2 s3 :
  same_shape s1 s2 -> same_shape s2 s3 -> same_shape s1 s3.
Proof. unfold same_shape. intros (?&?&?&?) (?&?&?&?). repeat split; congruence. Qed.

Lemma shape_modify p f : preserving same_shape (modify p f).
Proof. intros s. unfold same_shape; simpl. by rewrite length_alter. Qed.

Lemma shape_bind {A B} (c : M A) (f : A -> M B) :
  preserving same_shape c -> (forall a, preserving same_shape (f a)) ->
  preserving same_shape (c ≫= f).
Proof. apply preserving_bind, same_shape_trans. Qed.

Lemma shape_for_loop body lo hi :
  (forall i, preserving same_shape (body i)) -> preserving same_shape (for_loop lo hi body).
Proof. apply preserving_for_loop; [apply same_shape_refl | apply same_shape_trans]. Qed.

Ltac shape_step :=
  lazymatch goal with
  | |- preserving _ (mbind _ _) => apply shape_bind; [|intros ?]
  | |- preserving _ (mret _) => apply (preserving_ret _ same_shape_refl)
  | |- preserving _ (load _) => apply (preserving_load _ same_shape_refl)
  | |- preserving _ get_config => apply (preserving_get_config _ same_shape_refl)
  | |- preserving _ (assert _ _) => apply (preserving_assert _ same_shape_refl)
  | |- preserving _ (for_loop _ _ _) => apply shape_for_loop; intros ?
  | |- preserving _ (modify _ _) => apply shape_modify
  | |- preserving _ (if ?b then _ else _) => destruct b
  | |- preserving _ (let _ := _ in _) => cbv zeta
  end.

Lemma shape_Fbond p1 p2 d0 : preserving same_shape (Fbond p1 p2 d0).
Proof. unfold Fbond, add_F, sub_F. repeat shape_step. Qed.

Lemma shape_Fstack p1 p2 : preserving same_shape (Fstack p1 p2).
Proof. unfold Fstack, add_F, sub_F. repeat shape_step. Qed.

Lemma shape_Fangle p1 p2 p3 theta0 : preserving same_shape (Fangle p1 p2 p3 theta0).
Proof. unfold Fangle, add_F, sub_F. repeat shape_step. Qed.

Lemma shape_Vdihedral {A} p1 p2 p3 p4 phi0 (k : D -> M A) :
  (forall V, preserving same_shape (k V)) ->
  preserving same_shape (Vdihedral p1 p2 p3 p4 phi0 ≫= k).
Proof. intros Hk. unfold Vdihedral. repeat shape_step. apply Hk. Qed.

Lemma shape_FdihedralParticle t p1 p2 p3 p4 V phi0 :
  preserving same_shape (FdihedralParticle t p1 p2 p3 p4 V phi0).
Proof.
  unfold FdihedralParticle, add_F.
  repeat lazymatch goal with
         | |- preserving _ (mbind _ (Vdihedral _ _ _ _ _)) =>
             apply shape_Vdihedral; intros ?
         | |- _ => shape_step
         end.
Qed.

Ltac shape_force :=
  lazymatch goal with
  | |- preserving _ (Fbond _ _ _) => apply shape_Fbond
  | |- preserving _ (Fstack _ _) => apply shape_Fstack
  | |- preserving _ (Fangle _ _ _ _) => apply shape_Fangle
  | |- preserving _ (FdihedralParticle _ _ _ _ _ _ _) => apply shape_FdihedralParticle
  | |- _ => shape_step
  end.

Lemma shape_Fdihedral p1 p2 p3 p4 phi0 : preserving same_shape (Fdihedral p1 p2 p3 p4 phi0).
Proof.
  unfold Fdihedral. apply shape_Vdihedral; intros Vorig. repeat shape_force.
Qed.

Lemma shape_calculateForces : preserving same_shape calculateForces.
Proof.
  unfold calculateForces.
  repeat lazymatch goal with
         | |- preserving _ (Fdihedral _ _ _ _ _) => apply shape_Fdihedral
         | |- _ => shape_force
         end.
Qed.

(** The force pass never writes a velocity or a mass, in either
    arithmetic. *)
Lemma same_vel_mass_refl s : same_vel_mass s s.
Proof. done. Qed.

Lemma same_vel_mass_trans s1 s2 s3 :
  same_vel_mass s1 s2 -> same_vel_mass s2 s3 -> same_vel_mass s1 s3.
Proof. unfold same_vel_mass. intros (?&?&?&?) (?&?&?&?). repeat split; congruence. Qed.

Lemma vm_modify p (f : Particle -> Particle) :
  (forall P, vel (f P) = vel P /\ m (f P) = m P) ->
  preserving same_vel_mass (modify p f).
Proof.
  intros Hf s. unfold same_vel_mass; simpl. repeat split.
  apply list_eq. intros i. rewrite !list_lookup_fmap, list_lookup_alter.
  destruct (decide (p = i)) as [->|]; [|done].
  destruct (world s !! i) as [P|]; simpl; [|done].
  destruct (Hf P) as [-> ->]. done.
Qed.

Lemma vm_bind {A B} (c : M A) (f : A -> M B) :
  preserving same_vel_mass c -> (forall a, preserving same_vel_mass (f a)) ->
  preserving same_vel_mass (c ≫= f).
Proof. apply preserving_bind, same_vel_mass_trans. Qed.

Lemma vm_for_loop body lo hi :
  (forall i, preserving same_vel_mass (body i)) ->
  preserving same_vel_mass (for_loop lo hi body).
Proof.
  apply preserving_for_loop; [apply same_vel_mass_refl | apply same_vel_mass_trans].
Qed.

Ltac vm_step :=
  lazymatch goal with
  | |- preserving _ (mbind _ _) => apply vm_bind; [|intros ?]
  | |- preserving _ (mret _) => apply (preserving_ret _ same_vel_mass_refl)
  | |- preserving _ (load _) => apply (preserving_load _ same_vel_mass_refl)
  | |- preserving _ get_config => apply (preserving_get_config _ same_vel_mass_refl)
  | |- preserving _ (assert _ _) => apply (preserving_assert _ same_vel_mass_refl)
  | |- preserving _ (for_loop _ _ _) => apply vm_for_loop; intros ?
  | |- preserving _ (modify _ _) => apply vm_modify; intros ?; split; reflexivity
  | |- preserving _ (if ?b then _ else _) => destruct b
  | |- preserving _ (let _ := _ in _) => cbv zeta
  end.

Lemma vm_Fbond p1 p2 d0 : preserving same_vel_mass (Fbond p1 p2 d0).
Proof. unfold Fbond, add_F, sub_F. repeat vm_step. Qed.

Lemma vm_Fstack p1 p2 : preserving same_vel_mass (Fstack p1 p2).
Proof. unfold Fstack, add_F, sub_F. repeat vm_step. Qed.

Lemma vm_Fangle p1 p2 p3 theta0 : preserving same_vel_mass (Fangle p1 p2 p3 theta0).
Proof. unfold Fangle, add_F, sub_F. repeat vm_step. Qed.

Lemma vm_Fdihedral p1 p2 p3 p4 phi0 : preserving same_vel_mass (Fdihedral p1 p2 p3 p4 phi0).
Proof.
  unfold Fdihedral, FdihedralParticle, Vdihedral, add_F. repeat vm_step.
Qed.

Lemma calculateForces_keeps_vel_mass : preserving same_vel_mass calculateForces.
Proof.
  unfold calculateForces.
  repeat lazymatch goal with
         | |- preserving _ (Fbond _ _ _) => apply vm_Fbond
         | |- preserving _ (Fstack _ _) => apply vm_Fstack
         | |- preserving _ (Fangle _ _ _ _) => apply vm_Fangle
         | |- preserving _ (Fdihedral _ _ _ _ _) => apply vm_Fdihedral
         | |- _ => vm_step
         end.
Qed.

(** ** The integrator, for any arithmetic *)

Lemma particle_lookup (w : World) i P : w !! i = Some P -> particle w i = P.
Proof. intros H. unfold particle. by rewrite H. Qed.

Lemma verlet_kick_drift_local dt :
  local_body (verlet_kick_drift dt) (fun P => vel_not_nan (kick dt P))
    (fun P => drift dt (kick dt P)) (kick dt) VelNotNan.
Proof.
  intros i s Hi. unfold verlet_kick_drift, mbind, M_bind, load, modify, assert. simpl.
  set (w := world s).
  assert (Hk : alter (fun P => set_vel (add (vel P)
                 (scale (F (particle w i)) (dt / (#2 * m (particle w i))))) P) i w
               = alter (kick dt) i w).
  { apply list_alter_ext; [|done]. intros P HP.
    by rewrite (particle_lookup _ _ _ HP). }
  rewrite Hk. rewrite particle_alter_eq by done.
  fold (vel_not_nan (kick dt (particle w i))).
  destruct (vel_not_nan (kick dt (particle w i))); [|done].
  unfold set_world; simpl. do 2 f_equal.
  rewrite list_alter_alter_eq.
  apply list_alter_ext; [|done]. intros P HP. simpl.
  by rewrite (particle_lookup _ _ _ HP).
Qed.

Lemma verlet_kick_local dt e :
  local_body (verlet_kick dt) (fun _ => true) (kick dt) (kick dt) e.
Proof.
  intros i s Hi. unfold verlet_kick, mbind, M_bind, load, modify. simpl.
  unfold set_world. do 2 f_equal.
  apply list_alter_ext; [|done]. intros P HP.
  by rewrite (particle_lookup _ _ _ HP).
Qed.

(** [verlet], when no half-updated velocity has a NaN component. *)
Lemma verlet_run s :
  List.length (world s) = (3 * numMonomers (config s))%nat ->
  (forall j, (j < 3 * numMonomers (config s))%nat ->
     vel_not_nan (kick (timeStep (config s)) (particle (world s) j)) = true) ->
  verlet s =
  match calculateForces
          (set_world ((fun P => drift (timeStep (config s)) (kick (timeStep (config s)) P))
                      <$> world s) s) with
  | Ok _ s2 => Ok tt (set_world (kick (timeStep (config s)) <$> world s2) s2)
  | Abort e s2 => Abort e s2
  end.
Proof.
  intros Hlen Hok. unfold verlet, mbind, M_bind, get_config.
  unfold for_loop at 1. rewrite Nat.sub_0_r.
  rewrite (for_count_local_ok _ _ _ _ _ (verlet_kick_drift_local _)).
  2: lia.
  2: { intros j Hj. apply Hok. lia. }
  rewrite <- Hlen, alter_range_all.
  set (s1 := set_world _ s).
  pose proof (shape_calculateForces s1) as Hshape.
  destruct (calculateForces s1) as [[] s2|e s2]; [|done].
  destruct Hshape as (Hcfg & Hl2 & _).
  unfold for_loop. rewrite Nat.sub_0_r.
  rewrite (for_count_local_ok _ _ _ _ VelNotNan (verlet_kick_local _ _)).
  - replace (List.length (world s)) with (List.length (world s2)).
    + by rewrite alter_range_all.
    + rewrite Hl2. unfold s1. simpl. by rewrite length_fmap.
  - rewrite Hl2. unfold s1. simpl. rewrite length_fmap. lia.
  - done.
Qed.

(** [verlet], when some half-updated velocity has a NaN component. *)
Lemma verlet_abort s j :
  List.length (world s) = (3 * numMonomers (config s))%nat ->
  (j < 3 * numMonomers (config s))%nat ->
  vel_not_nan (kick (timeStep (config s)) (particle (world s) j)) = false ->
  exists s', verlet s = Abort VelNotNan s'.
Proof.
  intros Hlen Hj Hbad. unfold verlet, mbind, M_bind, get_config.
  unfold for_loop at 1. rewrite Nat.sub_0_r.
  destruct (for_count_local_abort _ _ _ _ _ (verlet_kick_drift_local (timeStep (config s)))
              (3 * numMonomers (config s)) 0 s j) as [s' Hs']; [lia|lia|done|].
  rewrite Hs'. eauto.
Qed.

(** One step: the integrator, the momentum check, the thermostat (once),
    the momentum check again, and the clock. *)
Lemma stepWorld_sequence s :
  stepWorld s =
  match verlet s with
  | Abort e s1 => Abort e s1
  | Ok _ s1 =>
      match assert_physicsCheck s1 with
      | Abort e s2 => Abort e s2
      | Ok _ s2 =>
          match thermostat s2 with
          | Abort e s3 => Abort e s3
          | Ok _ s3 =>
              match assert_physicsCheck s3 with
              | Abort e s4 => Abort e s4
              | Ok _ s4 => advance_sim_time s4
              end
          end
      end
  end.
Proof.
  unfold stepWorld, mbind, M_bind.
  destruct (verlet s) as [[] s1|]; [|done].
  destruct (assert_physicsCheck s1) as [[] s2|]; [|done].
  destruct (thermostat s2) as [[] s3|]; [|done].
  by destruct (assert_physicsCheck s3) as [[] s4|].
Qed.

End Frames.

(** C1 (as stated, refuted).  In binary64, one monomer at rest on the x
    axis with the force [(7, 0, 0)] on its sugar of mass [3], and
    [dt = config.timeStep = 1].  In the order of operations of the
    specification the half-step velocity of the sugar is
    [0 + 7/3 * 1/2 = 1.1666666666666667], and so is its new position.
    [verlet] computes [0 + 7 * (1 / (2 * 3)) = 1.1666666666666665]: this is
    the velocity after its first loop, and the position of the sugar when
    it returns.  This holds whatever [acos], [cos], [angle] and [dihedral]
    return (the three particles are on a line, the angle term is skipped). *)
Lemma verlet_half_kick_rounding :
  specified_half_velocity (timeStep (config kicked_state)) (particle (world kicked_state) 0)
  = fvec 1.1666666666666667 0 0 /\
  specified_position (timeStep (config kicked_state)) (particle (world kicked_state) 0)
  = fvec 1.1666666666666667 0 0 /\
  PrimFloat.eqb 1.1666666666666665 1.1666666666666667 = false /\
  forall (LM : Libm FloatDouble) (VM : Vmath FloatDouble),
    exists s1 s',
      for_loop 0 (3 * numMonomers (config kicked_state))
        (verlet_kick_drift (timeStep (config kicked_state))) kicked_state = Ok tt s1 /\
      vel (particle (world s1) 0) = fvec 1.1666666666666665 0 0 /\
      verlet kicked_state = Ok tt s' /\
      pos (particle (world s') 0) = fvec 1.1666666666666665 0 0.
Proof.
  split; [vm_compute; reflexivity|]. split; [vm_compute; reflexivity|].
  split; [reflexivity|]. intros LM VM.
  eexists _, _. split; [vm_compute; reflexivity|]. split; [reflexivity|].
  split; vm_compute; reflexivity.
Qed.

(** C1 (amended).  One call of [verlet], for both arithmetics, on an
    allocated world, with [dt = config.timeStep].  The first loop gives
    every particle, one after the other, the velocity
    [v(t+dt/2) = v(t) + F(t) * (dt / (2 m))] and then the position
    [x(t+dt) = x(t) + v(t+dt/2) * dt]; the forces are then recomputed once,
    by [calculateForces], on these positions; the second loop gives every
    particle [v(t+dt) = v(t+dt/2) + F(t+dt) * (dt / (2 m))].  The call is
    aborted by the assertion of the first loop when a component of some
    half-step velocity is NaN, and by an assertion of the force pass when
    one fails there; otherwise it returns. *)
Theorem verlet_kick_drift_kick {Dbl : Double} {LM : Libm Dbl} {VM : Vmath Dbl} (s : State) :
  List.length (world s) = (3 * numMonomers (config s))%nat ->
  let dt := timeStep (config s) in
  let half_kick (P : Particle) : Particle :=
    mkParticle (pos P) (add (vel P) (scale (F P) (dt / (#2 * m P))%dbl)) (F P) (m P) in
  let drift (P : Particle) : Particle :=
    mkParticle (add (pos P) (scale (vel P) dt)) (vel P) (F P) (m P) in
  let nan_in (v : Vec3) : bool := disnan (x v) || disnan (y v) || disnan (z v) in
  ((forall j, (j < 3 * numMonomers (config s))%nat ->
      nan_in (vel (half_kick (particle (world s) j))) = false) ->
   verlet s =
   match calculateForces (set_world ((fun P => drift (half_kick P)) <$> world s) s) with
   | Ok _ s2 => Ok tt (set_world (half_kick <$> world s2) s2)
   | Abort e s2 => Abort e s2
   end) /\
  (forall j, (j < 3 * numMonomers (config s))%nat ->
     nan_in (vel (half_kick (particle (world s) j))) = true ->
     exists s', verlet s = Abort VelNotNan s').
Proof.
  intros Hlen dt half_kick drift nan_in.
  assert (Hnan : forall P, vel_not_nan (kick dt P) = negb (nan_in (vel (half_kick P)))).
  { intros P. unfold vel_not_nan, nan_in. simpl.
    by destruct (disnan _), (disnan _), (disnan _). }
  split.
  - intros Hok. apply (verlet_run s Hlen). intros j Hj.
    fold dt. by rewrite Hnan, Hok.
  - intros j Hj Hbad. apply (verlet_abort s j Hlen Hj).
    fold dt. by rewrite Hnan, Hbad.
Qed.

(** In binary64, on the world of the counterexample: no half-step velocity
    is NaN, and [verlet] is the force pass on the world left by the first
    loop, followed by the second half kick.  On a world whose velocities
    are NaN the call is aborted. *)
Lemma verlet_kick_drift_kick_witness :
  List.length (world kicked_state) = (3 * numMonomers (config kicked_state))%nat /\
  forall (LM : Libm FloatDouble) (VM : Vmath FloatDouble),
    (exists r, verlet kicked_state = r /\
       r = match calculateForces kicked_state_drifted with
           | Ok _ s2 =>
               Ok tt (set_world (kick (timeStep (config kicked_state)) <$> world s2) s2)
           | Abort e s2 => Abort e s2
           end) /\
    (exists s', verlet frozen_state_after = Abort VelNotNan s').
Proof.
  split; [reflexivity|]. intros LM VM. split.
  - eexists. split.
    + apply (proj1 (@verlet_kick_drift_kick FloatDouble LM VM kicked_state eq_refl)).
      intros j Hj. destruct j as [|[|[|j]]]; [reflexivity..|simpl in Hj; lia].
    + reflexivity.
  - apply (proj2 (@verlet_kick_drift_kick FloatDouble LM VM frozen_state_after eq_refl) 0%nat);
      [vm_compute; lia | reflexivity].
Defined.

(** ** The integrator and the diagnostics in exact arithmetic; the temperature *)

Section RealModel.
Context {VM : Vmath RealDouble}.
Local Open Scope R_scope.

Lemma Rltb_true a b : a < b -> Rltb a b = true.
Proof. intros H. unfold Rltb. by destruct (Rlt_dec a b). Qed.
Lemma Rltb_false a b : ~ a < b -> Rltb a b = false.
Proof. intros H. unfold Rltb. by destruct (Rlt_dec a b). Qed.
Lemma Reqb_false a b : a <> b -> Reqb a b = false.
Proof. intros H. unfold Reqb. by destruct (Req_dec_T a b). Qed.

Lemma vec3_eta (v : @Vec3 RealDouble) : v = mkVec3 (x v) (y v) (z v).
Proof. by destruct v. Qed.

Lemma drop_particle (w : World) i :
  (i < List.length w)%nat -> drop i w = particle w i :: drop (S i) w.
Proof.
  intros Hi. destruct (lookup_lt_is_Some_2 w i Hi) as [P HP].
  rewrite (particle_lookup _ _ _ HP). by apply drop_S.
Qed.

Lemma kineticEnergy_loop_sum (w : World) : forall count i acc,
  (i + count = List.length w)%nat ->
  kineticEnergy_loop w i count acc =
  acc + sum_over (fun P => m P * length2 (vel P)) (drop i w).
Proof.
  induction count as [|c IH]; intros i acc Hlen; simpl.
  - rewrite drop_ge by lia. simpl. lra.
  - rewrite IH by lia. rewrite (drop_particle w i) by lia. simpl. lra.
Qed.

Lemma sum_over_scale (k : R) f (w : World) :
  sum_over (fun P => k * f P) w = k * sum_over f w.
Proof. induction w as [|P w IH]; simpl; [lra | rewrite IH; lra]. Qed.

Lemma sum_over_ext f g (w : World) :
  (forall P, f P = g P) -> sum_over f w = sum_over g w.
Proof. intros H. induction w as [|P w IH]; simpl; [done | by rewrite H, IH]. Qed.

Lemma kineticEnergy_value_sum s :
  List.length (world s) = (3 * numMonomers (config s))%nat ->
  kineticEnergy_value s = kinetic_energy (world s).
Proof.
  intros Hlen. unfold kineticEnergy_value. simpl.
  rewrite kineticEnergy_loop_sum by lia. rewrite drop_0.
  unfold kinetic_energy.
  rewrite (sum_over_ext (fun P => 1 / 2 * m P * _)
             (fun P => 1 / 2 * (m P * length2 (vel P)))).
  - rewrite sum_over_scale. lra.
  - intros P. unfold length2, dot. simpl. lra.
Qed.

Lemma momentum_loop_sum (w : World) : forall count i acc,
  (i + count = List.length w)%nat ->
  momentum_loop w i count acc = add acc (total_momentum (drop i w)).
Proof.
  induction count as [|c IH]; intros i acc Hlen; simpl.
  - rewrite drop_ge by lia. rewrite (vec3_eta acc) at 1.
    unfold add, total_momentum. simpl. f_equal; lra.
  - rewrite IH by lia. rewrite (drop_particle w i) by lia.
    unfold add, scale, total_momentum. simpl. f_equal; lra.
Qed.

Lemma momentum_run s :
  List.length (world s) = (3 * numMonomers (config s))%nat ->
  momentum s = Ok (total_momentum (world s)) s.
Proof.
  intros Hlen. unfold momentum, mbind, M_bind, get_config, get_world, mret, M_ret.
  rewrite momentum_loop_sum by lia. rewrite drop_0.
  do 2 f_equal. unfold add, zero_vec, total_momentum. simpl. f_equal; lra.
Qed.

Lemma half_kick_real (f dt mass : R) : f * (dt / (2 * mass)) = f / mass * (dt / 2).
Proof. unfold Rdiv. rewrite Rinv_mult. ring. Qed.

End RealModel.

(** In exact arithmetic, when no mass is zero, the half kick
    [F * (dt / (2 m))] is the [F/m * dt/2] of the velocity-Verlet scheme:
    one call of [verlet] gives every particle
    [v(t+dt/2) = v(t) + F(t)/m * dt/2] and
    [x(t+dt) = x(t) + v(t+dt/2) * dt], recomputes the forces once on these
    positions, and then gives every particle
    [v(t+dt) = v(t+dt/2) + F(t+dt)/m * dt/2]. *)
Lemma verlet_is_velocity_verlet {VM : Vmath RealDouble} (s : @State RealDouble) :
  List.length (world s) = (3 * numMonomers (config s))%nat ->
  (forall j, (j < 3 * numMonomers (config s))%nat -> m (particle (world s) j) <> 0%R) ->
  let dt := timeStep (config s) in
  let half_velocity (P : Particle) : Vec3 :=
    mkVec3 (x (vel P) + x (F P) / m P * (dt / 2))%R
           (y (vel P) + y (F P) / m P * (dt / 2))%R
           (z (vel P) + z (F P) / m P * (dt / 2))%R in
  let steps_1_2 (P : Particle) : Particle :=
    let v := half_velocity P in
    mkParticle (mkVec3 (x (pos P) + x v * dt)%R (y (pos P) + y v * dt)%R
                       (z (pos P) + z v * dt)%R)
               v (F P) (m P) in
  let step_4 (P : Particle) : Particle :=
    mkParticle (pos P) (half_velocity P) (F P) (m P) in
  verlet s =
  match calculateForces (set_world (steps_1_2 <$> world s) s) with
  | Ok _ s2 => Ok tt (set_world (step_4 <$> world s2) s2)
  | Abort e s2 => Abort e s2
  end.
Proof.
  intros Hlen _ dt half_velocity steps_1_2 step_4.
  assert (Hhalf : forall P, vel (kick dt P) = half_velocity P).
  { intros P. unfold kick, half_velocity, add, scale. simpl.
    by rewrite !half_kick_real. }
  rewrite verlet_run; [|done|done].
  fold dt.
  replace ((fun P => drift dt (kick dt P)) <$> world s) with (steps_1_2 <$> world s).
  2: { apply list_fmap_ext. intros _ P _. unfold steps_1_2, drift, set_pos.
       rewrite Hhalf. unfold add, scale. simpl. done. }
  destruct (calculateForces _) as [[] s2|e s2]; [|done].
  do 2 f_equal. apply list_fmap_ext. intros _ P _.
  unfold step_4. rewrite <- Hhalf. done.
Qed.

(** In exact arithmetic, when there is at least one monomer, the order of
    the accumulation does not matter and the temperature is
    [(2 / (3 k_B)) * K / (3 * numMonomers)] with [K = Sum (1/2) m |v|^2]
    over all particles and [k_B = 1.38065e-23]. *)
Lemma temperature_formula (s : @State RealDouble) :
  List.length (world s) = (3 * numMonomers (config s))%nat ->
  numMonomers (config s) <> 0%nat ->
  temperature s =
  Ok (2 / (3 * 1.38065e-23) * kinetic_energy (world s)
      / (3 * INR (numMonomers (config s))))%R s.
Proof.
  intros Hlen _. rewrite temperature_run. f_equal.
  unfold temperature_value. rewrite (kineticEnergy_value_sum s Hlen).
  simpl. rewrite <- INR_IZR_INZ. unfold BOLTZMANN_CONSTANT; simpl.
  unfold Rdiv. rewrite (Rmult_comm 3 (INR _)). done.
Qed.

(** C8. The diagnostic temperature, on an allocated world.

    For both arithmetics: [temperature] returns
    [2 / (3 k_B) * K / (numMonomers * 3)], the operations taken from left
    to right, where [K] is what [kineticEnergy] returns: half the sum of
    [m |v|^2] accumulated over the [3 * numMonomers] particles of the
    block, first particle first.  The divisor is
    [config.numMonomers * 3.0], not the number of particles.  Nothing is
    written.

    In exact arithmetic, when there is at least one monomer, this is
    [(2 / (3 k_B)) * K / (3 * numMonomers)] with [K = Sum (1/2) m |v|^2]
    over all particles and [k_B = 1.38065e-23]. *)
Theorem temperature_of_kinetic_energy :
  (forall (Dbl : Double) (s : @State Dbl),
     List.length (world s) = (3 * numMonomers (config s))%nat ->
     let twiceK :=
       foldl (fun acc P =>
                (acc + m P * (x (vel P) * x (vel P) + y (vel P) * y (vel P)
                              + z (vel P) * z (vel P)))%dbl) (#0)%dbl (world s) in
     let K := (twiceK / #2)%dbl in
     let k_B := lit BOLTZMANN_lit in
     kineticEnergy s = Ok K s /\
     temperature s =
     Ok (#2 / (#3 * k_B) * K / (#(Z.of_nat (numMonomers (config s))) * #3))%dbl s) /\
  (forall s : @State RealDouble,
     List.length (world s) = (3 * numMonomers (config s))%nat ->
     numMonomers (config s) <> 0%nat ->
     temperature s =
     Ok (2 / (3 * 1.38065e-23) * kinetic_energy (world s)
         / (3 * INR (numMonomers (config s))))%R s).
Proof.
  split.
  - intros Dbl s Hlen twiceK K k_B.
    assert (HK : kineticEnergy s = Ok K s) by apply (kineticEnergy_accumulated s Hlen).
    split; [exact HK|].
    unfold temperature, mbind, M_bind, get_config. rewrite HK. reflexivity.
  - intros s Hlen Hn. apply (temperature_formula s Hlen Hn).
Qed.

(** In binary64, on a world whose fields are all finite: [m |v|^2]
    overflows and the temperature is [+infinity].  In exact arithmetic, on
    a world of one monomer. *)
Lemma temperature_of_kinetic_energy_witness :
  (kineticEnergy overflow_state = Ok infinity overflow_state /\
   temperature overflow_state = Ok infinity overflow_state) /\
  temperature demo_state_R =
  Ok (2 / (3 * 1.38065e-23) * kinetic_energy (world demo_state_R) / (3 * INR 1))%R
     demo_state_R.
Proof.
  split.
  - exact (proj1 temperature_of_kinetic_energy FloatDouble overflow_state eq_refl).
  - exact (proj2 temperature_of_kinetic_energy demo_state_R eq_refl (Nat.neq_succ_0 0)).
Defined.

(** In binary64 the quotient is [0/0] when there is no monomer. *)
Lemma temperature_no_monomers : temperature empty_state = Ok nan empty_state.
Proof. reflexivity. Qed.

(** In exact arithmetic, when there is at least one monomer, the order of
    the accumulation does not matter: with [P = Sum m v] over all particles
    and [PPM = |P| / numMonomers], the check returns false and appends one
    diagnostic to stderr when [PPM > 1e-20], and returns true and writes
    nothing otherwise. *)
Lemma physicsCheck_momentum_threshold (s : @State RealDouble) :
  List.length (world s) = (3 * numMonomers (config s))%nat ->
  numMonomers (config s) <> 0%nat ->
  let P := total_momentum (world s) in
  let PPM := (R_sqrt.sqrt (x P * x P + y P * y P + z P * z P)
              / INR (numMonomers (config s)))%R in
  ((PPM > 1e-20)%R ->
     physicsCheck s =
     Ok false (mkState (config s) (world s) (sim_time s)
                 (stderr s ++ [MomentumViolated PPM]))) /\
  (~ (PPM > 1e-20)%R -> physicsCheck s = Ok true s).
Proof.
  intros Hlen _ P PPM.
  assert (Hrun : physicsCheck s =
                 if Rltb 1e-20 PPM
                 then Ok false (mkState (config s) (world s) (sim_time s)
                                  (stderr s ++ [MomentumViolated PPM]))
                 else Ok true s).
  { unfold physicsCheck, mbind, M_bind, get_config.
    rewrite (momentum_run s Hlen). fold P. simpl.
    rewrite <- INR_IZR_INZ. subst PPM P. simpl.
    by destruct (Rltb _ _). }
  split; intros H; rewrite Hrun.
  - by rewrite Rltb_true.
  - by rewrite Rltb_false.
Qed.

(** ** Exact arithmetic: the stacking term *)

Section RealStack.
Local Open Scope R_scope.

Lemma eps_R_pos : 0 < eps_R.
Proof. unfold eps_R. lra. Qed.
Lemma sigma_R_pos : 0 < sigma_R.
Proof. unfold sigma_R. lra. Qed.

Lemma stack_potential_square r :
  r <> 0 -> stack_potential r = eps_R * (sigma_R ^ 6 / r ^ 6 - 1) ^ 2.
Proof. intros Hr. unfold stack_potential. field. done. Qed.

Lemma stack_potential_nonneg r : r <> 0 -> 0 <= stack_potential r.
Proof.
  intros Hr. rewrite stack_potential_square by done.
  apply Rmult_le_pos; [pose proof eps_R_pos; lra | apply pow2_ge_0].
Qed.

Lemma stack_potential_sigma : stack_potential sigma_R = 0.
Proof.
  rewrite stack_potential_square by (pose proof sigma_R_pos; lra).
  replace (sigma_R ^ 6 / sigma_R ^ 6) with 1.
  - ring.
  - field. pose proof sigma_R_pos; lra.
Qed.

Lemma distance_sym (a b : @Vec3 RealDouble) : length (sub b a) = distance a b.
Proof.
  unfold distance, distance2, length, length2, dot, sub. simpl.
  f_equal. ring.
Qed.

Lemma distance_sqr (a b : @Vec3 RealDouble) :
  distance2 a b = distance a b * distance a b.
Proof.
  unfold distance. rewrite sqrt_sqrt; [done|].
  unfold distance2, length2, dot, sub. simpl.
  pose proof (Rle_0_sqr (x a - x b)). pose proof (Rle_0_sqr (y a - y b)).
  pose proof (Rle_0_sqr (z a - z b)). unfold Rsqr in *. lra.
Qed.

Lemma Vstack_run (s : @State RealDouble) p1 p2 :
  let r := distance (pos (particle (world s) p1)) (pos (particle (world s) p2)) in
  0 < r -> Vstack p1 p2 s = Ok (stack_potential r) s.
Proof.
  intros r Hr. unfold Vstack, mbind, M_bind, load, mret, M_ret.
  cbv zeta. f_equal. rewrite distance_sqr. fold r.
  unfold stack_potential, BOND_STACK, EPSILON, stack_sigma6, STACK_SIGMA. simpl.
  fold eps_R sigma_R. field. lra.
Qed.

Lemma stack_force_factor_code r :
  0 < r ->
  let sigma6 := stack_sigma6 in
  let sigma12 := sigma6 * sigma6 in
  let dr2 := r * r in
  let dr3 := r * r * r in
  let dr6 := dr3 * dr3 in
  let dr8 := dr6 * dr2 in
  let dr12 := dr6 * dr6 in
  let dr14 := dr12 * dr2 in
  -12 * BOND_STACK * (sigma12 / dr14 - sigma6 / dr8) = stack_force_factor r.
Proof.
  intros Hr. cbv zeta.
  unfold stack_force_factor, BOND_STACK, EPSILON, stack_sigma6, STACK_SIGMA, eps_R, sigma_R.
  simpl. field. lra.
Qed.

Lemma Fstack_run (s : @State RealDouble) p1 p2 :
  let P1 := particle (world s) p1 in
  let P2 := particle (world s) p2 in
  let r := distance (pos P1) (pos P2) in
  let Fi := scale (sub (pos P2) (pos P1)) (stack_force_factor r) in
  0 < r ->
  Fstack p1 p2 s =
  Ok tt (set_world (alter (fun P => set_F (sub (F P) Fi) P) p2
                      (alter (fun P => set_F (add (F P) Fi) P) p1 (world s))) s).
Proof.
  intros P1 P2 r Fi Hr.
  unfold Fstack, mbind, M_bind, load, assert, add_F, sub_F, modify.
  cbv zeta. fold P1 P2. rewrite distance_sym. fold r.
  change (#0)%dbl with 0. change (#(-12))%dbl with (-12).
  rewrite Reqb_false by lra.
  pose proof (stack_force_factor_code r Hr) as Hc. cbv zeta in Hc.
  change dmul with Rmult. change dsub with Rminus. change ddiv with Rdiv.
  rewrite Hc. done.
Qed.

End RealStack.

(** C6 (as stated, refuted).  In binary64, for two particles at the
    distance [3.4139999999989663e-10], just below [sigma], [Vstack] returns
    a negative value: [0] is not the least value of the potential.  For two
    particles [1e-24] apart, [dr14] underflows to [0] in [Fstack], the
    factor of the separation vector is [-infinity], and the forces written
    are [(-infinity, NaN, NaN)] and [(+infinity, NaN, NaN)], where the
    formula of the specification gives a finite vector. *)
Lemma Vstack_negative_near_sigma :
  Vstack 0 1 near_sigma_state = Ok (-4.0190073491430663e-37)%float near_sigma_state /\
  PrimFloat.ltb (-4.0190073491430663e-37) 0 = true /\
  exists s',
    Fstack 0 1 close_state = Ok tt s' /\
    F <$> world s' = [fvec neg_infinity nan nan; fvec infinity nan nan].
Proof.
  split; [vm_compute; reflexivity|]. split; [reflexivity|].
  eexists. split; vm_compute; reflexivity.
Qed.

Section StackAny.
Context {Dbl : Double}.
Local Open Scope dbl_scope.

Lemma Vstack_any (s : State) p1 p2 :
  Vstack p1 p2 s =
  Ok (Vstack_value (distance2 (pos (particle (world s) p1)) (pos (particle (world s) p2)))) s.
Proof. reflexivity. Qed.

Lemma Fstack_any (s : State) p1 p2 :
  let drVec := sub (pos (particle (world s) p2)) (pos (particle (world s) p1)) in
  let Fi := scale drVec (Fstack_factor (length drVec)) in
  Fstack p1 p2 s =
  if length drVec =? #0 then Abort StackDistNonzero s
  else Ok tt (set_world (alter (fun P => set_F (sub (F P) Fi) P) p2
                           (alter (fun P => set_F (add (F P) Fi) P) p1 (world s))) s).
Proof.
  intros drVec Fi. unfold Fstack, mbind, M_bind, load, assert, add_F, sub_F, modify.
  cbv zeta. fold drVec. by destruct (deq _ _).
Qed.

End StackAny.

(** C6 (amended).  The stacking term.

    For both arithmetics: [Vstack] returns the value of
    [epsilon * (sigma^12/r12 - 2 sigma^6/r6 + 1)] and writes nothing;
    [Fstack] is aborted by its assertion, before anything is written, when
    the computed distance is [0], and otherwise adds one vector
    [Fi = (pos2 - pos1) * c] to the force on the first particle and
    subtracts the same [Fi] from the force on the second, [c] being the
    value of [-12 epsilon (sigma^12/dr14 - sigma^6/dr8)], and changes
    nothing else.  The powers [r12], [r6], [dr14], [dr8] are formed by
    repeated multiplication, as in the code.

    In exact arithmetic, for two particles at distance [r > 0]: [Vstack]
    returns [epsilon * (sigma^12/r^12 - 2 sigma^6/r^6 + 1)], which is never
    negative and is [0] at [r = sigma]; [Fstack] adds [c * (pos2 - pos1)]
    to the force on the first particle and subtracts the same vector from
    the force on the second, with
    [c = -12 epsilon (sigma^12/r^14 - sigma^6/r^8)].  Here
    [epsilon = 1.81e-21] and [sigma = 3.414e-10]. *)
Theorem stacking_potential_and_force :
  (forall (Dbl : Double) (s : @State Dbl) (p1 p2 : ptr),
     let P1 := particle (world s) p1 in
     let P2 := particle (world s) p2 in
     let drVec := sub (pos P2) (pos P1) in
     let Fi := scale drVec (Fstack_factor (length drVec)) in
     Vstack p1 p2 s = Ok (Vstack_value (distance2 (pos P1) (pos P2))) s /\
     Fstack p1 p2 s =
     if (length drVec =? #0)%dbl then Abort StackDistNonzero s
     else Ok tt (set_world (alter (fun P => set_F (sub (F P) Fi) P) p2
                              (alter (fun P => set_F (add (F P) Fi) P) p1 (world s))) s)) /\
  (forall (s : @State RealDouble) (p1 p2 : ptr),
     let P1 := particle (world s) p1 in
     let P2 := particle (world s) p2 in
     let r := distance (pos P1) (pos P2) in
     let epsilon := 1.81e-21%R in
     let sigma := 3.414e-10%R in
     let V := (epsilon * (sigma ^ 12 / r ^ 12 - 2 * sigma ^ 6 / r ^ 6 + 1))%R in
     let c := (-12 * epsilon * (sigma ^ 12 / r ^ 14 - sigma ^ 6 / r ^ 8))%R in
     let Fi := scale (sub (pos P2) (pos P1)) c in
     (0 < r)%R ->
     Vstack p1 p2 s = Ok V s /\
     (0 <= V)%R /\
     (r = sigma -> V = 0%R) /\
     Fstack p1 p2 s =
     Ok tt (set_world (alter (fun P => set_F (sub (F P) Fi) P) p2
                         (alter (fun P => set_F (add (F P) Fi) P) p1 (world s))) s)).
Proof.
  split.
  - intros Dbl s p1 p2 P1 P2 drVec Fi. split.
    + apply Vstack_any.
    + apply (Fstack_any s p1 p2).
  - intros s p1 p2 P1 P2 r epsilon sigma V c Fi Hr.
    repeat split.
    + apply (Vstack_run s p1 p2 Hr).
    + apply (stack_potential_nonneg r). lra.
    + intros Hsig. unfold V. fold r in Hsig. rewrite Hsig. apply stack_potential_sigma.
    + apply (Fstack_run s p1 p2 Hr).
Qed.

Lemma demo_distance_pos :
  (0 < distance (pos (particle (world demo_state_R) 0)) (pos (particle (world demo_state_R) 1)))%R.
Proof.
  unfold distance, distance2, length2, dot, sub; simpl.
  apply sqrt_lt_R0. lra.
Qed.

Lemma stacking_potential_and_force_witness :
  let r := distance (pos (particle (world demo_state_R) 0))
                    (pos (particle (world demo_state_R) 1)) in
  Vstack 0 1 demo_state_R =
  Ok (1.81e-21 * (3.414e-10 ^ 12 / r ^ 12 - 2 * 3.414e-10 ^ 6 / r ^ 6 + 1))%R demo_state_R.
Proof.
  exact (proj1 (proj2 stacking_potential_and_force demo_state_R 0%nat 1%nat
                  demo_distance_pos)).
Defined.

(** ** IEEE-754 binary64: NaN *)

Section FloatFacts.
Local Open Scope float_scope.

Lemma Prim2SF_nan : Prim2SF nan = S754_nan.
Proof. reflexivity. Qed.

(** [u / NaN] is NaN. *)
Lemma div_nan_r (u : float) : u / nan = nan.
Proof.
  apply Prim2SF_inj. rewrite div_spec, Prim2SF_nan.
  unfold SF64div, SFdiv. by destruct (Prim2SF u).
Qed.

(** [NaN + u] is NaN. *)
Lemma add_nan_l (u : float) : nan + u = nan.
Proof.
  apply Prim2SF_inj. rewrite add_spec, Prim2SF_nan. done.
Qed.


End FloatFacts.

(** ** IEEE-754 binary64: the thermostat and the integrator *)

(** C3 (as stated, refuted).  One monomer at rest, thermostat enabled
    ([tau = 1e-12 > 0]), in binary64: the temperature is [0]; the thermostat
    returns normally, having divided by it, and leaves NaN in every
    velocity component; the momentum check that follows in [stepWorld]
    passes and nothing is written to stderr. *)
Lemma thermostat_frozen_world_nan :
  temperature frozen_state = Ok 0%float frozen_state /\
  PrimFloat.leb (thermostatTau (config frozen_state)) 0 = false /\
  thermostat frozen_state = Ok tt frozen_state_after /\
  assert_physicsCheck frozen_state_after = Ok tt frozen_state_after.
Proof. repeat split; vm_compute; reflexivity. Qed.

(** C3 (amended).  The thermostat has no error path.  When it is enabled
    ([tau <= 0] is false) it returns normally whatever the temperature
    [T_k] is, writes nothing to stderr, and multiplies every velocity by
    [sqrt(1 + (dt/tau) * (T0/T_k - 1))], computed with the division by
    [T_k].  This holds for both arithmetics. *)
Theorem thermostat_has_no_error_path {Dbl : Double} (s : State) :
  List.length (world s) = (3 * numMonomers (config s))%nat ->
  (thermostatTau (config s) <=? #0)%dbl = false ->
  exists (Tk : D) (s' : State),
    temperature s = Ok Tk s /\
    thermostat s = Ok tt s' /\
    stderr s' = stderr s /\
    world s' =
    (fun P => set_vel (scale (vel P)
                (dsqrt (#1 + timeStep (config s) / thermostatTau (config s)
                             * (thermostatTemp (config s) / Tk - #1))%dbl)) P)
    <$> world s.
Proof.
  intros Hlen Htau. eexists _, _. split; [apply temperature_run|].
  rewrite (thermostat_run s Hlen), Htau. done.
Qed.

Lemma thermostat_has_no_error_path_witness :
  exists (Tk : float) (s' : @State FloatDouble),
    temperature frozen_state = Ok Tk frozen_state /\
    thermostat frozen_state = Ok tt s' /\
    stderr s' = stderr frozen_state /\
    world s' =
    (fun P : @Particle FloatDouble =>
       set_vel (scale (vel P)
                  (PrimFloat.sqrt (1 + 1e-15 / 1e-12 * (300 / Tk - 1))%float)) P)
    <$> world frozen_state.
Proof.
  apply (@thermostat_has_no_error_path FloatDouble frozen_state); reflexivity.
Defined.

(** The force pass on the world left by the first loop of [verlet] in
    [overflow_state]: NaN reaches [Fangle], whose first assertion fails. *)
Lemma overflow_force_pass (LM : Libm FloatDouble) (VM : Vmath FloatDouble) :
  exists s', calculateForces overflow_state_after = Abort AngleF1Orthogonal s'.
Proof. eexists. vm_compute. rewrite !div_nan_r. vm_compute. reflexivity. Qed.

(** C4 (as stated, refuted).  In binary64, on a world whose fields are all
    finite, the first loop of [verlet] (with [dt = config.timeStep = 1])
    runs to its end: the half update of the sugar's velocity overflows to
    [+infinity], the check [!isnan] passes, and the position update writes
    [+infinity] into the position.  The step is only stopped later, inside
    the force pass, by an assertion of [Fangle] about the direction of
    the angle force. *)
Lemma verlet_accepts_infinite_velocity :
  for_loop 0 (3 * numMonomers (config overflow_state))
    (verlet_kick_drift (timeStep (config overflow_state))) overflow_state
  = Ok tt overflow_state_after /\
  x (vel (particle (world overflow_state_after) 0)) = infinity /\
  x (pos (particle (world overflow_state_after) 0)) = infinity /\
  forall (LM : Libm FloatDouble) (VM : Vmath FloatDouble),
    exists s', verlet overflow_state = Abort AngleF1Orthogonal s'.
Proof.
  assert (Hloop : for_loop 0 (3 * numMonomers (config overflow_state))
            (verlet_kick_drift (timeStep (config overflow_state))) overflow_state
          = Ok tt overflow_state_after) by (vm_compute; reflexivity).
  split; [exact Hloop|]. split; [reflexivity|]. split; [reflexivity|].
  intros LM VM. destruct (overflow_force_pass LM VM) as [s' Hs']. exists s'.
  unfold verlet, mbind, M_bind, get_config. rewrite Hloop, Hs'. reflexivity.
Qed.

(** C4 (amended).  If, after the first half update
    [v + F * (dt / (2 m))], a component of some particle's velocity is NaN,
    [verlet] is aborted by its assertion [!isnan(...)].  This holds for both
    arithmetics (in exact arithmetic nothing is NaN). *)
Theorem verlet_aborts_on_nan_velocity {Dbl : Double} {LM : Libm Dbl} {VM : Vmath Dbl}
    (s : State) (j : nat) :
  List.length (world s) = (3 * numMonomers (config s))%nat ->
  (j < 3 * numMonomers (config s))%nat ->
  let P := particle (world s) j in
  let v := add (vel P) (scale (F P) (timeStep (config s) / (#2 * m P))%dbl) in
  disnan (x v) || disnan (y v) || disnan (z v) = true ->
  exists s', verlet s = Abort VelNotNan s'.
Proof.
  intros Hlen Hj P v Hnan. apply (verlet_abort s j Hlen Hj).
  unfold vel_not_nan, kick. simpl. fold P.
  change (negb (disnan (x v)) && negb (disnan (y v)) && negb (disnan (z v)) = false).
  destruct (disnan (x v)), (disnan (y v)), (disnan (z v)); done.
Qed.

Lemma verlet_aborts_on_nan_velocity_witness :
  List.length (world frozen_state_after) = 3%nat /\
  forall (LM : Libm FloatDouble) (VM : Vmath FloatDouble),
    exists s', verlet frozen_state_after = Abort VelNotNan s'.
Proof.
  split; [reflexivity|]. intros LM VM.
  apply (@verlet_aborts_on_nan_velocity FloatDouble LM VM frozen_state_after 0%nat);
    [reflexivity | vm_compute; lia | reflexivity].
Defined.

(** ** IEEE-754 binary64: the force field *)

(** C7 (the code at a colinear triplet).  In binary64, for the bond vectors
    [a = (1,1,1)] and [b = (2,2,2) = 2a] (angle 0) the computed cosine is
    [1.0000000000000002], so [1 - cos^2] is negative and [sintheta] is NaN;
    the test [fabs(sintheta) < 1e-30] is false, [Fangle] writes NaN into
    all three force accumulators and its first assertion then fails.  This
    holds whatever [acos] returns. *)
Theorem Fangle_colinear_writes_nan (LM : Libm FloatDouble) :
  Fangle 0 1 2 ANGLE_P_5S_A colinear_state =
  Abort AngleF1Orthogonal (set_world (nan_force <$> world colinear_state) colinear_state).
Proof. vm_compute. rewrite !div_nan_r. vm_compute. reflexivity. Qed.

(** The same at the scale of the simulation. *)
Lemma Fangle_colinear_writes_nan_angstrom (LM : Libm FloatDouble) :
  Fangle 0 1 2 ANGLE_P_5S_A angstrom_colinear_state =
  Abort AngleF1Orthogonal
    (set_world (nan_force <$> world angstrom_colinear_state) angstrom_colinear_state).
Proof. vm_compute. rewrite !div_nan_r. vm_compute. reflexivity. Qed.

(** C10 (the code on two monomers).  In binary64, a force pass over two
    monomers placed on the x axis returns normally and leaves three
    particles at positions that differ from the ones before the call:
    [pos.x += h; pos.x -= h] does not give back [pos.x].  This holds
    whatever [acos], [cos], [angle] and [dihedral] return. *)
Theorem calculateForces_moves_particles (LM : Libm FloatDouble) (VM : Vmath FloatDouble) :
  exists s',
    calculateForces line_state = Ok tt s' /\
    pos <$> world line_state =
    [fvec 1 0 0; fvec 4 0 0; fvec 2 0 0; fvec 5 0 0; fvec 3 0 0; fvec 6 0 0] /\
    pos <$> world s' =
    [fvec 0.99999999999999989 0 0; fvec 3.9999999999999996 0 0;
     fvec 1.9999999999999998 0 0; fvec 5 0 0; fvec 3 0 0; fvec 6 0 0].
Proof.
  eexists. split; [vm_compute; reflexivity|].
  split; vm_compute; reflexivity.
Qed.

(** The same for one call of [Fdihedral] on four particles in general
    position at the scale of the simulation: the coordinate [2^-31] comes
    back one unit in the last place smaller. *)
Lemma Fdihedral_moves_particle_angstrom (LM : Libm FloatDouble) (VM : Vmath FloatDouble) :
  exists s',
    Fdihedral 0 1 2 3 DIHEDRAL_P_5S3_P_5S angstrom_quad_state = Ok tt s' /\
    x (pos (particle (world angstrom_quad_state) 1)) = 4.656612873077392578125e-10%float /\
    x (pos (particle (world s') 1)) = 4.6566128730773921e-10%float.
Proof.
  eexists. split; [vm_compute; reflexivity|].
  split; vm_compute; reflexivity.
Qed.


(** ** Exact arithmetic: the force terms *)

Section RealForces.
Context {VM : Vmath RealDouble}.
Local Open Scope R_scope.

Lemma sum_over_alter f g (w : World) : forall i,
  (i < List.length w)%nat ->
  sum_over f (alter g i w) = sum_over f w + (f (g (particle w i)) - f (particle w i)).
Proof.
  induction w as [|P w IH]; intros i Hi; simpl in Hi; [lia|].
  destruct i as [|i]; simpl.
  - unfold particle; simpl. lra.
  - change (list_alter g i w) with (alter g i w).
    rewrite IH by lia. unfold particle; simpl. lra.
Qed.

Lemma total_force_addF v (w : World) i :
  (i < List.length w)%nat -> total_force (alter (addF v) i w) = add (total_force w) v.
Proof.
  intros Hi. unfold total_force, add. simpl.
  rewrite !sum_over_alter by done. simpl. f_equal; lra.
Qed.

Lemma total_force_subF v (w : World) i :
  (i < List.length w)%nat -> total_force (alter (subF v) i w) = sub (total_force w) v.
Proof.
  intros Hi. unfold total_force, sub. simpl.
  rewrite !sum_over_alter by done. simpl. f_equal; lra.
Qed.

Lemma add_sub_cancel (a v : @Vec3 RealDouble) : sub (add a v) v = a.
Proof. destruct a, v. unfold sub, add. simpl. f_equal; lra. Qed.

Lemma addF_zero (P : @Particle RealDouble) : addF zero_vec P = P.
Proof.
  destruct P as [ps vl [fx fy fz] ms]. unfold addF, set_F, add. simpl.
  do 2 f_equal; lra.
Qed.

Lemma subF_zero (P : @Particle RealDouble) : subF zero_vec P = P.
Proof.
  destruct P as [ps vl [fx fy fz] ms]. unfold subF, set_F, sub. simpl.
  do 2 f_equal; lra.
Qed.

(** A pair of opposite vectors leaves the total unchanged. *)
Lemma total_force_pair v (w : World) p1 p2 :
  (p1 < List.length w)%nat -> (p2 < List.length w)%nat ->
  total_force (alter (subF v) p2 (alter (addF v) p1 w)) = total_force w.
Proof.
  intros H1 H2. rewrite total_force_subF by (by rewrite length_alter).
  rewrite total_force_addF by done. apply add_sub_cancel.
Qed.

Lemma Fbond_run (s : @State RealDouble) p1 p2 d0 :
  exists Fv, Fbond p1 p2 d0 s =
             Ok tt (set_world (alter (subF Fv) p2 (alter (addF Fv) p1 (world s))) s).
Proof.
  eexists. unfold Fbond, mbind, M_bind, load, add_F, sub_F, modify. cbv zeta.
  unfold subF, addF. reflexivity.
Qed.


Lemma Fangle_final (s : @State RealDouble) p1 p2 p3 theta0 :
  exists F1 F3, world (final_state (Fangle p1 p2 p3 theta0 s)) =
                alter (subF (add F1 F3)) p2
                  (alter (addF F3) p3 (alter (addF F1) p1 (world s))).
Proof.
  unfold Fangle, mbind, M_bind, load. cbv zeta.
  destruct (dlt _ _).
  - exists zero_vec, zero_vec. simpl.
    rewrite !list_alter_id; [done | apply addF_zero | apply addF_zero |].
    intros P. replace (add zero_vec zero_vec) with (@zero_vec RealDouble).
    + apply subF_zero.
    + unfold add, zero_vec. simpl. f_equal; lra.
  - eexists _, _. unfold add_F, sub_F, modify, assert, subF, addF. simpl.
    destruct (_ || _); simpl; [destruct (_ || _); simpl|]; reflexivity.
Qed.

Lemma Vdihedral_run (s : @State RealDouble) p1 p2 p3 p4 phi0 :
  Vdihedral p1 p2 p3 p4 phi0 s = Ok (Vdihedral_value (world s) p1 p2 p3 p4 phi0) s.
Proof. reflexivity. Qed.

(** In exact arithmetic [pos += h; pos -= h] gives the position back. *)
Lemma pos_x_restore h (P : @Particle RealDouble) : pos_x_sub h (pos_x_add h P) = P.
Proof.
  destruct P as [[px py pz] vl fc ms]. unfold pos_x_sub, pos_x_add, set_pos, set_x. simpl.
  do 2 f_equal. lra.
Qed.
Lemma pos_y_restore h (P : @Particle RealDouble) : pos_y_sub h (pos_y_add h P) = P.
Proof.
  destruct P as [[px py pz] vl fc ms]. unfold pos_y_sub, pos_y_add, set_pos, set_y. simpl.
  do 2 f_equal. lra.
Qed.
Lemma pos_z_restore h (P : @Particle RealDouble) : pos_z_sub h (pos_z_add h P) = P.
Proof.
  destruct P as [[px py pz] vl fc ms]. unfold pos_z_sub, pos_z_add, set_pos, set_z. simpl.
  do 2 f_equal. lra.
Qed.

Lemma alter_restore (f g : @Particle RealDouble -> Particle) t (w : World) :
  (forall P, g (f P) = P) -> alter g t (alter f t w) = w.
Proof. intros H. rewrite list_alter_alter_eq. by apply list_alter_id. Qed.

(** One perturbation of the target, the potential read there, and the
    perturbation undone. *)
Lemma perturb_restore (f g : @Particle RealDouble -> Particle) t p1 p2 p3 p4 phi0
    (k : R -> M unit) (s : @State RealDouble) :
  (forall P, g (f P) = P) ->
  (modify t f;; V ← Vdihedral p1 p2 p3 p4 phi0; modify t g;; k V) s =
  k (Vdihedral_value (alter f t (world s)) p1 p2 p3 p4 phi0) s.
Proof.
  intros H. unfold mbind, M_bind, modify. rewrite Vdihedral_run. simpl.
  rewrite (alter_restore f g t (world s) H).
  by rewrite set_world_set_world, set_world_same.
Qed.

Lemma FdihedralParticle_run (s : @State RealDouble) t p1 p2 p3 p4 Vorig phi0 :
  FdihedralParticle t p1 p2 p3 p4 Vorig phi0 s =
  Ok tt (set_world
           (alter (addF (finite_difference_force (world s) t p1 p2 p3 p4 Vorig phi0))
              t (world s)) s).
Proof.
  unfold FdihedralParticle. cbv zeta.
  unfold mbind at 1, M_bind at 1, load at 1.
  erewrite (perturb_restore (pos_x_add _) (pos_x_sub _)); [|apply pos_x_restore].
  unfold mbind at 1, M_bind at 1, load at 1.
  erewrite (perturb_restore (pos_y_add _) (pos_y_sub _)); [|apply pos_y_restore].
  unfold mbind at 1, M_bind at 1, load at 1.
  erewrite (perturb_restore (pos_z_add _) (pos_z_sub _)); [|apply pos_z_restore].
  reflexivity.
Qed.

(** The finite differences read positions only: forces written in between
    do not change them. *)
Lemma pos_particle_alter_addF G p (w : World) q :
  pos (particle (alter (addF G) p w) q) = pos (particle w q).
Proof.
  unfold particle. rewrite list_lookup_alter.
  destruct (decide (p = q)) as [->|]; [|done].
  by destruct (w !! q).
Qed.

Lemma pos_particle_perturbed (f : @Particle RealDouble -> Particle) G p t (w : World) q :
  (forall P P', pos P = pos P' -> pos (f P) = pos (f P')) ->
  pos (particle (alter f t (alter (addF G) p w)) q) = pos (particle (alter f t w) q).
Proof.
  intros Hf. unfold particle. rewrite !list_lookup_alter.
  destruct (decide (t = q)) as [->|].
  - destruct (decide (p = q)) as [->|]; [|done].
    destruct (w !! q); simpl; [|done]. by apply Hf.
  - destruct (decide (p = q)) as [->|]; [|done].
    by destruct (w !! q).
Qed.

Lemma finite_difference_force_addF G p (w : World) t p1 p2 p3 p4 Vorig phi0 :
  finite_difference_force (alter (addF G) p w) t p1 p2 p3 p4 Vorig phi0 =
  finite_difference_force w t p1 p2 p3 p4 Vorig phi0.
Proof.
  unfold finite_difference_force, Vdihedral_value. cbv zeta.
  rewrite !pos_particle_alter_addF.
  rewrite !(pos_particle_perturbed (pos_x_add _)) by (by intros [] [] [= ->]).
  rewrite !(pos_particle_perturbed (pos_y_add _)) by (by intros [] [] [= ->]).
  rewrite !(pos_particle_perturbed (pos_z_add _)) by (by intros [] [] [= ->]).
  done.
Qed.

Lemma Vdihedral_value_addF G p (w : World) p1 p2 p3 p4 phi0 :
  Vdihedral_value (alter (addF G) p w) p1 p2 p3 p4 phi0 = Vdihedral_value w p1 p2 p3 p4 phi0.
Proof. unfold Vdihedral_value. by rewrite !pos_particle_alter_addF. Qed.

(** [Fdihedral]: each of the four particles receives its own vector of
    difference quotients, all taken at the positions of the call. *)
Lemma Fdihedral_run (s : @State RealDouble) p1 p2 p3 p4 phi0 :
  let w := world s in
  let Vorig := Vdihedral_value w p1 p2 p3 p4 phi0 in
  let G t := finite_difference_force w t p1 p2 p3 p4 Vorig phi0 in
  Fdihedral p1 p2 p3 p4 phi0 s =
  Ok tt (set_world (alter (addF (G p4)) p4 (alter (addF (G p3)) p3
                     (alter (addF (G p2)) p2 (alter (addF (G p1)) p1 w)))) s).
Proof.
  intros w Vorig G.
  unfold Fdihedral. unfold mbind at 1, M_bind at 1. rewrite Vdihedral_run.
  fold w Vorig.
  unfold mbind at 1, M_bind at 1. rewrite FdihedralParticle_run.
  unfold mbind at 1, M_bind at 1. rewrite FdihedralParticle_run.
  unfold mbind at 1, M_bind at 1. rewrite FdihedralParticle_run.
  rewrite FdihedralParticle_run.
  cbn [world set_world config sim_time stderr]. fold w.
  rewrite !finite_difference_force_addF. reflexivity.
Qed.

End RealForces.



Lemma cos_small_lt_1 (h : R) : (0 < h <= 1)%R -> (cos h < 1)%R.
Proof.
  intros [H0 H1]. rewrite <- cos_0. pose proof PI2_1.
  apply cos_decreasing_1; lra.
Qed.

Lemma Vdihedral_value_separation (w : list (@Particle RealDouble)) (phi0 : R) :
  @Vdihedral_value separation_vmath w 0 1 2 3 phi0 =
  (4 * 1.81e-21 * (1 - cos (x (pos (particle w 1)) - x (pos (particle w 0)) - phi0)))%R.
Proof. reflexivity. Qed.

(** The zero sum is not a consequence of how [Fdihedral] is written.  In
    exact arithmetic, with no coordinate equal to [0] and a torsion
    coordinate that is invariant under translation, the x components of the
    four vectors it adds sum to a negative number: the two particles that
    matter are differentiated with different steps [h]. *)
Lemma Fdihedral_exact_sum_not_zero :
  (x (total_force (world (final_state
       (@Fdihedral RealDouble RealLibm separation_vmath 0 1 2 3 1%R quad_state_R)))) < 0)%R.
Proof.
  pose proof (@Fdihedral_run separation_vmath quad_state_R 0%nat 1%nat 2%nat 3%nat 1%R)
    as Hrun.
  cbv zeta in Hrun. rewrite Hrun. clear Hrun.
  cbn [final_state world set_world quad_state_R].
  unfold total_force, sum_over.
  cbn [alter list_alter foldr x F addF set_F add rest_R pos vel m].
  unfold finite_difference_force. cbv zeta. cbn [x].
  rewrite !Vdihedral_value_separation.
  unfold particle, pos_x_add, set_pos, set_x.
  cbn [alter list_alter lookup list_lookup default from_option id rest_R pos x y z
       fmap option_fmap option_map Datatypes.id].
  change (@dadd RealDouble) with Rplus. change (@ddiv RealDouble) with Rdiv.
  change (@dsub RealDouble) with Rminus. change (@of_int RealDouble 0) with 0%R.
  replace (2 - 1 - 1)%R with 0%R by lra.
  replace (2 - (1 + 1 * 1e-8) - 1)%R with (Ropp 1e-8) by lra.
  replace (2 + 2 * 1e-8 - 1 - 1)%R with 2e-8%R by lra.
  rewrite cos_0, cos_neg.
  pose proof (cos_small_lt_1 1e-8 ltac:(lra)) as Hc0.
  pose proof (cos_small_lt_1 2e-8 ltac:(lra)) as Hc1.
  lra.
Qed.

(** ** The angle guard *)

Section AngleGuard.
Context {Dbl : Double} {LM : Libm Dbl}.
Local Open Scope dbl_scope.

(** When the test [fabs(sintheta) < 1e-30] succeeds, [Fangle] returns at
    once: nothing is written. *)
Lemma Fangle_guard_taken (s : State) p1 p2 p3 theta0 :
  let a := sub (pos (particle (world s) p1)) (pos (particle (world s) p2)) in
  let b := sub (pos (particle (world s) p3)) (pos (particle (world s) p2)) in
  (dfabs (Fangle_sintheta a b) <? lit SIN_CUTOFF_lit) = true ->
  Fangle p1 p2 p3 theta0 s = Ok tt s.
Proof.
  intros a b Hguard. unfold Fangle, mbind, M_bind, load. cbv zeta.
  fold a b. unfold Fangle_sintheta in Hguard. cbv zeta in Hguard.
  by rewrite Hguard.
Qed.

End AngleGuard.

Section AngleGuardExact.
Local Open Scope R_scope.

Lemma dot_self_nonneg (v : @Vec3 RealDouble) : 0 <= dot v v.
Proof.
  unfold dot. pose proof (Rle_0_sqr (x v)). pose proof (Rle_0_sqr (y v)).
  pose proof (Rle_0_sqr (z v)). unfold Rsqr in *. simpl. lra.
Qed.

Lemma length_sqr (v : @Vec3 RealDouble) : length v * length v = dot v v.
Proof. unfold length, length2. simpl. apply sqrt_sqrt, dot_self_nonneg. Qed.

(** In exact arithmetic two colinear, non-zero bond vectors have a computed
    sine of exactly [0]. *)
Lemma colinear_sintheta (a b : @Vec3 RealDouble) (k : R) :
  k <> 0 -> 0 < dot b b -> a = scale b k -> Fangle_sintheta a b = 0.
Proof.
  intros Hk Hb ->. unfold Fangle_sintheta. cbv zeta.
  set (la := length (scale b k)). set (lb := length b).
  set (ab := dot (scale b k) b). set (q := dot b b) in *.
  change (R_sqrt.sqrt (1 - ab / (la * lb) * (ab / (la * lb))) = 0).
  assert (Hla : la * la = k * k * q).
  { unfold la. rewrite length_sqr. unfold q, dot, scale. simpl. ring. }
  assert (Hlb : lb * lb = q) by apply length_sqr.
  assert (Hdot : ab = k * q).
  { unfold ab, q, dot, scale. simpl. ring. }
  assert (Hpos : 0 < k * k) by nra.
  assert (Hla0 : la <> 0) by (intros E; rewrite E in Hla; nra).
  assert (Hlb0 : lb <> 0) by (intros E; rewrite E in Hlb; nra).
  rewrite Hdot.
  replace (1 - k * q / (la * lb) * (k * q / (la * lb))) with 0.
  - apply sqrt_0.
  - transitivity (1 - (k * k * q) * q / ((la * la) * (lb * lb))).
    + rewrite Hla, Hlb. field. split; lra.
    + field. split; done.
Qed.

(** Hence, in exact arithmetic, [Fangle] adds nothing for an exactly
    colinear triplet of distinct particles. *)
Lemma Fangle_colinear_exact (s : @State RealDouble) p1 p2 p3 theta0 (k : R) :
  let a := sub (pos (particle (world s) p1)) (pos (particle (world s) p2)) in
  let b := sub (pos (particle (world s) p3)) (pos (particle (world s) p2)) in
  k <> 0 -> 0 < dot b b -> a = scale b k ->
  Fangle p1 p2 p3 theta0 s = Ok tt s.
Proof.
  intros a b Hk Hb Ha. apply Fangle_guard_taken. fold a b.
  rewrite (colinear_sintheta a b k Hk Hb Ha). simpl.
  rewrite Rabs_R0. apply Rltb_true. lra.
Qed.

End AngleGuardExact.

(** ** Exact arithmetic: the force pass writes forces only *)

Section RealFrame.
Context {VM : Vmath RealDouble}.
Local Open Scope R_scope.

Lemma same_kinematics_refl s : same_kinematics s s.
Proof. done. Qed.

Lemma same_kinematics_trans s1 s2 s3 :
  same_kinematics s1 s2 -> same_kinematics s2 s3 -> same_kinematics s1 s3.
Proof. unfold same_kinematics. intros (?&?&?&?) (?&?&?&?). repeat split; congruence. Qed.

Lemma kinematics_alter (f : @Particle RealDouble -> Particle) p (w : World) :
  (forall P, kinematics (f P) = kinematics P) ->
  kinematics <$> alter f p w = kinematics <$> w.
Proof.
  intros Hf. apply list_eq. intros i. rewrite !list_lookup_fmap, list_lookup_alter.
  destruct (decide (p = i)) as [->|]; [|done].
  destruct (w !! i); simpl; [by rewrite Hf | done].
Qed.

Lemma kin_modify p (f : @Particle RealDouble -> Particle) :
  (forall P, kinematics (f P) = kinematics P) -> preserving same_kinematics (modify p f).
Proof. intros Hf s. unfold same_kinematics; simpl. by rewrite kinematics_alter. Qed.

Lemma kin_bind {A B} (c : M A) (f : A -> M B) :
  preserving same_kinematics c -> (forall a, preserving same_kinematics (f a)) ->
  preserving same_kinematics (c ≫= f).
Proof. apply preserving_bind, same_kinematics_trans. Qed.

Lemma kin_for_loop body lo hi :
  (forall i, preserving same_kinematics (body i)) ->
  preserving same_kinematics (for_loop lo hi body).
Proof.
  apply preserving_for_loop; [apply same_kinematics_refl | apply same_kinematics_trans].
Qed.

Lemma kin_FdihedralParticle t p1 p2 p3 p4 V phi0 :
  preserving same_kinematics (FdihedralParticle t p1 p2 p3 p4 V phi0).
Proof.
  intros s. rewrite FdihedralParticle_run.
  unfold same_kinematics; simpl. by rewrite kinematics_alter.
Qed.

Ltac kin_step :=
  lazymatch goal with
  | |- preserving _ (mbind _ _) => apply kin_bind; [|intros ?]
  | |- preserving _ (mret _) => apply (preserving_ret _ same_kinematics_refl)
  | |- preserving _ (load _) => apply (preserving_load _ same_kinematics_refl)
  | |- preserving _ get_config => apply (preserving_get_config _ same_kinematics_refl)
  | |- preserving _ (assert _ _) => apply (preserving_assert _ same_kinematics_refl)
  | |- preserving _ (for_loop _ _ _) => apply kin_for_loop; intros ?
  | |- preserving _ (modify _ _) => apply kin_modify; intros ?; reflexivity
  | |- preserving _ (FdihedralParticle _ _ _ _ _ _ _) => apply kin_FdihedralParticle
  | |- preserving _ (if ?b then _ else _) => destruct b
  | |- preserving _ (let _ := _ in _) => cbv zeta
  end.

Lemma kin_Fbond p1 p2 d0 : preserving same_kinematics (Fbond p1 p2 d0).
Proof. unfold Fbond, add_F, sub_F. repeat kin_step. Qed.

Lemma kin_Fstack p1 p2 : preserving same_kinematics (Fstack p1 p2).
Proof. unfold Fstack, add_F, sub_F. repeat kin_step. Qed.

Lemma kin_Fangle p1 p2 p3 theta0 : preserving same_kinematics (Fangle p1 p2 p3 theta0).
Proof. unfold Fangle, add_F, sub_F. repeat kin_step. Qed.

Lemma kin_Fdihedral p1 p2 p3 p4 phi0 : preserving same_kinematics (Fdihedral p1 p2 p3 p4 phi0).
Proof.
  unfold Fdihedral. apply kin_bind.
  - intros s. apply same_kinematics_refl.
  - intros Vorig. repeat kin_step.
Qed.

(** In exact arithmetic a force pass, returned or aborted, leaves the
    position, the velocity and the mass of every particle, the
    configuration, the clock and stderr as they were. *)
Lemma calculateForces_frame_exact : preserving same_kinematics calculateForces.
Proof.
  unfold calculateForces.
  repeat lazymatch goal with
         | |- preserving _ (Fbond _ _ _) => apply kin_Fbond
         | |- preserving _ (Fstack _ _) => apply kin_Fstack
         | |- preserving _ (Fangle _ _ _ _) => apply kin_Fangle
         | |- preserving _ (Fdihedral _ _ _ _ _) => apply kin_Fdihedral
         | |- _ => kin_step
         end.
Qed.

End RealFrame.

(** * Further properties *)

(** ** The force pass and the step, for any arithmetic *)

Section StepFrames.
Context {Dbl : Double} {LM : Libm Dbl} {VM : Vmath Dbl}.
Local Open Scope dbl_scope.

Lemma fmap_eq_particle {B} (f : Particle -> B) (w w' : World) i :
  f <$> w' = f <$> w -> f (particle w' i) = f (particle w i).
Proof.
  intros H. apply (f_equal (fun l => l !! i)) in H.
  rewrite !list_lookup_fmap in H. unfold particle.
  destruct (w' !! i), (w !! i); simpl in *; congruence.
Qed.

Lemma same_vel_mass_same_masses s s' : same_vel_mass s s' -> same_masses s s'.
Proof.
  intros (H1 & H2 & H3 & H4). repeat split; try done.
  apply (f_equal (fmap snd)) in H4. by rewrite <- !list_fmap_compose in H4.
Qed.

Lemma same_masses_refl s : same_masses s s.
Proof. done. Qed.

Lemma same_masses_trans s1 s2 s3 :
  same_masses s1 s2 -> same_masses s2 s3 -> same_masses s1 s3.
Proof. intros (?&?&?&?) (?&?&?&?). repeat split; congruence. Qed.

Lemma masses_modify p (f : Particle -> Particle) :
  (forall P, m (f P) = m P) -> preserving same_masses (modify p f).
Proof.
  intros Hf s. unfold modify. repeat split; try done. simpl.
  apply list_eq. intros j. rewrite !list_lookup_fmap.
  rewrite list_lookup_alter.
  destruct (decide (p = j)) as [->|_]; [|reflexivity].
  destruct (world s !! j) as [P|]; [|reflexivity].
  change (Some (m (f P)) = Some (m P)). by rewrite Hf.
Qed.

Lemma masses_bind {A B} (c : M A) (f : A -> M B) :
  preserving same_masses c -> (forall a, preserving same_masses (f a)) ->
  preserving same_masses (c ≫= f).
Proof. apply preserving_bind, same_masses_trans. Qed.

Lemma masses_for_loop body lo hi :
  (forall i, preserving same_masses (body i)) -> preserving same_masses (for_loop lo hi body).
Proof. apply preserving_for_loop; [apply same_masses_refl|apply same_masses_trans]. Qed.

Lemma masses_calculateForces : preserving same_masses calculateForces.
Proof.
  intros s. pose proof (calculateForces_keeps_vel_mass s) as H.
  destruct (calculateForces s); by apply same_vel_mass_same_masses.
Qed.

Ltac masses_step :=
  lazymatch goal with
  | |- preserving _ (mbind _ _) => apply masses_bind; [|intros ?]
  | |- preserving _ (load _) => apply (preserving_load _ same_masses_refl)
  | |- preserving _ get_config => apply (preserving_get_config _ same_masses_refl)
  | |- preserving _ (assert _ _) => apply (preserving_assert _ same_masses_refl)
  | |- preserving _ (mret _) => apply (preserving_ret _ same_masses_refl)
  | |- preserving _ (modify _ _) => apply masses_modify; intros ?; reflexivity
  | |- preserving _ (for_loop _ _ _) => apply masses_for_loop; intros ?
  | |- preserving _ calculateForces => apply masses_calculateForces
  end.

Lemma masses_verlet : preserving same_masses verlet.
Proof.
  unfold verlet, verlet_kick_drift, verlet_kick. repeat masses_step.
Qed.

Lemma masses_thermostat : preserving same_masses thermostat.
Proof.
  unfold thermostat, temperature, kineticEnergy.
  apply masses_bind; [masses_step|intros cfg].
  destruct (thermostatTau cfg <=? #0); [masses_step|].
  apply masses_bind; [|intros ?; repeat masses_step].
  intros s. apply same_masses_refl.
Qed.

Lemma assert_physicsCheck_cases s :
  assert_physicsCheck s = Ok tt s \/
  exists PPM, assert_physicsCheck s =
    Abort PhysicsCheck (mkState (config s) (world s) (sim_time s)
                          (stderr s ++ [MomentumViolated PPM])).
Proof.
  unfold assert_physicsCheck, physicsCheck, momentum, mbind, M_bind, get_config, get_world,
    mret, M_ret. simpl.
  match goal with |- context [if ?b then _ else _] => destruct b end; simpl; eauto.
Qed.


(** X1. Whether it returns or is stopped by an assertion, [calculateForces]
    leaves the configuration, the clock, the error channel, the number of
    particles, and the velocity and the mass of every particle as they
    were.  This holds for both arithmetics. *)
Theorem calculateForces_writes_forces_only (s : State) :
  match calculateForces s with
  | Ok _ s' | Abort _ s' =>
      config s' = config s /\ sim_time s' = sim_time s /\ stderr s' = stderr s /\
      List.length (world s') = List.length (world s) /\
      forall p, vel (particle (world s') p) = vel (particle (world s) p) /\
                m (particle (world s') p) = m (particle (world s) p)
  end.
Proof.
  pose proof (calculateForces_keeps_vel_mass s) as Hvm.
  pose proof (shape_calculateForces s) as Hsh.
  destruct (calculateForces s) as [[] s'|e s'];
    destruct Hvm as (Hc & Ht & He & Hw), Hsh as (_ & Hl & _);
    (repeat split; try done;
     apply (fmap_eq_particle (fun P => (vel P, m P)) _ _ p) in Hw; congruence).
Qed.

(** X3. A call of [stepWorld] that returns has advanced [sim_time] by
    exactly [config.timeStep] and has printed nothing; one that is stopped
    by an assertion leaves [sim_time] as it was, and has printed a line
    only if the failed assertion is the momentum check.  In both cases the
    configuration and every mass are unchanged.  Both arithmetics. *)
Theorem stepWorld_clock_and_masses (s : State) :
  match stepWorld s with
  | Ok _ s' =>
      config s' = config s /\ sim_time s' = sim_time s + timeStep (config s) /\
      stderr s' = stderr s /\
      forall p, m (particle (world s') p) = m (particle (world s) p)
  | Abort e s' =>
      config s' = config s /\ sim_time s' = sim_time s /\
      (stderr s' = stderr s \/
       e = PhysicsCheck /\ exists PPM, stderr s' = stderr s ++ [MomentumViolated PPM]) /\
      forall p, m (particle (world s') p) = m (particle (world s) p)
  end.
Proof.
  rewrite stepWorld_sequence.
  pose proof (masses_verlet s) as H1.
  destruct (verlet s) as [[] s1|e s1].
  2: { destruct H1 as (?&?&?&Hm). repeat split; auto.
       intros p. apply (fmap_eq_particle m _ _ p Hm). }
  destruct (assert_physicsCheck_cases s1) as [-> | [PPM ->]].
  2: { destruct H1 as (?&?&Herr&Hm). simpl. repeat split; auto.
       - right. split; [done|]. exists PPM. by rewrite Herr.
       - intros p. apply (fmap_eq_particle m _ _ p Hm). }
  pose proof (masses_thermostat s1) as H2.
  destruct (thermostat s1) as [[] s2|e s2];
    pose proof (same_masses_trans _ _ _ H1 H2) as H12.
  2: { destruct H12 as (?&?&?&Hm). repeat split; auto.
       intros p. apply (fmap_eq_particle m _ _ p Hm). }
  destruct H12 as (Hc & Ht & Herr & Hm).
  destruct (assert_physicsCheck_cases s2) as [-> | [PPM ->]]; simpl.
  - rewrite Hc, Ht. repeat split; auto.
    intros p. apply (fmap_eq_particle m _ _ p Hm).
  - repeat split; auto.
    + right. split; [done|]. exists PPM. by rewrite Herr.
    + intros p. apply (fmap_eq_particle m _ _ p Hm).
Qed.

Lemma reset_force_local e :
  local_body (fun i =>
      modify i (fun P => set_F (set_x #0 (F P)) P);;
      modify i (fun P => set_F (set_y #0 (F P)) P);;
      modify i (fun P => set_F (set_z #0 (F P)) P))
    (fun _ => true) reset_force reset_force e.
Proof.
  intros i s Hi. unfold mbind, M_bind, modify. simpl.
  unfold set_world. simpl. do 2 f_equal.
  rewrite !list_alter_alter_eq. done.
Qed.

Lemma reset_force_kinematics (w1 w2 : World) :
  position_velocity_mass <$> w2 = position_velocity_mass <$> w1 ->
  reset_force <$> w2 = reset_force <$> w1.
Proof.
  intros H.
  assert (Hf : forall w : World,
             reset_force <$> w =
             (fun k : Vec3 * Vec3 * D => mkParticle k.1.1 k.1.2 (mkVec3 #0 #0 #0) k.2)
               <$> (position_velocity_mass <$> w)).
  { intros w. rewrite <- list_fmap_compose. apply list_fmap_ext. by intros _ [] _. }
  by rewrite !Hf, H.
Qed.

(** The globals after the first loop of [calculateForces] depend on
    positions, velocities and masses only. *)
Lemma reset_state_eq (s1 s2 : State) :
  config s2 = config s1 -> sim_time s2 = sim_time s1 -> stderr s2 = stderr s1 ->
  position_velocity_mass <$> world s2 = position_velocity_mass <$> world s1 ->
  set_world (reset_force <$> world s2) s2 = set_world (reset_force <$> world s1) s1.
Proof.
  intros Hc Ht He Hw. rewrite (reset_force_kinematics _ _ Hw).
  unfold set_world. by rewrite Hc, Ht, He.
Qed.

(** A force pass gives the same result from the zeroed accumulators. *)
Lemma calculateForces_after_reset (s : State) :
  List.length (world s) = (3 * numMonomers (config s))%nat ->
  calculateForces (set_world (reset_force <$> world s) s) = calculateForces s.
Proof.
  intros Hlen. set (s0 := set_world (reset_force <$> world s) s).
  assert (Hlen0 : List.length (world s0) = (3 * numMonomers (config s0))%nat).
  { unfold s0. cbn [world set_world config]. by rewrite length_fmap. }
  unfold calculateForces, mbind, M_bind, get_config.
  unfold for_loop at 1 3. rewrite !Nat.sub_0_r.
  rewrite !(for_count_local_ok _ _ _ _ VelNotNan (reset_force_local VelNotNan)) by (done || lia).
  rewrite <- Hlen0, alter_range_all.
  replace (numMonomers (config s0)) with (numMonomers (config s)) by done.
  rewrite <- Hlen, alter_range_all.
  replace (set_world (reset_force <$> world s0) s0) with s0; [done|].
  unfold s0. cbn [world set_world]. rewrite set_world_set_world.
  rewrite <- list_fmap_compose. reflexivity.
Qed.

(** X2. [calculateForces] starts by zeroing every accumulator, so on an
    allocated world its outcome does not depend on the forces stored
    before the call: two states that agree on the configuration, the
    clock, the error channel and on position, velocity and mass of every
    particle give the same result.  Both arithmetics. *)
Theorem calculateForces_ignores_old_forces (s1 s2 : State) :
  List.length (world s1) = (3 * numMonomers (config s1))%nat ->
  config s2 = config s1 -> sim_time s2 = sim_time s1 -> stderr s2 = stderr s1 ->
  position_velocity_mass <$> world s2 = position_velocity_mass <$> world s1 ->
  calculateForces s2 = calculateForces s1.
Proof.
  intros Hlen Hc Ht He Hw.
  assert (Hlen2 : List.length (world s2) = (3 * numMonomers (config s2))%nat).
  { rewrite Hc, <- Hlen. apply (f_equal List.length) in Hw. by rewrite !length_fmap in Hw. }
  rewrite <- (calculateForces_after_reset s1 Hlen), <- (calculateForces_after_reset s2 Hlen2).
  by rewrite (reset_state_eq s1 s2).
Qed.

End StepFrames.

Lemma calculateForces_ignores_old_forces_witness :
  calculateForces (VM := separation_vmath) pushed_state_R =
  calculateForces (VM := separation_vmath) demo_state_R.
Proof.
  apply (calculateForces_ignores_old_forces (VM := separation_vmath)
           demo_state_R pushed_state_R); reflexivity.
Defined.

(** ** Exact arithmetic: thermostat, bond, stacking and angle terms *)

Section RealThermostat.
Context {VM : Vmath RealDouble}.
Local Open Scope R_scope.

Lemma kinetic_energy_scaled lambda (w : World) :
  kinetic_energy (scale_velocity lambda <$> w) = lambda * lambda * kinetic_energy w.
Proof.
  unfold kinetic_energy. induction w as [|P w IH]; simpl; [lra|].
  unfold fmap in IH. rewrite IH. lra.
Qed.

Lemma total_momentum_scaled lambda (w : World) :
  total_momentum (scale_velocity lambda <$> w) = scale (total_momentum w) lambda.
Proof.
  unfold total_momentum, scale. simpl.
  f_equal; (induction w as [|P w IH]; simpl; [lra | unfold fmap in IH; rewrite IH; lra]).
Qed.

Lemma thermostat_enabled_run (s : @State RealDouble) :
  List.length (world s) = (3 * numMonomers (config s))%nat ->
  0 < thermostatTau (config s) ->
  thermostat s =
  Ok tt (set_world (scale_velocity (thermostat_lambda (config s) (temperature_value s))
                    <$> world s) s).
Proof.
  intros Hlen Htau. rewrite thermostat_run by done.
  change (thermostatTau (config s) <=? #0)%dbl with (Rleb (thermostatTau (config s)) 0).
  unfold Rleb. destruct (Rle_dec _ _); [lra|done].
Qed.

(** X4. The thermostat as a relaxation of the temperature, in exact
    arithmetic: on an allocated world with [tau > 0], a temperature
    [T <> 0] and a non-negative radicand, the temperature read after
    [thermostat] is [T + (dt/tau) * (T0 - T)]. *)
Theorem thermostat_relaxes_temperature (s : @State RealDouble) (T : R) :
  let T0 := thermostatTemp (config s) in
  let dt := timeStep (config s) in
  let tau := thermostatTau (config s) in
  List.length (world s) = (3 * numMonomers (config s))%nat ->
  temperature s = Ok T s ->
  0 < tau -> T <> 0 -> 0 <= 1 + dt / tau * (T0 / T - 1) ->
  exists s', thermostat s = Ok tt s' /\
             temperature s' = Ok (T + dt / tau * (T0 - T)) s'.
Proof.
  intros T0 dt tau Hlen HT Htau HT0 Hrad.
  rewrite temperature_run in HT. injection HT as HT.
  change (temperature_value s = T) in HT.
  eexists. split; [by apply thermostat_enabled_run|].
  rewrite temperature_run. f_equal.
  set (lambda := thermostat_lambda (config s) (temperature_value s)).
  assert (Hl : lambda * lambda = 1 + dt / tau * (T0 / T - 1)).
  { unfold lambda, thermostat_lambda. rewrite HT. apply sqrt_sqrt. exact Hrad. }
  unfold temperature_value in *.
  rewrite kineticEnergy_value_sum by (simpl; by rewrite length_fmap).
  rewrite kineticEnergy_value_sum in HT by done.
  cbn [world set_world config]. rewrite kinetic_energy_scaled.
  change dmul with Rmult in *. change ddiv with Rdiv in *.
  assert (Hlin : forall c K N : R, c * (lambda * lambda * K) / N = lambda * lambda * (c * K / N))
    by (intros; unfold Rdiv; ring).
  rewrite Hlin.
  rewrite HT, Hl.
  match goal with |- @eq _ ?a ?b => change (@eq R a b) end.
  field. split; lra.
Qed.

(** X5. In exact arithmetic, on an allocated world with the thermostat
    enabled ([tau > 0]), a temperature [T <> 0] and a non-negative
    radicand: [thermostat] multiplies the total momentum that [momentum]
    returns by its scale factor
    [lambda = sqrt(1 + (dt/tau) * (T0/T - 1))]; a total momentum of zero is
    still zero after it. *)
Theorem thermostat_scales_momentum (s : @State RealDouble) (P : Vec3) (T : R) :
  let T0 := thermostatTemp (config s) in
  let dt := timeStep (config s) in
  let tau := thermostatTau (config s) in
  let lambda := R_sqrt.sqrt (1 + dt / tau * (T0 / T - 1)) in
  List.length (world s) = (3 * numMonomers (config s))%nat ->
  momentum s = Ok P s ->
  temperature s = Ok T s ->
  0 < tau -> T <> 0 -> 0 <= 1 + dt / tau * (T0 / T - 1) ->
  exists s' : State,
    thermostat s = Ok tt s' /\
    momentum s' = Ok (scale P lambda) s' /\
    (P = zero_vec -> momentum s' = Ok zero_vec s').
Proof.
  intros T0 dt tau lambda Hlen HP HT Htau _ _.
  rewrite momentum_run in HP by done. injection HP as <-.
  rewrite temperature_run in HT. injection HT as HT.
  change (temperature_value s = T) in HT.
  rewrite thermostat_enabled_run by done.
  eexists. split; [done|].
  rewrite momentum_run by (simpl; by rewrite length_fmap).
  cbn [world set_world]. rewrite total_momentum_scaled.
  unfold thermostat_lambda. rewrite HT. fold T0 dt tau lambda.
  split; [done|].
  intros ->. do 2 f_equal. unfold scale, zero_vec. simpl.
  change (#0)%dbl with 0. f_equal; lra.
Qed.

End RealThermostat.

Section RealThermostatDemo.
Local Open Scope R_scope.

Lemma demo_temperature_value : temperature_value demo_state_R = 1 / (3 * 1.38065e-23).
Proof.
  unfold temperature_value, kineticEnergy_value, BOLTZMANN_CONSTANT. simpl.
  unfold length2, dot. simpl. field; lra.
Qed.

Lemma demo_thermostat_preconditions :
  0 < thermostatTau (config demo_state_R) /\
  temperature_value demo_state_R <> 0 /\
  0 <= 1 + timeStep (config demo_state_R) / thermostatTau (config demo_state_R) *
           (thermostatTemp (config demo_state_R) / temperature_value demo_state_R - 1).
Proof.
  rewrite demo_temperature_value. simpl.
  assert (H : 0 < 1 / (3 * 1.38065e-23)) by (apply Rdiv_lt_0_compat; lra).
  split; [lra|]. split; [lra|].
  assert (0 <= 300 / (1 / (3 * 1.38065e-23))) by (apply Rlt_le, Rdiv_lt_0_compat; lra).
  lra.
Qed.

Lemma thermostat_relaxes_temperature_witness :
  exists s', thermostat demo_state_R = Ok tt s' /\
             temperature s' =
             Ok (temperature_value demo_state_R
                 + 1 / 1 * (300 - temperature_value demo_state_R)) s'.
Proof.
  exact (thermostat_relaxes_temperature demo_state_R (temperature_value demo_state_R)
           eq_refl eq_refl
           (proj1 demo_thermostat_preconditions)
           (proj1 (proj2 demo_thermostat_preconditions))
           (proj2 (proj2 demo_thermostat_preconditions))).
Defined.

Lemma balanced_momentum : momentum balanced_state_R = Ok zero_vec balanced_state_R.
Proof.
  rewrite momentum_run by reflexivity. do 2 f_equal.
  unfold total_momentum, zero_vec. simpl. change (#0)%dbl with 0. f_equal; lra.
Qed.

Lemma balanced_temperature_value :
  temperature_value balanced_state_R = 2 / (9 * 1.38065e-23).
Proof.
  unfold temperature_value, kineticEnergy_value, BOLTZMANN_CONSTANT. simpl.
  unfold length2, dot. simpl. field; lra.
Qed.

Lemma balanced_thermostat_preconditions :
  0 < thermostatTau (config balanced_state_R) /\
  temperature_value balanced_state_R <> 0 /\
  0 <= 1 + timeStep (config balanced_state_R) / thermostatTau (config balanced_state_R) *
           (thermostatTemp (config balanced_state_R) / temperature_value balanced_state_R - 1).
Proof.
  rewrite balanced_temperature_value. simpl.
  assert (H : 0 < 2 / (9 * 1.38065e-23)) by (apply Rdiv_lt_0_compat; lra).
  split; [lra|]. split; [lra|].
  assert (0 <= 300 / (2 / (9 * 1.38065e-23))) by (apply Rlt_le, Rdiv_lt_0_compat; lra).
  lra.
Qed.

(** A world of zero total momentum and non-zero temperature: the momentum
    is still zero after the thermostat. *)
Lemma thermostat_scales_momentum_witness :
  exists s' : State,
    thermostat balanced_state_R = Ok tt s' /\
    momentum s' = Ok zero_vec s'.
Proof.
  destruct (thermostat_scales_momentum balanced_state_R zero_vec
              (temperature_value balanced_state_R)
              eq_refl balanced_momentum eq_refl
              (proj1 balanced_thermostat_preconditions)
              (proj1 (proj2 balanced_thermostat_preconditions))
              (proj2 (proj2 balanced_thermostat_preconditions)))
    as (s' & Hrun & _ & Hzero).
  exists s'. split; [exact Hrun | exact (Hzero eq_refl)].
Defined.

End RealThermostatDemo.

Section RealGradients.
Local Open Scope R_scope.

Lemma bond_potential_derivative d0 r :
  derivable_pt_lim (bond_potential d0) r (bond_potential' d0 r).
Proof.
  pose proof (derivable_pt_lim_minus _ _ r _ _ (derivable_pt_lim_id r)
                (derivable_pt_lim_const d0 r)) as Hd.
  pose proof (derivable_pt_lim_comp _ _ _ _ _ Hd (derivable_pt_lim_pow ((id - fct_cte d0)%F r) 2))
    as H2.
  pose proof (derivable_pt_lim_comp _ _ _ _ _ Hd (derivable_pt_lim_pow ((id - fct_cte d0)%F r) 4))
    as H4.
  pose proof (derivable_pt_lim_plus _ _ _ _ _
                (derivable_pt_lim_scal _ BOND_K1 _ _ H2)
                (derivable_pt_lim_scal _ BOND_K2 _ _ H4)) as H.
  eapply derivable_pt_lim_ext; [|
    match type of H with derivable_pt_lim _ _ ?l =>
      replace (bond_potential' d0 r) with l; [exact H|] end].
  - intros z. unfold bond_potential, plus_fct, mult_real_fct, comp, minus_fct, id, fct_cte.
    reflexivity.
  - unfold bond_potential', minus_fct, id, fct_cte. simpl. ring.
Qed.

Lemma bond_potential_nonneg d0 r : 0 <= bond_potential d0 r.
Proof.
  unfold bond_potential, BOND_K1, BOND_K2, EPSILON, FROM_ANGSTROM_SQUARED. simpl.
  pose proof (pow2_ge_0 (r - d0)). pose proof (pow2_ge_0 ((r - d0) ^ 2)).
  replace ((r - d0) ^ 4) with (((r - d0) ^ 2) ^ 2) by ring.
  apply Rplus_le_le_0_compat; apply Rmult_le_pos; try done; lra.
Qed.

Lemma bond_potential_equilibrium d0 : bond_potential d0 d0 = 0.
Proof. unfold bond_potential. ring. Qed.

Lemma stack_potential_derivative r :
  0 < r -> derivable_pt_lim stack_potential r (r * stack_force_factor r).
Proof.
  intros Hr.
  assert (Hp : forall n : nat, r ^ n <> 0) by (intros n; apply pow_nonzero; lra).
  pose proof (derivable_pt_lim_div _ _ r _ _ (derivable_pt_lim_const (sigma_R ^ 12) r)
                (derivable_pt_lim_pow r 12) (Hp 12%nat)) as H12.
  pose proof (derivable_pt_lim_div _ _ r _ _ (derivable_pt_lim_const (2 * sigma_R ^ 6) r)
                (derivable_pt_lim_pow r 6) (Hp 6%nat)) as H6.
  pose proof (derivable_pt_lim_scal _ eps_R _ _
                (derivable_pt_lim_plus _ _ _ _ _
                   (derivable_pt_lim_minus _ _ _ _ _ H12 H6)
                   (derivable_pt_lim_const 1 r))) as H.
  eapply derivable_pt_lim_ext; [|
    match type of H with derivable_pt_lim _ _ ?l =>
      replace (r * stack_force_factor r) with l; [exact H|] end].
  - intros z. unfold stack_potential, mult_real_fct, plus_fct, minus_fct, div_fct, fct_cte.
    reflexivity.
  - unfold stack_force_factor, fct_cte, Rsqr. simpl (Init.Nat.pred _).
    replace (INR 12) with 12 by (simpl; lra). replace (INR 6) with 6 by (simpl; lra).
    field. lra.
Qed.


(** X6. The bond term, in exact arithmetic, for two particles at distance
    [r > 0]: [Vbond] returns [V(r) = k1 (r - d0)^2 + k2 (r - d0)^4], which is
    never negative and is [0] at [r = d0]; [Fbond] adds [V'(r)] times the
    unit vector from the first particle to the second to the force on the
    first, and subtracts it from the force on the second: the force is
    minus the gradient of the potential. *)
Theorem bond_force_is_gradient (s : @State RealDouble) (p1 p2 : ptr) (d0 : R) :
  let P1 := particle (world s) p1 in
  let P2 := particle (world s) p2 in
  let r := distance (pos P1) (pos P2) in
  let Fv := scale (scale (sub (pos P2) (pos P1)) (1 / r)) (bond_potential' d0 r) in
  0 < r ->
  Vbond p1 p2 d0 s = Ok (bond_potential d0 r) s /\
  0 <= bond_potential d0 r /\
  bond_potential d0 d0 = 0 /\
  derivable_pt_lim (bond_potential d0) r (bond_potential' d0 r) /\
  Fbond p1 p2 d0 s =
  Ok tt (set_world (alter (fun P => set_F (sub (F P) Fv) P) p2
                      (alter (fun P => set_F (add (F P) Fv) P) p1 (world s))) s).
Proof.
  intros P1 P2 r Fv Hr. repeat split.
  - unfold Vbond, mbind, M_bind, load, mret, M_ret. cbv zeta. fold P1 P2 r.
    f_equal. unfold bond_potential. change dmul with Rmult. change dadd with Rplus.
    change dsub with Rminus.
    match goal with |- @eq _ ?u ?v => change (@eq R u v) end. ring.
  - apply bond_potential_nonneg.
  - apply bond_potential_equilibrium.
  - apply bond_potential_derivative.
  - unfold Fbond, mbind, M_bind, load, add_F, sub_F, modify. cbv zeta.
    fold P1 P2. rewrite distance_sym. fold r.
    change dmul with Rmult. change dadd with Rplus. change dsub with Rminus.
    change ddiv with Rdiv. change (#2)%dbl with 2. change (#4)%dbl with 4.
    change (#1)%dbl with 1.
    replace (2 * @BOND_K1 RealDouble * (r - d0) +
             4 * @BOND_K2 RealDouble * ((r - d0) * (r - d0) * (r - d0)))
      with (bond_potential' d0 r) by (unfold bond_potential'; ring).
    reflexivity.
Qed.

Lemma bond_force_is_gradient_witness :
  let r := distance (pos (particle (world demo_state_R) 0))
                    (pos (particle (world demo_state_R) 1)) in
  Vbond 0 1 D_SA demo_state_R = Ok (bond_potential D_SA r) demo_state_R.
Proof.
  exact (proj1 (bond_force_is_gradient demo_state_R 0 1 D_SA demo_distance_pos)).
Defined.

(** X7. The stacking term, in exact arithmetic, for two particles at
    distance [r > 0]: the factor [c] of the separation vector in [Fstack]
    is such that [c * r] is the derivative at [r] of the potential that
    [Vstack] returns, so that the force is minus its gradient. *)
Theorem stack_force_is_gradient (s : @State RealDouble) (p1 p2 : ptr) :
  let P1 := particle (world s) p1 in
  let P2 := particle (world s) p2 in
  let r := distance (pos P1) (pos P2) in
  let Fi := scale (sub (pos P2) (pos P1)) (stack_force_factor r) in
  0 < r ->
  Vstack p1 p2 s = Ok (stack_potential r) s /\
  derivable_pt_lim stack_potential r (r * stack_force_factor r) /\
  Fstack p1 p2 s =
  Ok tt (set_world (alter (fun P => set_F (sub (F P) Fi) P) p2
                      (alter (fun P => set_F (add (F P) Fi) P) p1 (world s))) s).
Proof.
  intros P1 P2 r Fi Hr. repeat split.
  - apply (Vstack_run s p1 p2 Hr).
  - apply (stack_potential_derivative r Hr).
  - apply (Fstack_run s p1 p2 Hr).
Qed.

Lemma stack_force_is_gradient_witness :
  let r := distance (pos (particle (world demo_state_R) 0))
                    (pos (particle (world demo_state_R) 1)) in
  derivable_pt_lim stack_potential r (r * stack_force_factor r).
Proof.
  exact (proj1 (proj2 (stack_force_is_gradient demo_state_R 0 1 demo_distance_pos))).
Defined.

End RealGradients.

Section RealAngle.
Local Open Scope R_scope.

Lemma dot_zero_vec_r (a : @Vec3 RealDouble) : dot a zero_vec = 0.
Proof. unfold dot, zero_vec. simpl. ring. Qed.

(** The vector [Fangle] puts on an outer particle has no component along
    the bond it ends. *)
Lemma Fangle_force_orthogonal (a b : @Vec3 RealDouble) (c k1 k2 : R) :
  length a <> 0 -> length b <> 0 ->
  k1 = 1 / (length a * length b) ->
  k2 = dot a b / (length a * length a * length a * length b) ->
  dot a (scale (sub (scale b k1) (scale a k2)) c) = 0.
Proof.
  intros Ha Hb -> ->. pose proof (length_sqr a) as Hsq.
  set (la := length a) in *. set (lb := length b) in *.
  unfold dot, scale, sub in *. simpl in *.
  set (ab := x a * x b + y a * y b + z a * z b) in *.
  transitivity (c * ab * (1 / (la * lb) -
                  (x a * x a + y a * y a + z a * z a) / (la * la * la * lb))).
  - unfold ab, Rdiv. ring.
  - rewrite <- Hsq. field. done.
Qed.

Lemma dot_sym (a b : @Vec3 RealDouble) : dot a b = dot b a.
Proof. unfold dot. simpl. ring. Qed.

Lemma Rabs_zero_quotient (u v : R) : Rltb (Rabs (0 / u / v)) (lit ORTHO_TOL_lit) = true.
Proof.
  apply Rltb_true. unfold Rdiv. rewrite !Rmult_0_l, Rabs_R0. simpl. lra.
Qed.

(** X8. The angle term, in exact arithmetic, when neither bond vector
    [a = pos1 - pos2], [b = pos3 - pos2] is zero: the vectors [F1] and [F3]
    that [Fangle] adds to the outer particles (and whose sum it subtracts
    from the central one) are orthogonal to [a] and to [b]; so both
    assertions of [Fangle] hold and the call returns whenever the
    quotients they test are defined ([F1] and [F3] not zero). *)
Theorem Fangle_forces_orthogonal {LM : Libm RealDouble} (s : @State RealDouble)
    (p1 p2 p3 : ptr) (theta0 : R) :
  let a := sub (pos (particle (world s) p1)) (pos (particle (world s) p2)) in
  let b := sub (pos (particle (world s) p3)) (pos (particle (world s) p2)) in
  length a <> 0 -> length b <> 0 ->
  exists F1 F3 : Vec3,
    dot a F1 = 0 /\ dot b F3 = 0 /\
    world (final_state (Fangle p1 p2 p3 theta0 s)) =
      alter (subF (add F1 F3)) p2 (alter (addF F3) p3 (alter (addF F1) p1 (world s))) /\
    (length F1 <> 0 -> length F3 <> 0 -> exists s', Fangle p1 p2 p3 theta0 s = Ok tt s').
Proof.
  intros a b Ha Hb.
  unfold Fangle, mbind, M_bind, load. cbv zeta. fold a b.
  destruct (dlt _ _).
  - exists zero_vec, zero_vec. rewrite !dot_zero_vec_r. repeat split.
    + simpl. rewrite !list_alter_id; [done | apply addF_zero | apply addF_zero |].
      intros P. replace (add zero_vec zero_vec) with (@zero_vec RealDouble).
      * apply subF_zero.
      * unfold add, zero_vec. simpl. f_equal; lra.
    + intros _ _. eexists. reflexivity.
  - set (F1 := scale (sub (scale b _) (scale a _)) _).
    set (F3 := scale (sub (scale a _) (scale b _)) _).
    assert (H1 : dot a F1 = 0) by (by apply Fangle_force_orthogonal).
    assert (H3 : dot b F3 = 0).
    { apply Fangle_force_orthogonal; [done|done| |].
      - change (1 / (length a * length b) = 1 / (length b * length a)).
        by rewrite (Rmult_comm (length a)).
      - change (dot a b / (length b * length b * length b * length a)
                = dot b a / (length b * length b * length b * length a)).
        by rewrite (dot_sym a b). }
    exists F1, F3. split; [done|]. split; [done|].
    unfold add_F, sub_F, modify, assert. cbn [world set_world].
    change ddiv with Rdiv. change dfabs with Rabs. change dlt with Rltb.
    rewrite H1, H3, !Rabs_zero_quotient, !orb_true_r.
    split; [reflexivity|]. intros _ _. eexists. reflexivity.
Qed.

Lemma demo_bond_lengths :
  length (sub (pos (particle (world demo_state_R) 0)) (pos (particle (world demo_state_R) 1)))
    <> 0 /\
  length (sub (pos (particle (world demo_state_R) 2)) (pos (particle (world demo_state_R) 1)))
    <> 0.
Proof.
  unfold length, length2, dot, sub; simpl. split.
  - apply Rgt_not_eq, sqrt_lt_R0. lra.
  - apply Rgt_not_eq, sqrt_lt_R0. lra.
Qed.

Lemma Fangle_forces_orthogonal_witness :
  exists F1 F3 : Vec3,
    dot (sub (pos (particle (world demo_state_R) 0)) (pos (particle (world demo_state_R) 1)))
        F1 = 0 /\
    dot (sub (pos (particle (world demo_state_R) 2)) (pos (particle (world demo_state_R) 1)))
        F3 = 0 /\
    world (final_state (Fangle 0 1 2 ANGLE_P_5S_A demo_state_R)) =
      alter (subF (add F1 F3)) 1%nat
        (alter (addF F3) 2%nat (alter (addF F1) 0%nat (world demo_state_R))) /\
    (length F1 <> 0 -> length F3 <> 0 ->
     exists s', Fangle 0 1 2 ANGLE_P_5S_A demo_state_R = Ok tt s').
Proof.
  exact (Fangle_forces_orthogonal demo_state_R 0 1 2 ANGLE_P_5S_A
           (proj1 demo_bond_lengths) (proj2 demo_bond_lengths)).
Defined.

End RealAngle.

(** ** IEEE-754 binary64: zeros, infinities and NaN *)

Section SpecialValueFacts.
Local Open Scope float_scope.

Lemma isnan_nan (u : float) : float_isnan u = true -> u = nan.
Proof.
  unfold float_isnan. rewrite eqb_spec. intros H.
  apply Prim2SF_inj. rewrite Prim2SF_nan.
  destruct (Prim2SF u) as [sg|sg| |sg mant e]; try done.
  - by destruct sg.
  - unfold SFeqb, SFcompare in H. destruct sg; rewrite Z.compare_refl in H;
      simpl in H; by rewrite Pos.compare_cont_refl in H.
Qed.

Lemma add_nan_r (u : float) : u + nan = nan.
Proof.
  apply Prim2SF_inj. rewrite add_spec, Prim2SF_nan.
  unfold SF64add, SFadd. by destruct (Prim2SF u).
Qed.

Lemma sub_nan_r (u : float) : u - nan = nan.
Proof.
  apply Prim2SF_inj. rewrite sub_spec, Prim2SF_nan.
  unfold SF64sub, SFsub. by destruct (Prim2SF u).
Qed.

Lemma mul_nan_l (u : float) : nan * u = nan.
Proof. apply Prim2SF_inj. by rewrite mul_spec, Prim2SF_nan. Qed.

Lemma mul_nan_r (u : float) : u * nan = nan.
Proof.
  apply Prim2SF_inj. rewrite mul_spec, Prim2SF_nan.
  unfold SF64mul, SFmul. by destruct (Prim2SF u).
Qed.

Lemma div_nan_l (u : float) : nan / u = nan.
Proof. apply Prim2SF_inj. by rewrite div_spec, Prim2SF_nan. Qed.

Lemma ltb_nan_r (u : float) : (u <? nan) = false.
Proof.
  rewrite ltb_spec, Prim2SF_nan. unfold SFltb, SFcompare. by destruct (Prim2SF u).
Qed.

Lemma zero_or_nan_nan : zero_or_nan nan.
Proof. done. Qed.

Lemma zero_or_nan_zero : zero_or_nan 0.
Proof. done. Qed.

(** [v - v] is [+0] or NaN. *)
Lemma sub_diag_cases (v : float) : v - v = 0 \/ v - v = nan.
Proof.
  assert (H : Prim2SF (v - v) = S754_zero false \/ Prim2SF (v - v) = S754_nan).
  { rewrite sub_spec. unfold SF64sub, SFsub.
    destruct (Prim2SF v) as [sg|sg| |sg mant e]; try (destruct sg; auto; fail); auto.
    rewrite Z.min_id. left.
    replace (cond_Zopp sg (Z.pos (fst (shl_align mant e e))) -
             cond_Zopp sg (Z.pos (fst (shl_align mant e e))))%Z with 0%Z by lia.
    reflexivity. }
  destruct H as [H|H]; [left|right]; apply Prim2SF_inj; by rewrite H.
Qed.

Lemma zero_or_nan_mul_r (u w : float) : zero_or_nan w -> zero_or_nan (u * w).
Proof.
  unfold zero_or_nan. rewrite mul_spec. unfold SF64mul, SFmul.
  destruct (Prim2SF u), (Prim2SF w); done.
Qed.

Lemma zero_or_nan_mul_l (u w : float) : zero_or_nan w -> zero_or_nan (w * u).
Proof.
  unfold zero_or_nan. rewrite mul_spec. unfold SF64mul, SFmul.
  destruct (Prim2SF u), (Prim2SF w); done.
Qed.

Lemma zero_or_nan_add (u w : float) : zero_or_nan u -> zero_or_nan w -> zero_or_nan (u + w).
Proof.
  unfold zero_or_nan. rewrite add_spec. unfold SF64add, SFadd.
  destruct (Prim2SF u) as [[]| | |], (Prim2SF w) as [[]| | |]; done.
Qed.

Lemma zero_or_nan_div_l (u w : float) : zero_or_nan w -> zero_or_nan (w / u).
Proof.
  unfold zero_or_nan. rewrite div_spec. unfold SF64div, SFdiv.
  destruct (Prim2SF u), (Prim2SF w); done.
Qed.

Lemma zero_or_nan_sqrt (w : float) : zero_or_nan w -> zero_or_nan (sqrt w).
Proof.
  unfold zero_or_nan. rewrite sqrt_spec. unfold SF64sqrt, SFsqrt.
  destruct (Prim2SF w); done.
Qed.

Lemma zero_or_nan_div (u w : float) : zero_or_nan u -> zero_or_nan w -> u / w = nan.
Proof.
  unfold zero_or_nan. intros Hu Hw. apply Prim2SF_inj.
  rewrite div_spec, Prim2SF_nan. unfold SF64div, SFdiv.
  destruct (Prim2SF u), (Prim2SF w); done.
Qed.

Lemma infinite_or_nan_mul_r (u w : float) :
  Prim2SF u = S754_infinity false -> infinite_or_nan (u * w).
Proof.
  unfold infinite_or_nan. rewrite mul_spec. intros ->. unfold SF64mul, SFmul.
  destruct (Prim2SF w); done.
Qed.

End SpecialValueFacts.

(** ** The momentum check, for both arithmetics *)

(** C9. [physicsCheck] on an allocated world.  [P] is what [momentum]
    returns: the sum of [m v] accumulated over the [3 * numMonomers]
    particles of the block, first particle first; [PPM] is
    [|P| / numMonomers].

    For both arithmetics: the check returns false, after appending one
    diagnostic to stderr, when the comparison [PPM > 1e-20] holds, and
    returns true, writing nothing, when it does not hold.  In both cases it
    returns, and the configuration, the particles and the clock are as they
    were.

    In binary64 the comparison does not hold when [PPM] is NaN: the check
    then returns true. *)
Theorem physicsCheck_threshold :
  (forall (Dbl : Double) (s : @State Dbl),
     List.length (world s) = (3 * numMonomers (config s))%nat ->
     let P := foldl (fun Ptot Q => add (scale (vel Q) (m Q)) Ptot) zero_vec (world s) in
     let PPM := (length P / #(Z.of_nat (numMonomers (config s))))%dbl in
     momentum s = Ok P s /\
     physicsCheck s =
     if (PPM >? lit PPM_MAX_lit)%dbl
     then Ok false (mkState (config s) (world s) (sim_time s)
                      (stderr s ++ [MomentumViolated PPM]))
     else Ok true s) /\
  (forall s : @State FloatDouble,
     List.length (world s) = (3 * numMonomers (config s))%nat ->
     let P := foldl (fun Ptot Q => add (scale (vel Q) (m Q)) Ptot) zero_vec (world s) in
     let PPM := (length P / float_of_int (Z.of_nat (numMonomers (config s))))%float in
     float_isnan PPM = true ->
     physicsCheck s = Ok true s).
Proof.
  assert (Hany : forall (Dbl : Double) (s : @State Dbl),
            List.length (world s) = (3 * numMonomers (config s))%nat ->
            physicsCheck s =
            if (length (Ptot_accumulated (world s))
                / #(Z.of_nat (numMonomers (config s))) >? lit PPM_MAX_lit)%dbl
            then Ok false (mkState (config s) (world s) (sim_time s)
                             (stderr s ++ [MomentumViolated
                                (length (Ptot_accumulated (world s))
                                 / #(Z.of_nat (numMonomers (config s))))%dbl]))
            else Ok true s).
  { intros Dbl s Hlen. unfold physicsCheck, mbind, M_bind, get_config.
    rewrite (momentum_accumulated s Hlen). by destruct (dlt _ _). }
  split.
  - intros Dbl s Hlen P PPM. split.
    + apply (momentum_accumulated s Hlen).
    + apply (Hany Dbl s Hlen).
  - intros s Hlen P PPM Hnan.
    assert (Hlt : @dlt FloatDouble (@lit FloatDouble PPM_MAX_lit) PPM = false).
    { rewrite (isnan_nan PPM Hnan). apply ltb_nan_r. }
    rewrite (Hany FloatDouble s Hlen).
    lazymatch goal with
    | |- (if ?b then _ else _) = _ =>
        change b with (@dlt FloatDouble (@lit FloatDouble PPM_MAX_lit) PPM)
    end.
    by rewrite Hlt.
Qed.

(** In binary64, velocities [1e16], [1] and [-1e16] of three unit masses
    accumulate to [0] ([1e16 + 1] rounds to [1e16]), and the check
    passes; so it does on a world with a NaN in a velocity. *)
Lemma physicsCheck_threshold_witness :
  (momentum cancelling_state = Ok (fvec 0 0 0) cancelling_state /\
   physicsCheck cancelling_state = Ok true cancelling_state) /\
  physicsCheck nan_velocity_state = Ok true nan_velocity_state.
Proof.
  split.
  - exact (proj1 physicsCheck_threshold FloatDouble cancelling_state eq_refl).
  - exact (proj2 physicsCheck_threshold nan_velocity_state eq_refl eq_refl).
Defined.


(** ** IEEE-754 binary64: what the checks miss *)

Section FloatChecks.
#[local] Existing Instance FloatDouble.
Local Open Scope float_scope.

Lemma vel_not_nan_false (P : @Particle FloatDouble) :
  vel_not_nan P = false -> has_nan (vel P).
Proof.
  unfold vel_not_nan, has_nan. simpl.
  destruct (float_isnan (x (vel P))) eqn:Hx; [left; by apply isnan_nan|].
  destruct (float_isnan (y (vel P))) eqn:Hy; [right; left; by apply isnan_nan|].
  destruct (float_isnan (z (vel P))) eqn:Hz; [right; right; by apply isnan_nan|].
  done.
Qed.

Lemma has_nan_add_r (u v : @Vec3 FloatDouble) : has_nan v -> has_nan (add u v).
Proof.
  unfold has_nan, add. simpl.
  intros [->| [->| ->]]; rewrite add_nan_r; auto.
Qed.

Lemma has_nan_add_scale (u v : @Vec3 FloatDouble) k : has_nan u -> has_nan (add (scale u k) v).
Proof.
  unfold has_nan, add, scale. simpl.
  intros [->| [->| ->]]; rewrite mul_nan_l, add_nan_l; auto.
Qed.

Lemma momentum_loop_keeps_nan (w : World) count : forall i Ptot,
  has_nan Ptot -> has_nan (momentum_loop w i count Ptot).
Proof.
  induction count as [|c IH]; intros i Ptot H; simpl; [done|].
  apply IH. by apply has_nan_add_r.
Qed.

Lemma momentum_loop_has_nan (w : World) j count : forall i Ptot,
  (i <= j < i + count)%nat -> has_nan (vel (particle w j)) ->
  has_nan (momentum_loop w i count Ptot).
Proof.
  induction count as [|c IH]; intros i Ptot Hj H; simpl; [lia|].
  destruct (decide (j = i)) as [->|Hne].
  - apply momentum_loop_keeps_nan. by apply has_nan_add_scale.
  - apply IH; [lia|done].
Qed.

Lemma length_has_nan (v : @Vec3 FloatDouble) : has_nan v -> length v = nan.
Proof.
  unfold has_nan, length, length2, dot. simpl.
  intros [->| [->| ->]].
  - by rewrite mul_nan_l, !add_nan_l.
  - by rewrite mul_nan_l, add_nan_r, add_nan_l.
  - by rewrite mul_nan_l, add_nan_r.
Qed.

(** X9. In binary64, when some particle of the block has a NaN in a
    component of its velocity, [physicsCheck] returns [true] and prints
    nothing: the total momentum is NaN and [NaN > 1e-20] is false. *)
Theorem physicsCheck_passes_on_nan_velocity (s : @State FloatDouble) (j : nat) :
  (j < 3 * numMonomers (config s))%nat ->
  vel_not_nan (particle (world s) j) = false ->
  physicsCheck s = Ok true s.
Proof.
  intros Hj Hnan.
  unfold physicsCheck, momentum, mbind, M_bind, get_config, get_world, mret, M_ret.
  rewrite (length_has_nan (momentum_loop _ _ _ _)).
  - simpl. by rewrite div_nan_l, ltb_nan_r.
  - apply (momentum_loop_has_nan _ j); [lia|]. by apply vel_not_nan_false.
Qed.

Lemma physicsCheck_passes_on_nan_velocity_witness :
  physicsCheck nan_velocity_state = Ok true nan_velocity_state.
Proof.
  apply (physicsCheck_passes_on_nan_velocity nan_velocity_state 0); [simpl; lia|reflexivity].
Defined.

(** The direction [Fbond] computes for two particles at the same place. *)
Lemma coincident_direction (v : @Vec3 FloatDouble) :
  scale (sub v v) (1 / length (sub v v)) = fvec nan nan nan.
Proof.
  unfold scale, sub, length, length2, dot, fvec. simpl.
  destruct (sub_diag_cases (x v)) as [-> | ->], (sub_diag_cases (y v)) as [-> | ->],
    (sub_diag_cases (z v)) as [-> | ->]; reflexivity.
Qed.

Lemma scale_nan k : scale (fvec nan nan nan) k = fvec nan nan nan.
Proof. unfold scale, fvec. simpl. by rewrite mul_nan_l. Qed.

(** X10. In binary64, [Fbond] on two particles at the same position
    (whatever the position, [d0] and the forces stored) returns normally
    and leaves NaN in the three force components of both: the direction is
    [0 * (1/0)]. *)
Theorem Fbond_coincident_writes_nan (s : @State FloatDouble) (p1 p2 : ptr) (d0 : float) :
  pos (particle (world s) p1) = pos (particle (world s) p2) ->
  Fbond p1 p2 d0 s =
  Ok tt (set_world (alter nan_force p2 (alter nan_force p1 (world s))) s).
Proof.
  intros Hpos. unfold Fbond, mbind, M_bind, load, add_F, sub_F, modify. cbv zeta.
  rewrite Hpos, coincident_direction, scale_nan.
  unfold set_world. simpl. do 2 f_equal.
  apply list_alter_ext.
  - intros P _. unfold nan_force, set_F, sub, fvec. simpl. by rewrite !sub_nan_r.
  - apply list_alter_ext; [|done].
    intros P _. unfold nan_force, set_F, add, fvec. simpl. by rewrite !add_nan_r.
Qed.

Lemma Fbond_coincident_writes_nan_witness :
  Fbond 0 1 (@D_SA FloatDouble) coincident_state =
  Ok tt (set_world (alter nan_force 1%nat (alter nan_force 0%nat (world coincident_state)))
           coincident_state).
Proof.
  apply (Fbond_coincident_writes_nan coincident_state 0 1 (@D_SA FloatDouble)). reflexivity.
Defined.

End FloatChecks.

Section FloatAngle.
#[local] Existing Instance FloatDouble.
Local Open Scope float_scope.

Lemma zero_or_nan_dot_r (a v : @Vec3 FloatDouble) :
  zero_or_nan (x v) -> zero_or_nan (y v) -> zero_or_nan (z v) -> zero_or_nan (dot a v).
Proof.
  intros Hx Hy Hz. unfold dot.
  repeat apply zero_or_nan_add; by apply zero_or_nan_mul_r.
Qed.

Lemma zero_or_nan_length (v : @Vec3 FloatDouble) :
  zero_or_nan (x v) -> zero_or_nan (y v) -> zero_or_nan (z v) -> zero_or_nan (length v).
Proof.
  intros Hx Hy Hz. unfold length, length2. apply zero_or_nan_sqrt.
  by apply zero_or_nan_dot_r.
Qed.

Lemma equilibrium_factor (theta0 st : float) :
  zero_or_nan (@BOND_Ktheta FloatDouble * (theta0 - theta0) / st).
Proof.
  apply zero_or_nan_div_l.
  destruct (sub_diag_cases theta0) as [-> | ->].
  - vm_compute. done.
  - rewrite mul_nan_r. done.
Qed.

(** The test of [Fangle]'s assertions on a vector [scale v c] with [c] a
    zero or NaN. *)
Lemma orthogonality_test_fails (a v : @Vec3 FloatDouble) (c : float) :
  zero_or_nan c ->
  (@BOND_Ktheta FloatDouble =? 0) ||
  (abs (dot a (scale v c) / length a / length (scale v c)) <? lit ORTHO_TOL_lit) = false.
Proof.
  intros Hc.
  rewrite (zero_or_nan_div (dot a (scale v c) / length a) (length (scale v c))).
  - vm_compute. reflexivity.
  - apply zero_or_nan_div_l, zero_or_nan_dot_r; by apply zero_or_nan_mul_r.
  - apply zero_or_nan_length; by apply zero_or_nan_mul_r.
Qed.

(** X11. In binary64, when the angle that [acos] returns is exactly
    [theta0] and the guard on [sintheta] is not taken, [Fangle] is stopped
    by its own first assertion: the force [F1] is a vector of zeros (or
    NaN), so the quotient [dot(a,F1) / |a| / |F1|] is [0/0 = NaN] and the
    comparison with [1e-5] is false. *)
Theorem Fangle_aborts_at_equilibrium (LM : Libm FloatDouble) (s : @State FloatDouble)
    (p1 p2 p3 : ptr) (theta0 : float) :
  let a := sub (pos (particle (world s) p1)) (pos (particle (world s) p2)) in
  let b := sub (pos (particle (world s) p3)) (pos (particle (world s) p2)) in
  dacos (dot a b / (length a * length b)) = theta0 ->
  (abs (Fangle_sintheta a b) <? lit SIN_CUTOFF_lit) = false ->
  exists s', Fangle p1 p2 p3 theta0 s = Abort AngleF1Orthogonal s'.
Proof.
  intros a b Hacos Hguard.
  unfold Fangle, mbind, M_bind, load. cbv zeta. fold a b.
  unfold Fangle_sintheta in Hguard. cbv zeta in Hguard.
  change (dfabs ?u <? ?v)%dbl with (abs u <? v).
  rewrite Hguard, Hacos.
  unfold add_F, sub_F, modify, assert. cbn [world set_world].
  change (dfabs ?u <? ?v)%dbl with (abs u <? v).
  change (BOND_Ktheta =? #0)%dbl with (@BOND_Ktheta FloatDouble =? 0).
  rewrite orthogonality_test_fails by apply equilibrium_factor.
  eexists. reflexivity.
Qed.

Lemma Fangle_aborts_at_equilibrium_witness :
  exists s', Fangle (LM := constant_libm (@ANGLE_P_5S_A FloatDouble)) 0 1 2
               (@ANGLE_P_5S_A FloatDouble) right_angle_state
             = Abort AngleF1Orthogonal s'.
Proof.
  apply (Fangle_aborts_at_equilibrium (constant_libm (@ANGLE_P_5S_A FloatDouble))
           right_angle_state 0 1 2 (@ANGLE_P_5S_A FloatDouble)); reflexivity.
Defined.

End FloatAngle.

(** ** fillWorld *)

Section Fill.
Context {Dbl : Double} {LM : Libm Dbl} {LL : LibmLog Dbl} {ML : MoreLiterals Dbl}.
Local Open Scope dbl_scope.

Ltac through_alters :=
  repeat first [ rewrite particle_alter_ne by lia
               | rewrite particle_alter_eq by (rewrite ?length_alter; lia) ].

Lemma jitter_pair RAND_MAX rand_values posStdev (bump : D -> Particle -> Particle) p
    (w : World) (c : nat) :
  jitter RAND_MAX rand_values posStdev bump p (w, c) =
  (alter (bump (posStdev * fst (randNorm RAND_MAX rand_values c))) p w, S (S c)).
Proof. reflexivity. Qed.

Lemma particle_lookup_eq (w w' : World) j : w' !! j = w !! j -> particle w' j = particle w j.
Proof. unfold particle. by intros ->. Qed.

(** One turn of the loop of [fillWorld]. *)
Lemma fillWorld_monomer_run RAND_MAX rand_values (n i : nat) (w : World) (c : nat) :
  (i < n)%nat -> (3 * n <= List.length w)%nat ->
  let st' := fillWorld_monomer RAND_MAX rand_values n i (w, c) in
  snd st' = (18 + c)%nat /\
  List.length (fst st') = List.length w /\
  (forall j, j <> i -> j <> (n + i)%nat -> j <> (2 * n + i)%nat -> fst st' !! j = w !! j) /\
  particle (fst st') (Ss n i) =
    mkParticle (jittered RAND_MAX rand_values (site_S n i) c) zero_vec
      (F (particle w (Ss n i))) MASS_S /\
  particle (fst st') (As n i) =
    mkParticle (jittered RAND_MAX rand_values (site_A n i) (6 + c)) zero_vec
      (F (particle w (As n i))) MASS_A /\
  particle (fst st') (Ps n i) =
    mkParticle (jittered RAND_MAX rand_values (site_P n i) (12 + c)) zero_vec
      (F (particle w (Ps n i))) MASS_P.
Proof.
  intros Hi Hlen.
  unfold fillWorld_monomer. cbv zeta. cbn [fst snd].
  rewrite !jitter_pair. cbn [fst snd]. unfold Ss, As, Ps.
  split; [reflexivity|]. split; [by rewrite !length_alter|].
  split; [intros j H1 H2 H3; by rewrite !list_lookup_alter_ne by lia|].
  repeat split; through_alters; reflexivity.
Qed.


Lemma fillWorld_loop_run RAND_MAX rand_values (n : nat) : forall count i (w : World) (c : nat),
  (i + count <= n)%nat -> (3 * n <= List.length w)%nat ->
  let st' := fillWorld_loop RAND_MAX rand_values n i count (w, c) in
  snd st' = (18 * count + c)%nat /\
  List.length (fst st') = List.length w /\
  (forall j, (forall k, (i <= k < i + count)%nat ->
                        j <> k /\ j <> (n + k)%nat /\ j <> (2 * n + k)%nat) ->
             fst st' !! j = w !! j) /\
  (forall k, (i <= k < i + count)%nat ->
     particle (fst st') (Ss n k) =
       mkParticle (jittered RAND_MAX rand_values (site_S n k) (18 * (k - i) + c)) zero_vec
         (F (particle w (Ss n k))) MASS_S /\
     particle (fst st') (As n k) =
       mkParticle (jittered RAND_MAX rand_values (site_A n k) (6 + (18 * (k - i) + c))) zero_vec
         (F (particle w (As n k))) MASS_A /\
     particle (fst st') (Ps n k) =
       mkParticle (jittered RAND_MAX rand_values (site_P n k) (12 + (18 * (k - i) + c))) zero_vec
         (F (particle w (Ps n k))) MASS_P).
Proof.
  induction count as [|count IH]; intros i w c Hi Hlen; cbn [fillWorld_loop]; cbv zeta.
  - repeat split; try done; try lia; intros k Hk; lia.
  - destruct (fillWorld_monomer_run RAND_MAX rand_values n i w c) as
      (Hc1 & Hl1 & Hout1 & HS1 & HA1 & HP1); [lia|done|].
    destruct (fillWorld_monomer RAND_MAX rand_values n i (w, c)) as [w1 c1].
    cbn [fst snd] in *. subst c1.
    destruct (IH (S i) w1 (18 + c)%nat) as (Hc & Hl & Hout & Hin); [lia|lia|].
    split; [lia|]. split; [lia|].
    split.
    + intros j Hj. rewrite Hout.
      * apply Hout1; apply (Hj i); lia.
      * intros k Hk. apply Hj. lia.
    + intros k Hk. destruct (decide (k = i)) as [->|Hne].
      * assert (Hsame : forall j, j = i \/ j = (n + i)%nat \/ j = (2 * n + i)%nat ->
                    particle (fst (fillWorld_loop RAND_MAX rand_values n (S i) count
                                     (w1, (18 + c)%nat))) j
                    = particle w1 j).
        { intros j Hj. apply particle_lookup_eq, Hout. intros k' Hk'. lia. }
        unfold Ss, As, Ps in *. rewrite !Hsame by lia.
        rewrite Nat.sub_diag. auto.
      * destruct (Hin k) as (HS & HA & HP); [lia|].
        assert (Hold : forall j, j = k \/ j = (n + k)%nat \/ j = (2 * n + k)%nat ->
                                 particle w1 j = particle w j).
        { intros j Hj. apply particle_lookup_eq, Hout1; lia. }
        unfold Ss, As, Ps in *.
        rewrite HS, HA, HP, !Hold by lia.
        replace (18 * (k - S i) + (18 + c))%nat with (18 * (k - i) + c)%nat by lia.
        auto.
Qed.

(** The particles of the block after [fillWorld]. *)
Lemma fillWorld_particles RAND_MAX rand_values (cfg : Config) (w : World) (calls : nat) :
  let n := numMonomers cfg in
  let w' := fst (fillWorld RAND_MAX rand_values cfg (w, calls)) in
  (3 * n <= List.length w)%nat ->
  List.length w' = List.length w /\
  (forall i, (i < n)%nat ->
     particle w' (Ss n i) =
       mkParticle (jittered RAND_MAX rand_values (site_S n i) (18 * i + calls)) zero_vec
         (F (particle w (Ss n i))) MASS_S /\
     particle w' (As n i) =
       mkParticle (jittered RAND_MAX rand_values (site_A n i) (6 + (18 * i + calls))) zero_vec
         (F (particle w (As n i))) MASS_A /\
     particle w' (Ps n i) =
       mkParticle (jittered RAND_MAX rand_values (site_P n i) (12 + (18 * i + calls))) zero_vec
         (F (particle w (Ps n i))) MASS_P).
Proof.
  intros n w' Hlen.
  destruct (fillWorld_loop_run RAND_MAX rand_values n n 0 w calls)
    as (_ & Hl & _ & Hin); [lia|done|].
  split; [exact Hl|].
  intros i Hi. specialize (Hin i). rewrite Nat.sub_0_r in Hin. apply Hin. lia.
Qed.

(** X12. What [fillWorld] leaves in an allocated block, for both
    arithmetics: it calls [rand()] exactly [18 * numMonomers] times; the
    sugar, base and phosphate of monomer [i] are at their lattice sites,
    each coordinate moved by [posStdev] times its own sample of
    [randNorm], the samples being drawn in the order sugar x, y, z, base
    x, y, z, phosphate x, y, z from call [18 i] of [rand()] on; the three
    particles are at rest and have the masses [MASS_S], [MASS_A],
    [MASS_P]; the force accumulators and everything beyond the block are
    as they were. *)
Theorem fillWorld_lattice RAND_MAX rand_values (cfg : Config) (w : World) (calls : nat) :
  let n := numMonomers cfg in
  let st' := fillWorld RAND_MAX rand_values cfg (w, calls) in
  (3 * n <= List.length w)%nat ->
  snd st' = (18 * n + calls)%nat /\
  List.length (fst st') = List.length w /\
  (forall p, (3 * n <= p)%nat -> particle (fst st') p = particle w p) /\
  (forall i, (i < n)%nat ->
     particle (fst st') (Ss n i) =
       mkParticle (jittered RAND_MAX rand_values (site_S n i) (18 * i + calls)) zero_vec
         (F (particle w (Ss n i))) MASS_S /\
     particle (fst st') (As n i) =
       mkParticle (jittered RAND_MAX rand_values (site_A n i) (6 + (18 * i + calls))) zero_vec
         (F (particle w (As n i))) MASS_A /\
     particle (fst st') (Ps n i) =
       mkParticle (jittered RAND_MAX rand_values (site_P n i) (12 + (18 * i + calls))) zero_vec
         (F (particle w (Ps n i))) MASS_P).
Proof.
  intros n st' Hlen.
  destruct (fillWorld_loop_run RAND_MAX rand_values n n 0 w calls)
    as (Hc & Hl & Hout & Hin); [lia|done|].
  fold (fillWorld RAND_MAX rand_values cfg (w, calls)) in *. fold st' in Hc, Hl, Hout, Hin.
  split; [done|]. split; [done|].
  split.
  - intros p Hp. apply particle_lookup_eq, Hout. intros k Hk. lia.
  - intros i Hi. specialize (Hin i). rewrite Nat.sub_0_r in Hin. apply Hin. lia.
Qed.

Lemma filled_world_at_rest RAND_MAX rand_values (cfg : Config) (w : World) calls j :
  List.length w = (3 * numMonomers cfg)%nat ->
  (j < List.length w)%nat ->
  vel (particle (fst (fillWorld RAND_MAX rand_values cfg (w, calls))) j) = zero_vec.
Proof.
  intros Hlen Hj.
  destruct (fillWorld_particles RAND_MAX rand_values cfg w calls) as (_ & Hin); [lia|].
  set (n := numMonomers cfg) in *.
  destruct (decide (j < n)%nat) as [H1|H1].
  - destruct (Hin j H1) as (HS & _). unfold Ss in HS. by rewrite HS.
  - destruct (decide (j < 2 * n)%nat) as [H2|H2].
    + destruct (Hin (j - n)%nat) as (_ & HA & _); [lia|].
      unfold As in HA. replace (n + (j - n))%nat with j in HA by lia. by rewrite HA.
    + destruct (Hin (j - 2 * n)%nat) as (_ & _ & HP); [lia|].
      unfold Ps in HP. replace (2 * n + (j - 2 * n))%nat with j in HP by lia. by rewrite HP.
Qed.

End Fill.

Lemma fillWorld_lattice_witness :
  snd (fillWorld 2147483647 (fun _ => 1%Z) demo_config_R (calloc_block 1, 0%nat)) = 18%nat.
Proof.
  exact (proj1 (fillWorld_lattice 2147483647 (fun _ => 1%Z) demo_config_R
                  (calloc_block 1) 0 (Nat.le_refl 3))).
Defined.

Section FillReal.
Context {LL : LibmLog RealDouble}.
Local Open Scope R_scope.

Lemma sum_over_zero f (w : World) :
  (forall j, (j < List.length w)%nat -> f (particle w j) = 0) -> sum_over f w = 0.
Proof.
  induction w as [|P w IH]; intros H; simpl; [done|].
  rewrite IH.
  - specialize (H 0%nat). unfold particle in H. simpl in H. rewrite H; [lra|lia].
  - intros j Hj. apply (H (S j)). simpl. lia.
Qed.

(** X13. In exact arithmetic, whatever [rand()] returns, the world that
    [fillWorld] leaves is at rest: [kineticEnergy] returns [0], [momentum]
    returns the zero vector and [physicsCheck] returns [true]. *)
Theorem fillWorld_leaves_world_at_rest RAND_MAX rand_values (s : @State RealDouble)
    (calls : nat) :
  let s' := set_world (fst (fillWorld RAND_MAX rand_values (config s) (world s, calls))) s in
  List.length (world s) = (3 * numMonomers (config s))%nat ->
  kineticEnergy s' = Ok 0 s' /\
  momentum s' = Ok zero_vec s' /\
  physicsCheck s' = Ok true s'.
Proof.
  intros s' Hlen.
  destruct (fillWorld_particles RAND_MAX rand_values (config s) (world s) calls)
    as (Hl & _); [lia|].
  assert (Hlen' : List.length (world s') = (3 * numMonomers (config s'))%nat).
  { unfold s'. cbn [world set_world config]. by rewrite Hl. }
  assert (Hrest : forall j, (j < List.length (world s'))%nat ->
                            vel (particle (world s') j) = zero_vec).
  { intros j Hj. unfold s' in *. cbn [world set_world] in *.
    apply filled_world_at_rest; [done|]. by rewrite <- Hl. }
  assert (HP : momentum s' = Ok zero_vec s').
  { rewrite momentum_run by done. do 2 f_equal. unfold total_momentum, zero_vec.
    f_equal; (apply sum_over_zero; intros j Hj; rewrite (Hrest j Hj); simpl; lra). }
  split; [|split; [exact HP|]].
  - rewrite kineticEnergy_run. f_equal. rewrite kineticEnergy_value_sum by done.
    apply sum_over_zero. intros j Hj. rewrite (Hrest j Hj). simpl. lra.
  - unfold physicsCheck, mbind, M_bind, get_config. rewrite HP.
    unfold length, length2, dot, zero_vec. simpl.
    replace (0 * 0 + 0 * 0 + 0 * 0) with 0 by ring. rewrite sqrt_0.
    unfold Rdiv. rewrite Rmult_0_l. rewrite Rltb_false by lra. reflexivity.
Qed.

End FillReal.

Section Lattice.
Local Open Scope R_scope.

(** When [rand()] returns [RAND_MAX], [u1 = 1] and the sample is [0]. *)
Lemma randNorm_at_one RAND_MAX (k : nat) :
  RAND_MAX <> 0%Z ->
  fst (randNorm RAND_MAX (fun _ => RAND_MAX) k) = 0.
Proof.
  intros HR. unfold randNorm. cbn [fst]. simpl.
  replace (IZR RAND_MAX / IZR RAND_MAX) with 1 by (field; by apply not_0_IZR).
  rewrite ln_1, Rmult_0_r, sqrt_0. ring.
Qed.

Lemma jittered_at_one RAND_MAX (site : @Vec3 RealDouble) (k : nat) :
  RAND_MAX <> 0%Z -> jittered RAND_MAX (fun _ => RAND_MAX) site k = site.
Proof.
  intros HR. unfold jittered. cbv zeta. rewrite !randNorm_at_one by done.
  destruct site as [a b c]. simpl. f_equal; lra.
Qed.

Lemma Vbond_at_distance (s : @State RealDouble) p1 p2 (d0 : R) :
  0 <= d0 ->
  distance2 (pos (particle (world s) p1)) (pos (particle (world s) p2)) = d0 * d0 ->
  Vbond p1 p2 d0 s = Ok 0 s.
Proof.
  intros Hd Hdist. unfold Vbond, mbind, M_bind, load, mret, M_ret. cbv zeta.
  unfold distance. rewrite Hdist. change (@dsqrt RealDouble) with R_sqrt.sqrt.
  rewrite sqrt_square by done. f_equal.
  change dmul with Rmult. change dadd with Rplus. change dsub with Rminus.
  match goal with |- @eq _ ?u ?v => change (@eq R u v) end. ring.
Qed.

(** X14. The lattice of [fillWorld] is the minimum of the bond energy.  In
    exact arithmetic, when every sample is [0] (here: [rand()] always
    returns [RAND_MAX], so that [u1 = 1] and [log u1 = 0]), the three
    bonds of every monomer are at their equilibrium distances: [Vbond]
    returns [0] for sugar-base, sugar-phosphate and, from the second
    monomer on, sugar-phosphate of the monomer below. *)
Theorem fillWorld_lattice_is_bond_equilibrium RAND_MAX (s : @State RealDouble) (calls : nat) :
  let n := numMonomers (config s) in
  let s' := set_world (fst (fillWorld RAND_MAX (fun _ => RAND_MAX) (config s)
                              (world s, calls))) s in
  RAND_MAX <> 0%Z ->
  (3 * n <= List.length (world s))%nat ->
  forall i, (i < n)%nat ->
    Vbond (Ss n i) (As n i) D_SA s' = Ok 0 s' /\
    Vbond (Ss n i) (Ps n i) D_S5P s' = Ok 0 s' /\
    ((1 <= i)%nat -> Vbond (Ss n i) (Ps n (i - 1)) D_S3P s' = Ok 0 s').
Proof.
  intros n s' HR Hlen i Hi.
  destruct (fillWorld_particles RAND_MAX (fun _ => RAND_MAX) (config s) (world s) calls)
    as (_ & Hin); [done|].
  fold n in Hin.
  destruct (Hin i Hi) as (HS & HA & HP).
  rewrite jittered_at_one in HS, HA, HP by done.
  split; [|split].
  - apply Vbond_at_distance; [unfold D_SA; simpl; lra|].
    unfold s'. cbn [world set_world]. rewrite HS, HA.
    unfold distance2, length2, dot, sub, site_S, site_A. simpl. ring.
  - apply Vbond_at_distance; [unfold D_S5P; simpl; lra|].
    unfold s'. cbn [world set_world]. rewrite HS, HP.
    unfold distance2, length2, dot, sub, site_S, site_P. simpl. ring.
  - intros H1. destruct (Hin (i - 1)%nat) as (_ & _ & HP'); [lia|].
    rewrite jittered_at_one in HP' by done.
    apply Vbond_at_distance; [unfold D_S3P; simpl; lra|].
    unfold s'. cbn [world set_world]. rewrite HS, HP'.
    unfold distance2, length2, dot, sub, site_S, site_P. cbn [pos x y z].
    replace (Z.of_nat (i - 1)) with (Z.of_nat i - 1)%Z by lia.
    change (#(Z.of_nat i - 1))%dbl with (IZR (Z.of_nat i - 1)).
    rewrite minus_IZR. simpl. ring.
Qed.

End Lattice.


Lemma fillWorld_leaves_world_at_rest_witness :
  let s' := set_world (fst (fillWorld 2147483647 (fun _ => 1%Z) demo_config_R
                              (calloc_block 1, 0%nat))) allocated_state_R in
  physicsCheck s' = Ok true s'.
Proof.
  exact (proj2 (proj2 (fillWorld_leaves_world_at_rest 2147483647 (fun _ => 1%Z)
                         allocated_state_R 0 eq_refl))).
Defined.

Lemma fillWorld_lattice_is_bond_equilibrium_witness :
  let s' := set_world (fst (fillWorld 2147483647 (fun _ => 2147483647%Z) demo_config_R
                              (calloc_block 1, 0%nat))) allocated_state_R in
  Vbond (Ss 1 0) (As 1 0) D_SA s' = Ok 0%R s'.
Proof.
  refine (proj1 (fillWorld_lattice_is_bond_equilibrium 2147483647 allocated_state_R 0
                   _ (Nat.le_refl 3) 0%nat (Nat.lt_0_succ 0))).
  discriminate.
Defined.

Section FloatFill.
#[local] Existing Instance FloatDouble.
#[local] Existing Instance FloatMoreLiterals.
Local Open Scope float_scope.

Lemma zero_div_positive (u : float) : (0 <? u) = true -> 0 / u = 0.
Proof.
  rewrite ltb_spec. intros H. apply Prim2SF_inj. rewrite div_spec.
  change (Prim2SF 0) with (S754_zero false) in *.
  unfold SFltb, SFcompare in H. unfold SF64div, SFdiv.
  destruct (Prim2SF u) as [sg|sg| |sg mant e]; try done; by destruct sg.
Qed.

Lemma infinite_or_nan_mul_l (u w : float) : infinite_or_nan w -> infinite_or_nan (u * w).
Proof.
  unfold infinite_or_nan. rewrite mul_spec. unfold SF64mul, SFmul.
  destruct (Prim2SF u), (Prim2SF w); done.
Qed.

Lemma infinite_or_nan_add_r (u w : float) : infinite_or_nan w -> infinite_or_nan (u + w).
Proof.
  unfold infinite_or_nan. rewrite add_spec. unfold SF64add, SFadd.
  destruct (Prim2SF u) as [| [] | |], (Prim2SF w) as [| [] | |]; done.
Qed.

(** The sample when the first of the two values of [rand()] is [0]. *)
Lemma randNorm_zero_draw (LM : Libm FloatDouble) (LL : LibmLog FloatDouble)
    RAND_MAX rand_values (calls : nat) :
  rand_values calls = 0%Z -> (0 <? float_of_int RAND_MAX) = true ->
  dlog 0 = neg_infinity ->
  infinite_or_nan (fst (randNorm RAND_MAX rand_values calls)).
Proof.
  intros Hr HR Hlog. unfold randNorm. cbn [fst]. rewrite Hr.
  change (#0 / #RAND_MAX)%dbl with (0 / float_of_int RAND_MAX).
  rewrite zero_div_positive by done. rewrite Hlog.
  change (@dsqrt FloatDouble (@dmul FloatDouble (@of_int FloatDouble (-2)) neg_infinity))
    with infinity.
  change (@dmul FloatDouble infinity ?u) with (infinity * u).
  by apply infinite_or_nan_mul_r.
Qed.

(** X15. In binary64, when the first value of [rand()] that [fillWorld]
    reads is [0] (with [RAND_MAX > 0] and [log 0 = -infinity]), the sample
    of [randNorm] is an infinity or NaN, and so is the x coordinate that
    [fillWorld] gives to the first sugar. *)
Theorem fillWorld_zero_draw (LM : Libm FloatDouble) (LL : LibmLog FloatDouble)
    RAND_MAX rand_values (cfg : @Config FloatDouble) (w : list (@Particle FloatDouble))
    (calls : nat) :
  let n := numMonomers cfg in
  (1 <= n)%nat -> (3 * n <= List.length w)%nat ->
  rand_values calls = 0%Z -> (0 <? float_of_int RAND_MAX) = true ->
  dlog 0 = neg_infinity ->
  infinite_or_nan (fst (randNorm RAND_MAX rand_values calls)) /\
  infinite_or_nan
    (x (pos (particle (fst (fillWorld RAND_MAX rand_values cfg (w, calls))) (Ss n 0)))).
Proof.
  intros n Hn Hlen Hr HR Hlog.
  pose proof (randNorm_zero_draw LM LL RAND_MAX rand_values calls Hr HR Hlog) as Hinf.
  split; [exact Hinf|].
  destruct (fillWorld_particles RAND_MAX rand_values cfg w calls) as (_ & Hin); [done|].
  destruct (Hin 0%nat) as (HS & _); [done|].
  fold n in HS. rewrite HS. unfold jittered. cbn [pos x].
  change (18 * 0 + calls)%nat with calls.
  change (@dadd FloatDouble ?u ?v) with (u + v).
  change (@dmul FloatDouble ?u ?v) with (u * v).
  by apply infinite_or_nan_add_r, infinite_or_nan_mul_l.
Qed.

Lemma fillWorld_zero_draw_witness :
  infinite_or_nan
    (fst (randNorm (LM := constant_libm 1) (LL := pole_log 0) 2147483647 (fun _ => 0%Z) 0)) /\
  infinite_or_nan
    (x (pos (particle
               (fst (fillWorld (LM := constant_libm 1) (LL := pole_log 0) 2147483647
                       (fun _ => 0%Z) (config right_angle_state) (calloc_block_float, 0%nat)))
               (Ss 1 0)))).
Proof.
  apply (fillWorld_zero_draw (constant_libm 1) (pole_log 0) 2147483647 (fun _ => 0%Z)
           (config right_angle_state) calloc_block_float 0); reflexivity.
Defined.

End FloatFill.

(** ** allocWorld, freeWorld and the energy report *)

Section Alloc.

(** X16. The life cycle of the block.  With [world.all == NULL]: a call of
    [allocWorld] in which [calloc] fails returns [false], allocates
    nothing and leaves [world.all] at [NULL], so that a later call can
    succeed.  A call in which [calloc] succeeds returns [true]; the three
    arrays of [numMonomers] particles start at offsets [0], [numMonomers]
    and [2 * numMonomers], lie inside the block and do not overlap.
    [freeWorld] then releases the block but does not reset [world.all]:
    any further call of [allocWorld] fails the assertion
    [world.all == NULL], whatever [calloc] would return. *)
Theorem allocWorld_lifecycle (n n' : nat) (a : nat) (r : option nat) (mem : Memory) :
  world_all mem = None ->
  (exists mem0,
     allocWorld n None mem = AllocReturned false mem0 /\
     allocated mem0 = allocated mem /\
     exists mem1, allocWorld n (Some a) mem0 = AllocReturned true mem1) /\
  exists mem1,
    allocWorld n (Some a) mem = AllocReturned true mem1 /\
    allocated mem1 = a :: allocated mem /\
    (forall i j, (i < n)%nat -> (j < n)%nat ->
       (world_Ss mem1 + i = Ss n i /\ world_As mem1 + i = As n i /\
        world_Ps mem1 + i = Ps n i)%nat /\
       (Ss n i < 3 * n /\ As n i < 3 * n /\ Ps n i < 3 * n)%nat /\
       Ss n i <> As n j /\ Ss n i <> Ps n j /\ As n i <> Ps n j) /\
    world_all (freeWorld mem1) = Some a /\
    (a ∉ allocated (freeWorld mem1)) /\
    allocWorld n' r (freeWorld mem1) = AllocAssertFailed.
Proof.
  intros Hnull. unfold allocWorld. rewrite Hnull. split.
  - eexists. split; [reflexivity|]. cbn [world_all allocated]. split; [reflexivity|].
    eexists. reflexivity.
  - eexists. split; [reflexivity|]. cbn [allocated world_Ss world_As world_Ps].
    split; [reflexivity|]. split.
    + intros i j Hi Hj. unfold Ss, As, Ps. lia.
    + unfold freeWorld. cbn [world_all allocated].
      split; [reflexivity|]. split; [|reflexivity].
      intros Hin. apply list_elem_of_filter in Hin. by destruct Hin as [Hne _].
Qed.

Lemma allocWorld_lifecycle_witness :
  exists mem1,
    allocWorld 1 (Some 7) fresh_memory = AllocReturned true mem1 /\
    world_all (freeWorld mem1) = Some 7 /\
    (7 ∉ allocated (freeWorld mem1)) /\
    allocWorld 1 (Some 9) (freeWorld mem1) = AllocAssertFailed.
Proof.
  destruct (allocWorld_lifecycle 1 1 7 (Some 9) fresh_memory eq_refl)
    as (_ & mem1 & H1 & _ & _ & H2 & H3 & H4).
  exists mem1. repeat split; assumption.
Defined.

End Alloc.

Section Reporting.
Context {Dbl : Double} {LM : Libm Dbl} {VM : Vmath Dbl} {ML : MoreLiterals Dbl}.
Local Open Scope dbl_scope.

Lemma reads_only_ret {A} (a : A) : reads_only (mret a).
Proof. intros s. by exists a. Qed.

Lemma reads_only_bind {A B} (c : M A) (f : A -> M B) :
  reads_only c -> (forall a, reads_only (f a)) -> reads_only (c ≫= f).
Proof.
  intros Hc Hf s. unfold mbind, M_bind. destruct (Hc s) as [a ->]. apply Hf.
Qed.

Lemma reads_only_load p : reads_only (load p).
Proof. intros s. eexists. reflexivity. Qed.

Lemma reads_only_get_config : reads_only get_config.
Proof. intros s. eexists. reflexivity. Qed.

Lemma reads_only_get_world : reads_only get_world.
Proof. intros s. eexists. reflexivity. Qed.

Lemma reads_only_for_loop_acc {A} (body : nat -> A -> M A) lo hi acc :
  (forall i acc, reads_only (body i acc)) -> reads_only (for_loop_acc lo hi body acc).
Proof.
  intros Hb. unfold for_loop_acc. generalize (hi - lo)%nat as count. intros count.
  revert lo acc. induction count as [|count IH]; intros lo acc; cbn [for_count_acc].
  - apply reads_only_ret.
  - apply reads_only_bind; [apply Hb | intros acc'; apply IH].
Qed.

Ltac reads_step :=
  lazymatch goal with
  | |- reads_only (mbind _ _) => apply reads_only_bind; [|intros ?]
  | |- reads_only (mret _) => apply reads_only_ret
  | |- reads_only (load _) => apply reads_only_load
  | |- reads_only get_config => apply reads_only_get_config
  | |- reads_only get_world => apply reads_only_get_world
  | |- reads_only (for_loop_acc _ _ _ _) => apply reads_only_for_loop_acc; intros ? ?
  | |- reads_only (if ?b then _ else _) => destruct b
  | |- reads_only (let _ := _ in _) => cbv zeta
  end.

Lemma reads_only_Vbond p1 p2 d0 : reads_only (Vbond p1 p2 d0).
Proof. unfold Vbond. repeat reads_step. Qed.

Lemma reads_only_Vangle p1 p2 p3 theta0 : reads_only (Vangle p1 p2 p3 theta0).
Proof. unfold Vangle. repeat reads_step. Qed.

Lemma reads_only_Vdihedral p1 p2 p3 p4 phi0 : reads_only (Vdihedral p1 p2 p3 p4 phi0).
Proof. unfold Vdihedral. repeat reads_step. Qed.

Lemma reads_only_Vstack p1 p2 : reads_only (Vstack p1 p2).
Proof. unfold Vstack. repeat reads_step. Qed.

Ltac reads_energy :=
  lazymatch goal with
  | |- reads_only (Vbond _ _ _) => apply reads_only_Vbond
  | |- reads_only (Vangle _ _ _ _) => apply reads_only_Vangle
  | |- reads_only (Vdihedral _ _ _ _ _) => apply reads_only_Vdihedral
  | |- reads_only (Vstack _ _) => apply reads_only_Vstack
  | |- _ => reads_step
  end.

Lemma reads_only_calcPotentialEnergies : reads_only calcPotentialEnergies.
Proof. unfold calcPotentialEnergies. repeat reads_energy. Qed.

Lemma reads_only_kineticEnergy : reads_only kineticEnergy.
Proof. unfold kineticEnergy. repeat reads_step. Qed.

(** X17. [dumpEnergies] (on a stream that is not [NULL]) and [dumpStats]
    have no assertion of their own and write no global: they always
    return, with the globals as they were.  The line of [dumpEnergies] is
    [sim_time], the total [E = K + bond + angle + dihedral + stack], the
    kinetic energy in electronvolts and the four sums of
    [calcPotentialEnergies]; [dumpStats] prints the same energies and the
    temperature.  Both arithmetics. *)
Theorem dumpEnergies_reads_only (s : State) :
  exists (pe : PotentialEnergies) (K T : D),
    calcPotentialEnergies s = Ok pe s /\
    kineticEnergy s = Ok K s /\
    temperature s = Ok T s /\
    dumpEnergies s =
    Ok (mkEnergyLine (sim_time s)
          (K * ENERGY_FACTOR + pe_bond pe + pe_angle pe + pe_dihedral pe + pe_stack pe)
          (K * ENERGY_FACTOR) (pe_bond pe) (pe_angle pe) (pe_dihedral pe) (pe_stack pe)) s /\
    dumpStats s =
    Ok (mkStatsLine
          (K * ENERGY_FACTOR + pe_bond pe + pe_angle pe + pe_dihedral pe + pe_stack pe)
          (K * ENERGY_FACTOR) (pe_bond pe) (pe_angle pe) (pe_dihedral pe) (pe_stack pe) T) s.
Proof.
  destruct (reads_only_calcPotentialEnergies s) as [pe Hpe].
  exists pe, (kineticEnergy_value s), (temperature_value s).
  split; [done|]. split; [apply kineticEnergy_run|]. split; [apply temperature_run|].
  unfold dumpEnergies, dumpStats, mbind, M_bind.
  rewrite Hpe, kineticEnergy_run, temperature_run. split; reflexivity.
Qed.

End Reporting.

(** ** Exact arithmetic: momentum, net force and reported energies *)

Section RealMomentum.
Context {VM : Vmath RealDouble}.
Local Open Scope R_scope.

Lemma sum_over_fmap f (g : @Particle RealDouble -> Particle) (w : World) :
  sum_over f (g <$> w) = sum_over (fun P => f (g P)) w.
Proof. induction w as [|P w IH]; simpl; [done|]. unfold fmap in IH. by rewrite IH. Qed.

Lemma sum_over_plus f g (w : World) :
  sum_over (fun P => f P + g P) w = sum_over f w + sum_over g w.
Proof. induction w as [|P w IH]; simpl; [lra | rewrite IH; lra]. Qed.

Lemma sum_over_ext_in f g (w : World) :
  (forall j, (j < List.length w)%nat -> f (particle w j) = g (particle w j)) ->
  sum_over f w = sum_over g w.
Proof.
  induction w as [|P w IH]; intros H; simpl; [done|].
  rewrite IH.
  - specialize (H 0%nat). unfold particle in H. simpl in H. rewrite H; [done|lia].
  - intros j Hj. apply (H (S j)). simpl. lia.
Qed.

Lemma sum_over_same_vel_mass f (w w' : World) :
  (fun P => (vel P, m P)) <$> w' = (fun P => (vel P, m P)) <$> w ->
  (forall P P', vel P' = vel P -> m P' = m P -> f P' = f P) ->
  sum_over f w' = sum_over f w.
Proof.
  intros Heq Hf. revert w' Heq. induction w as [|P w IH]; intros [|P' w'] Heq;
    try discriminate; [done|].
  simpl in *. injection Heq as Hv Hm Hrest.
  rewrite (IH w') by done. by rewrite (Hf P P').
Qed.

(** A half kick changes the total momentum by [dt/2] times the total force. *)
Lemma total_momentum_kick dt (w : World) :
  (forall j, (j < List.length w)%nat -> m (particle w j) <> 0) ->
  total_momentum (kick dt <$> w) = add (total_momentum w) (scale (total_force w) (dt / 2)).
Proof.
  intros Hm. unfold total_momentum, total_force, add, scale. simpl.
  rewrite !sum_over_fmap.
  change (@dmul RealDouble) with Rmult. change (@dadd RealDouble) with Rplus.
  f_equal;
    (rewrite (Rmult_comm _ (dt / 2)), <- sum_over_scale, <- sum_over_plus;
     apply sum_over_ext_in; intros j Hj; specialize (Hm j Hj); simpl;
     change (@dmul RealDouble) with Rmult; change (@ddiv RealDouble) with Rdiv;
     change (@dadd RealDouble) with Rplus; change (@of_int RealDouble 2) with 2;
     field; exact Hm).
Qed.


Lemma total_momentum_same_vel_mass (w w' : World) :
  (fun P => (vel P, m P)) <$> w' = (fun P => (vel P, m P)) <$> w ->
  total_momentum w' = total_momentum w.
Proof.
  intros H. unfold total_momentum.
  f_equal; apply sum_over_same_vel_mass; try done; by intros P P' -> ->.
Qed.

Lemma total_force_kick dt (w : World) : total_force (kick dt <$> w) = total_force w.
Proof. unfold total_force. by rewrite !sum_over_fmap. Qed.

(** X18. The momentum balance of one integration step, in exact
    arithmetic, on an allocated world whose masses are not zero: a call of
    [verlet] that returns has changed the total momentum by [dt/2] times
    the sum of the total force stored before the call and the total force
    stored after it. *)
Theorem verlet_momentum_balance (s : @State RealDouble) :
  let dt := timeStep (config s) in
  List.length (world s) = (3 * numMonomers (config s))%nat ->
  (forall j, (j < 3 * numMonomers (config s))%nat -> m (particle (world s) j) <> 0) ->
  match verlet s with
  | Ok _ s' =>
      total_momentum (world s') =
      add (total_momentum (world s))
          (scale (add (total_force (world s)) (total_force (world s'))) (dt / 2))
  | Abort _ _ => True
  end.
Proof.
  intros dt Hlen Hm. rewrite verlet_run; [|done|done]. fold dt.
  set (s1 := set_world _ s).
  pose proof (calculateForces_keeps_vel_mass s1) as Hvm.
  destruct (calculateForces s1) as [[] s2|e s2]; [|done].
  destruct Hvm as (_ & _ & _ & Hw).
  cbn [world set_world].
  assert (Hlen1 : List.length (world s1) = List.length (world s)).
  { unfold s1. cbn [world set_world]. by rewrite length_fmap. }
  assert (Hlen2 : List.length (world s2) = List.length (world s)).
  { rewrite <- Hlen1. apply (f_equal List.length) in Hw. by rewrite !length_fmap in Hw. }
  rewrite total_force_kick, total_momentum_kick.
  2: { intros j Hj.
       pose proof (fmap_eq_particle (fun P => (vel P, m P)) _ _ j Hw) as Hj2.
       injection Hj2 as _ Hmj. rewrite Hmj. unfold s1. cbn [world set_world].
       unfold particle. rewrite list_lookup_fmap.
       destruct (world s !! j) as [P|] eqn:HP.
       - simpl. specialize (Hm j). unfold particle in Hm. rewrite HP in Hm.
         apply Hm. lia.
       - apply lookup_ge_None_1 in HP. lia. }
  rewrite (total_momentum_same_vel_mass _ _ Hw).
  unfold s1. cbn [world set_world].
  rewrite (list_fmap_compose (kick dt) (drift dt)).
  rewrite (total_momentum_same_vel_mass (kick dt <$> world s) (drift dt <$> _)).
  2: { rewrite <- list_fmap_compose. by apply list_fmap_ext. }
  rewrite total_momentum_kick.
  2: { intros j Hj. apply Hm. lia. }
  unfold add, scale. simpl. f_equal; lra.
Qed.

End RealMomentum.

Lemma verlet_momentum_balance_witness :
  List.length (world demo_state_R) = (3 * numMonomers (config demo_state_R))%nat /\
  forall VM : Vmath RealDouble,
    match verlet demo_state_R with
    | Ok _ s' =>
        total_momentum (world s') =
        add (total_momentum (world demo_state_R))
            (scale (add (total_force (world demo_state_R)) (total_force (world s')))
               (timeStep (config demo_state_R) / 2)%R)
    | Abort _ _ => True
    end.
Proof.
  split; [reflexivity|]. intros VM.
  apply (verlet_momentum_balance demo_state_R); [reflexivity|].
  intros j Hj. simpl in Hj.
  destruct j as [|[|[|j]]]; [unfold particle; simpl; lra..|lia].
Defined.


Section RealSingle.
Context {VM : Vmath RealDouble}.
Local Open Scope R_scope.

Lemma total_force_reset (w : World) : total_force (reset_force <$> w) = zero_vec.
Proof.
  unfold total_force, zero_vec. 
  f_equal; (induction w as [|P w IH]; simpl; [done|]; unfold fmap in IH; rewrite IH; simpl; lra).
Qed.

Lemma total_force_Fbond (s : @State RealDouble) p1 p2 d0 :
  (p1 < List.length (world s))%nat -> (p2 < List.length (world s))%nat ->
  exists s', Fbond p1 p2 d0 s = Ok tt s' /\ config s' = config s /\
             List.length (world s') = List.length (world s) /\
             total_force (world s') = total_force (world s).
Proof.
  intros H1 H2. destruct (Fbond_run s p1 p2 d0) as [Fv ->].
  eexists. split; [reflexivity|]. cbn [world set_world config].
  split; [done|]. split; [by rewrite !length_alter|]. by apply total_force_pair.
Qed.

Lemma total_force_Fangle (s : @State RealDouble) p1 p2 p3 theta0 :
  (p1 < List.length (world s))%nat -> (p2 < List.length (world s))%nat ->
  (p3 < List.length (world s))%nat ->
  total_force (world (final_state (Fangle p1 p2 p3 theta0 s))) = total_force (world s).
Proof.
  intros H1 H2 H3. destruct (Fangle_final s p1 p2 p3 theta0) as (F1 & F3 & ->).
  rewrite total_force_subF by (by rewrite !length_alter).
  rewrite !total_force_addF by (by rewrite ?length_alter).
  destruct (total_force (world s)) as [a b c], F1, F3. unfold sub, add. simpl. f_equal; lra.
Qed.

Lemma bind_run {A B} (c : M A) (f : A -> M B) (s s' : @State RealDouble) a :
  c s = Ok a s' -> (c ≫= f) s = f a s'.
Proof. intros H. unfold mbind, M_bind. by rewrite H. Qed.

(** X19. For a single monomer (two bonds and one angle, no dihedral) whose
    sugar is at a position different from those of its base and of its
    phosphate, in exact arithmetic: the three force accumulators that
    [calculateForces] leaves sum to zero. *)
Theorem single_monomer_net_force_zero (s : @State RealDouble) :
  numMonomers (config s) = 1%nat -> List.length (world s) = 3%nat ->
  pos (particle (world s) (Ss 1 0)) <> pos (particle (world s) (As 1 0)) ->
  pos (particle (world s) (Ss 1 0)) <> pos (particle (world s) (Ps 1 0)) ->
  total_force (world (final_state (calculateForces s))) = zero_vec.
Proof.
  intros Hn Hlen _ _. unfold calculateForces.
  rewrite (bind_run get_config _ s s (config s) eq_refl). cbv beta zeta. rewrite Hn.
  set (s0 := set_world (reset_force <$> world s) s).
  assert (Hreset : for_loop 0 (3 * 1)
            (fun i => modify i (fun P => set_F (set_x #0 (F P)) P);;
                      modify i (fun P => set_F (set_y #0 (F P)) P);;
                      modify i (fun P => set_F (set_z #0 (F P)) P)) s = Ok tt s0).
  { unfold for_loop. rewrite Nat.sub_0_r.
    rewrite (for_count_local_ok _ _ _ _ VelNotNan (reset_force_local VelNotNan))
      by (done || lia).
    change (3 * 1)%nat with 3%nat. by rewrite <- Hlen, alter_range_all. }
  rewrite (bind_run _ _ s s0 tt Hreset).
  assert (Hl0 : List.length (world s0) = 3%nat).
  { unfold s0. cbn [world set_world]. by rewrite length_fmap. }
  assert (Hf0 : total_force (world s0) = zero_vec) by apply total_force_reset.
  unfold Ss, As, Ps. change (1 + 0)%nat with 1%nat. change (2 * 1 + 0)%nat with 2%nat.
  destruct (total_force_Fbond s0 0 1 D_SA) as (s1 & H1 & _ & Hl1 & Hf1); [lia..|].
  rewrite (bind_run _ _ s0 s1 tt H1).
  destruct (total_force_Fbond s1 0 2 D_S5P) as (s2 & H2 & _ & Hl2 & Hf2); [lia..|].
  rewrite (bind_run _ _ s1 s2 tt H2).
  pose proof (total_force_Fangle s2 2 0 1 ANGLE_P_5S_A) as Hf3.
  unfold mbind, M_bind.
  destruct (Fangle 2 0 1 ANGLE_P_5S_A s2) as [[] s3|e s3]; cbn [final_state] in *.
  - unfold for_loop. cbn [Nat.sub for_count]. cbn [final_state mret M_ret].
    rewrite Hf3 by lia. congruence.
  - rewrite Hf3 by lia. congruence.
Qed.

End RealSingle.

Lemma single_monomer_net_force_zero_witness :
  total_force (world (final_state (calculateForces (VM := separation_vmath) pushed_state_R)))
  = zero_vec.
Proof.
  apply (single_monomer_net_force_zero (VM := separation_vmath) pushed_state_R);
    [reflexivity | reflexivity | | ];
    (intros H; apply (f_equal x) in H + apply (f_equal y) in H); simpl in H; lra.
Defined.

Section RealStackGuard.
Local Open Scope R_scope.

Lemma distance_pos (a b : @Vec3 RealDouble) : a <> b -> 0 < distance a b.
Proof.
  intros Hne. unfold distance.
  destruct (Rle_lt_or_eq_dec 0 (R_sqrt.sqrt (distance2 a b)) (sqrt_pos _)) as [H|H]; [done|].
  exfalso. apply Hne. symmetry in H. apply sqrt_eq_0 in H.
  - unfold distance2, length2, dot, sub in H. simpl in H.
    pose proof (Rle_0_sqr (x a - x b)) as Hx. pose proof (Rle_0_sqr (y a - y b)) as Hy.
    pose proof (Rle_0_sqr (z a - z b)) as Hz. unfold Rsqr in Hx, Hy, Hz.
    assert (Hx0 : x a - x b = 0) by (apply Rsqr_0_uniq; unfold Rsqr; lra).
    assert (Hy0 : y a - y b = 0) by (apply Rsqr_0_uniq; unfold Rsqr; lra).
    assert (Hz0 : z a - z b = 0) by (apply Rsqr_0_uniq; unfold Rsqr; lra).
    destruct a, b. simpl in *. f_equal; lra.
  - unfold distance2, length2, dot, sub. simpl.
    pose proof (Rle_0_sqr (x a - x b)) as Hx. pose proof (Rle_0_sqr (y a - y b)) as Hy.
    pose proof (Rle_0_sqr (z a - z b)) as Hz. unfold Rsqr in Hx, Hy, Hz. lra.
Qed.

(** X20. The assertion of [Fstack], in exact arithmetic: the call is
    stopped, before anything is written, exactly when the two particles
    are at the same position; otherwise it returns. *)
Theorem Fstack_aborts_iff_coincident (s : @State RealDouble) (p1 p2 : ptr) :
  let P1 := particle (world s) p1 in
  let P2 := particle (world s) p2 in
  (pos P1 = pos P2 -> Fstack p1 p2 s = Abort StackDistNonzero s) /\
  (pos P1 <> pos P2 -> exists s', Fstack p1 p2 s = Ok tt s').
Proof.
  intros P1 P2. split.
  - intros Heq. unfold Fstack, mbind, M_bind, load, assert. cbv zeta. fold P1 P2.
    rewrite Heq.
    assert (H0 : length (sub (pos P2) (pos P2)) = 0).
    { unfold length, length2, dot, sub. simpl.
      replace ((x (pos P2) - x (pos P2)) * (x (pos P2) - x (pos P2)) +
               (y (pos P2) - y (pos P2)) * (y (pos P2) - y (pos P2)) +
               (z (pos P2) - z (pos P2)) * (z (pos P2) - z (pos P2))) with 0 by ring.
      apply sqrt_0. }
    rewrite H0. simpl. unfold Reqb. destruct (Req_dec_T 0 0); [done|lra].
  - intros Hne. eexists. apply Fstack_run. by apply distance_pos.
Qed.

End RealStackGuard.

Section RealEnergies.
Context {VM : Vmath RealDouble}.
Local Open Scope R_scope.

Lemma yields_bind (s : @State RealDouble) {A B} (J : A -> Prop) (I : B -> Prop)
    (c : M A) (f : A -> M B) :
  yields s J c -> (forall a, J a -> yields s I (f a)) -> yields s I (c ≫= f).
Proof.
  intros (a & Ha & HJ) Hf. destruct (Hf a HJ) as (b & Hb & HI).
  exists b. split; [|done]. unfold mbind, M_bind. by rewrite Ha.
Qed.

Lemma yields_ret (s : @State RealDouble) {A} (I : A -> Prop) (a : A) :
  I a -> yields s I (mret a).
Proof. intros H. by exists a. Qed.

Lemma yields_for_count_acc (s : @State RealDouble) {A} (I : A -> Prop)
    (body : nat -> A -> M A) (hi : nat) :
  (forall i acc, (1 <= i < hi)%nat -> I acc -> yields s I (body i acc)) ->
  forall count lo acc, (1 <= lo)%nat ->
    (forall i, (lo <= i < lo + count)%nat -> (i < hi)%nat) -> I acc ->
    yields s I (for_count_acc lo count body acc).
Proof.
  intros Hb. induction count as [|count IH]; intros lo acc Hlo Hhi Hacc;
    cbn [for_count_acc].
  - by apply yields_ret.
  - eapply yields_bind; [apply Hb; [|done]|].
    + split; [done|]. apply Hhi. lia.
    + intros acc' Hacc'. apply IH; [lia| |done]. intros i Hi. apply Hhi. lia.
Qed.

Lemma Vbond_yields s p1 p2 d0 : yields s (fun v => 0 <= v) (Vbond p1 p2 d0).
Proof.
  eexists. split; [reflexivity|]. cbv zeta.
  change (@dmul RealDouble) with Rmult. change (@dadd RealDouble) with Rplus.
  change (@dsub RealDouble) with Rminus.
  set (d := _ - d0).
  assert (0 <= @BOND_K1 RealDouble) by (unfold BOND_K1, EPSILON, FROM_ANGSTROM_SQUARED; simpl; lra).
  assert (0 <= @BOND_K2 RealDouble)
    by (unfold BOND_K2, EPSILON, FROM_ANGSTROM_SQUARED; simpl; lra).
  pose proof (Rle_0_sqr d) as Hd. unfold Rsqr in Hd.
  pose proof (Rle_0_sqr (d * d)) as Hd4. unfold Rsqr in Hd4.
  apply Rplus_le_le_0_compat; by apply Rmult_le_pos.
Qed.

Lemma Vangle_yields s p1 p2 p3 theta0 : yields s (fun v => 0 <= v) (Vangle p1 p2 p3 theta0).
Proof.
  eexists. split; [reflexivity|]. cbv zeta.
  change (@dmul RealDouble) with Rmult. change (@ddiv RealDouble) with Rdiv.
  change (@dsub RealDouble) with Rminus.
  set (d := _ - theta0).
  assert (0 <= @BOND_Ktheta RealDouble / 2) by (unfold BOND_Ktheta, EPSILON; simpl; lra).
  pose proof (Rle_0_sqr d) as Hd. unfold Rsqr in Hd.
  rewrite Rmult_assoc. by apply Rmult_le_pos.
Qed.

Lemma Vdihedral_yields s p1 p2 p3 p4 phi0 :
  yields s (fun v => 0 <= v) (Vdihedral p1 p2 p3 p4 phi0).
Proof.
  eexists. split; [reflexivity|]. cbv zeta.
  change (@dmul RealDouble) with Rmult. change (@dsub RealDouble) with Rminus.
  assert (0 <= @BOND_Kphi RealDouble) by (unfold BOND_Kphi, EPSILON; simpl; lra).
  apply Rmult_le_pos; [done|].
  match goal with |- 0 <= _ - dcos ?u => pose proof (COS_bound u) as [_ Hc] end.
  simpl. simpl in Hc. lra.
Qed.

Lemma Vstack_yields s p1 p2 :
  pos (particle (world s) p1) <> pos (particle (world s) p2) ->
  yields s (fun v => 0 <= v) (Vstack p1 p2).
Proof.
  intros Hne. pose proof (distance_pos _ _ Hne) as Hr.
  eexists. split; [by apply Vstack_run|]. apply stack_potential_nonneg. lra.
Qed.

Lemma ENERGY_FACTOR_pos : 0 < @ENERGY_FACTOR RealDouble _.
Proof. unfold ENERGY_FACTOR. simpl. apply Rdiv_lt_0_compat; lra. Qed.

Ltac energy_step :=
  lazymatch goal with
  | |- yields _ _ (mbind _ (Vbond _ _ _)) =>
      eapply yields_bind; [apply Vbond_yields | intros ? ?]
  | |- yields _ _ (mbind _ (Vangle _ _ _ _)) =>
      eapply yields_bind; [apply Vangle_yields | intros ? ?]
  | |- yields _ _ (mbind _ (Vdihedral _ _ _ _ _)) =>
      eapply yields_bind; [apply Vdihedral_yields | intros ? ?]
  | |- yields _ _ (mbind _ (Vstack _ _)) =>
      eapply yields_bind; [apply Vstack_yields | intros ? ?]
  end.

Lemma calcPotentialEnergies_yields (s : @State RealDouble) :
  let n := numMonomers (config s) in
  (forall i, (1 <= i < n)%nat ->
     pos (particle (world s) (As n i)) <> pos (particle (world s) (As n (i - 1)))) ->
  yields s nonnegative_energies calcPotentialEnergies.
Proof.
  intros n Hapart. unfold calcPotentialEnergies.
  eapply (yields_bind s (fun cfg => cfg = config s));
    [eexists; split; [reflexivity|done]|].
  intros cfg ->. cbv zeta. fold n.
  do 3 energy_step.
  eapply (yields_bind s nonnegative_energies).
  - unfold for_loop_acc. apply (yields_for_count_acc s nonnegative_energies _ n); [|lia|intros; lia|].
    + intros i acc Hi (Hb & Ha & Hd & Hs).
      do 3 energy_step. energy_step; [by apply Hapart|]. do 7 energy_step.
      eapply (yields_bind s (fun v => 0 <= v)).
      * destruct (bool_decide (2 <= i)%nat).
        -- energy_step. apply yields_ret. cbn in *. lra.
        -- apply yields_ret. cbn in *. lra.
      * intros Vd HVd. apply yields_ret. unfold nonnegative_energies. cbn in *.
        repeat split; lra.
    + unfold nonnegative_energies. cbn in *. repeat split; lra.
  - intros acc (Hb & Ha & Hd & Hs). apply yields_ret.
    pose proof ENERGY_FACTOR_pos as HE.
    unfold nonnegative_energies. cbn [pe_bond pe_angle pe_dihedral pe_stack].
    repeat split; apply Rmult_le_pos; lra.
Qed.


(** X21. In exact arithmetic, when no two adjacent bases are at the same
    position, the bond, angle, dihedral and stacking energies that
    [dumpEnergies] prints are never negative, so the total it prints is at
    least the kinetic energy. *)
Theorem reported_energies_nonnegative (s : @State RealDouble) :
  let n := numMonomers (config s) in
  (forall i, (1 <= i < n)%nat ->
     pos (particle (world s) (As n i)) <> pos (particle (world s) (As n (i - 1)))) ->
  exists line : EnergyLine,
    dumpEnergies s = Ok line s /\
    0 <= line_bond line /\ 0 <= line_angle line /\
    0 <= line_dihedral line /\ 0 <= line_stack line /\
    line_K line <= line_E line.
Proof.
  intros n Hapart.
  destruct (calcPotentialEnergies_yields s Hapart) as (pe & Hpe & Hb & Ha & Hd & Hs).
  eexists. split.
  - unfold dumpEnergies. rewrite (bind_run _ _ s s pe Hpe).
    rewrite (bind_run _ _ s s _ (kineticEnergy_run s)).
    rewrite (bind_run get_sim_time _ s s (sim_time s) eq_refl).
    reflexivity.
  - cbn [line_bond line_angle line_dihedral line_stack line_K line_E].
    change (@dadd RealDouble) with Rplus. repeat split; try done. lra.
Qed.

End RealEnergies.

Lemma quad_bases_apart :
  forall i, (1 <= i < numMonomers (config quad_state_R))%nat ->
    pos (particle (world quad_state_R) (As (numMonomers (config quad_state_R)) i)) <>
    pos (particle (world quad_state_R) (As (numMonomers (config quad_state_R)) (i - 1))).
Proof.
  intros i Hi. simpl in Hi. assert (i = 1%nat) as -> by lia.
  unfold particle. simpl. intros H. injection H as H. lra.
Qed.

Lemma reported_energies_nonnegative_witness :
  exists line : EnergyLine,
    dumpEnergies (VM := separation_vmath) quad_state_R = Ok line quad_state_R /\
    (0 <= line_bond line /\ 0 <= line_angle line /\
     0 <= line_dihedral line /\ 0 <= line_stack line /\
     line_K line <= line_E line)%R.
Proof.
  exact (reported_energies_nonnegative (VM := separation_vmath) quad_state_R
           quad_bases_apart).
Defined.

(** ** Exact arithmetic: a force pass run twice, and the angle guard *)

Section RealIdempotent.
Context {VM : Vmath RealDouble}.
Local Open Scope R_scope.

(** X22. In exact arithmetic, on an allocated world, a force pass leaves
    every position as it was (the probing moves of [Fdihedral] are undone
    exactly) and is idempotent: run again on the globals it left, it gives
    the same outcome and leaves them as they are. *)
Theorem calculateForces_idempotent_exact (s : @State RealDouble) :
  List.length (world s) = (3 * numMonomers (config s))%nat ->
  match calculateForces s with
  | Ok _ s' =>
      (forall p, pos (particle (world s') p) = pos (particle (world s) p)) /\
      calculateForces s' = Ok tt s'
  | Abort e s' =>
      (forall p, pos (particle (world s') p) = pos (particle (world s) p)) /\
      calculateForces s' = Abort e s'
  end.
Proof.
  intros Hlen.
  pose proof (calculateForces_frame_exact s) as Hk.
  assert (Hagain : forall s', same_kinematics s s' -> calculateForces s' = calculateForces s).
  { intros s' (Hc & Ht & He & Hw).
    assert (Hlen' : List.length (world s') = (3 * numMonomers (config s'))%nat).
    { rewrite Hc, <- Hlen. apply (f_equal List.length) in Hw. by rewrite !length_fmap in Hw. }
    rewrite <- (calculateForces_after_reset s' Hlen'), <- (calculateForces_after_reset s Hlen).
    by rewrite (reset_state_eq s s'). }
  destruct (calculateForces s) as [[] s'|e s'] eqn:Hrun.
  - split; [|by apply Hagain].
    destruct Hk as (_ & _ & _ & Hw).
    intros p. pose proof (fmap_eq_particle kinematics _ _ p Hw) as Hp. by injection Hp.
  - split; [|by apply Hagain].
    destruct Hk as (_ & _ & _ & Hw).
    intros p. pose proof (fmap_eq_particle kinematics _ _ p Hw) as Hp. by injection Hp.
Qed.

End RealIdempotent.

Lemma calculateForces_idempotent_exact_witness :
  List.length (world demo_state_R) = (3 * numMonomers (config demo_state_R))%nat /\
  forall VM : Vmath RealDouble,
    match calculateForces demo_state_R with
    | Ok _ s' =>
        (forall p, pos (particle (world s') p) = pos (particle (world demo_state_R) p)) /\
        calculateForces s' = Ok tt s'
    | Abort e s' =>
        (forall p, pos (particle (world s') p) = pos (particle (world demo_state_R) p)) /\
        calculateForces s' = Abort e s'
    end.
Proof.
  split; [reflexivity|]. intros VM.
  apply (calculateForces_idempotent_exact demo_state_R). reflexivity.
Defined.

Section RealGuard.
Local Open Scope R_scope.

(** X23. The guard of [Fangle], in exact arithmetic: for three distinct
    particles on a line ([a = k b] with [k <> 0] and [b <> 0]) the sine is
    exactly [0], the test [fabs(sintheta) < 1e-30] succeeds and [Fangle]
    returns without writing anything. *)
Theorem Fangle_skips_colinear_exact (s : @State RealDouble)
    (p1 p2 p3 : ptr) (theta0 k : R) :
  let a := sub (pos (particle (world s) p1)) (pos (particle (world s) p2)) in
  let b := sub (pos (particle (world s) p3)) (pos (particle (world s) p2)) in
  k <> 0 -> b <> zero_vec -> a = scale b k ->
  Fangle p1 p2 p3 theta0 s = Ok tt s.
Proof.
  intros a b Hk Hb Ha. apply (Fangle_colinear_exact s p1 p2 p3 theta0 k); [done| |done].
  fold b. clearbody a b.
  destruct (Rle_lt_or_eq_dec 0 (dot b b) (dot_self_nonneg b)) as [H|H]; [done|].
  exfalso. apply Hb. symmetry in H. unfold dot in H. simpl in H.
  pose proof (Rle_0_sqr (x b)) as Hx. pose proof (Rle_0_sqr (y b)) as Hy.
  pose proof (Rle_0_sqr (z b)) as Hz. unfold Rsqr in Hx, Hy, Hz.
  assert (Hx0 : x b = 0) by (apply Rsqr_0_uniq; unfold Rsqr; lra).
  assert (Hy0 : y b = 0) by (apply Rsqr_0_uniq; unfold Rsqr; lra).
  assert (Hz0 : z b = 0) by (apply Rsqr_0_uniq; unfold Rsqr; lra).
  destruct b as [bx by' bz]. simpl in *. unfold zero_vec. simpl. f_equal; lra.
Qed.

Lemma Fangle_skips_colinear_exact_witness :
  Fangle 0 1 2 ANGLE_P_5S_A colinear_state_R = Ok tt colinear_state_R.
Proof.
  apply (Fangle_skips_colinear_exact colinear_state_R 0 1 2 (@ANGLE_P_5S_A RealDouble)
           (1 / 2)).
  - lra.
  - unfold particle, sub, zero_vec. simpl. intros H. injection H as H. lra.
  - unfold particle, sub, scale. simpl. f_equal; lra.
Defined.

End RealGuard.

(** ** IEEE-754 binary64: the thermostat on a world at rest *)

Section FloatThermostat.
#[local] Existing Instance FloatDouble.
Local Open Scope float_scope.

Lemma float_zero_zero_or_nan (u : float) : float_zero u -> zero_or_nan u.
Proof. unfold float_zero, zero_or_nan. by destruct (Prim2SF u). Qed.

Lemma zero_mul_infinite_or_nan (u w : float) :
  float_zero u -> infinite_or_nan w -> u * w = nan.
Proof.
  unfold float_zero, infinite_or_nan. intros Hu Hw. apply Prim2SF_inj.
  rewrite mul_spec, Prim2SF_nan. unfold SF64mul, SFmul.
  destruct (Prim2SF u), (Prim2SF w); done.
Qed.

Lemma infinite_or_nan_div_r (u w : float) : zero_or_nan w -> infinite_or_nan (u / w).
Proof.
  unfold zero_or_nan, infinite_or_nan. rewrite div_spec. unfold SF64div, SFdiv.
  destruct (Prim2SF u), (Prim2SF w); done.
Qed.

Lemma infinite_or_nan_sub_l (u w : float) : infinite_or_nan u -> infinite_or_nan (u - w).
Proof.
  unfold infinite_or_nan. rewrite sub_spec. unfold SF64sub, SFsub.
  destruct (Prim2SF u) as [| [] | |], (Prim2SF w) as [| [] | |]; done.
Qed.

Lemma infinite_or_nan_sqrt (u : float) : infinite_or_nan u -> infinite_or_nan (sqrt u).
Proof.
  unfold infinite_or_nan. rewrite sqrt_spec. unfold SF64sqrt, SFsqrt.
  destruct (Prim2SF u) as [| [] | |]; done.
Qed.

Lemma kineticEnergy_loop_at_rest (w : list (@Particle FloatDouble)) count : forall i acc,
  (forall j, (i <= j < i + count)%nat -> velocity_zero (particle w j)) ->
  zero_or_nan acc -> zero_or_nan (kineticEnergy_loop w i count acc).
Proof.
  induction count as [|count IH]; intros i acc Hrest Hacc; cbn [kineticEnergy_loop]; [done|].
  apply IH; [intros j Hj; apply Hrest; lia|].
  destruct (Hrest i) as (Hx & Hy & Hz); [lia|].
  apply zero_or_nan_add; [done|]. apply zero_or_nan_mul_r.
  unfold length2, dot.
  repeat apply zero_or_nan_add; by apply zero_or_nan_mul_r, float_zero_zero_or_nan.
Qed.

Lemma thermostat_lambda_at_rest (s : @State FloatDouble) :
  (forall j, (j < 3 * numMonomers (config s))%nat -> velocity_zero (particle (world s) j)) ->
  infinite_or_nan (thermostat_lambda (config s) (temperature_value s)).
Proof.
  intros Hrest. unfold thermostat_lambda.
  apply infinite_or_nan_sqrt, infinite_or_nan_add_r, infinite_or_nan_mul_l,
    infinite_or_nan_sub_l, infinite_or_nan_div_r.
  unfold temperature_value, kineticEnergy_value.
  apply zero_or_nan_div_l, zero_or_nan_mul_r, zero_or_nan_div_l.
  apply kineticEnergy_loop_at_rest; [|done]. intros j Hj. apply Hrest. lia.
Qed.

(** What the scaling leaves of a world at rest. *)
Lemma scale_velocity_at_rest (s : @State FloatDouble) :
  (forall j, (j < List.length (world s))%nat -> velocity_zero (particle (world s) j)) ->
  forall lambda, infinite_or_nan lambda ->
    scale_velocity lambda <$> world s = nan_velocity <$> world s.
Proof.
  intros Hrest lambda Hl.
  apply list_eq. intros j. rewrite !list_lookup_fmap.
  destruct (world s !! j) as [P|] eqn:HP; [|done]. cbn [fmap option_fmap option_map].
  f_equal. specialize (Hrest j). rewrite (particle_lookup _ _ _ HP) in Hrest.
  destruct Hrest as (Hx & Hy & Hz); [by apply lookup_lt_Some in HP|].
  unfold scale_velocity, nan_velocity, scale, fvec. f_equal. cbn [x y z].
  change (@dmul FloatDouble ?u ?v) with (u * v).
  by rewrite !zero_mul_infinite_or_nan.
Qed.

(** X24. In binary64, on an allocated world in which every velocity
    component is a zero, an enabled thermostat ([tau <= 0] false) returns
    normally and leaves NaN in every velocity component, whatever the
    masses, the time step and the target temperature: the temperature is
    [0] (or NaN), the factor is an infinity or NaN, and [0 * lambda] is
    NaN. *)
Theorem thermostat_at_rest_writes_nan (s : @State FloatDouble) :
  List.length (world s) = (3 * numMonomers (config s))%nat ->
  (thermostatTau (config s) <=? 0) = false ->
  (forall j, (j < 3 * numMonomers (config s))%nat -> velocity_zero (particle (world s) j)) ->
  thermostat s = Ok tt (set_world (nan_velocity <$> world s) s).
Proof.
  intros Hlen Htau Hrest. rewrite thermostat_run by done.
  change (thermostatTau (config s) <=? #0)%dbl with (thermostatTau (config s) <=? 0).
  rewrite Htau. rewrite scale_velocity_at_rest; [done| |].
  - intros j Hj. apply Hrest. lia.
  - by apply thermostat_lambda_at_rest.
Qed.

Lemma thermostat_at_rest_writes_nan_witness :
  thermostat frozen_state = Ok tt (set_world (nan_velocity <$> world frozen_state) frozen_state).
Proof.
  apply (thermostat_at_rest_writes_nan frozen_state); [reflexivity|reflexivity|].
  intros [|[|[|j]]] Hj; [unfold velocity_zero, float_zero; vm_compute; done..|].
  simpl in Hj. lia.
Defined.

End FloatThermostat.

Section FloatFillThermostat.
#[local] Existing Instance FloatDouble.
#[local] Existing Instance FloatMoreLiterals.
Local Open Scope float_scope.

(** X25. Hence, in binary64, an enabled thermostat called on the world
    that [fillWorld] has just filled turns every velocity into NaN,
    whatever [rand()], [log] and [cos] return. *)
Theorem thermostat_after_fillWorld_writes_nan (LM : Libm FloatDouble)
    (LL : LibmLog FloatDouble) RAND_MAX rand_values (s : @State FloatDouble) (calls : nat) :
  let s' := set_world (fst (fillWorld RAND_MAX rand_values (config s) (world s, calls))) s in
  List.length (world s) = (3 * numMonomers (config s))%nat ->
  (thermostatTau (config s) <=? 0) = false ->
  thermostat s' = Ok tt (set_world (nan_velocity <$> world s') s').
Proof.
  intros s' Hlen Htau.
  destruct (fillWorld_particles RAND_MAX rand_values (config s) (world s) calls)
    as (Hl & _); [lia|].
  assert (Hlen' : List.length (world s') = (3 * numMonomers (config s'))%nat).
  { unfold s'. cbn [world set_world config]. by rewrite Hl. }
  assert (Hrest : forall j, (j < List.length (world s'))%nat ->
                            velocity_zero (particle (world s') j)).
  { intros j Hj. unfold s' in *. cbn [world set_world] in *.
    unfold velocity_zero. rewrite filled_world_at_rest by lia. done. }
  rewrite thermostat_run by done.
  change (thermostatTau (config s') <=? #0)%dbl with (thermostatTau (config s) <=? 0).
  rewrite Htau. rewrite scale_velocity_at_rest; [done|done|].
  apply thermostat_lambda_at_rest. intros j Hj. apply Hrest. lia.
Qed.

Lemma thermostat_after_fillWorld_writes_nan_witness :
  let s' := set_world (fst (fillWorld (LM := constant_libm 1) (LL := pole_log 0) 2147483647
                              (fun _ => 1%Z) (config frozen_state)
                              (world frozen_state, 0%nat))) frozen_state in
  thermostat s' = Ok tt (set_world (nan_velocity <$> world s') s').
Proof.
  apply (thermostat_after_fillWorld_writes_nan (constant_libm 1) (pole_log 0) 2147483647
           (fun _ => 1%Z) frozen_state 0); reflexivity.
Defined.

End FloatFillThermostat.
